(** * The client subsystem of named (bin/named/client.c)

    A shallow embedding of the client state machine and of the client
    manager, followed by the properties of the specification that were
    checked against it.

    The C code is event driven: every routine runs to completion inside the
    client's task.  A routine of the C file becomes a function in a small
    monad that threads

      - the number of calls made so far to each external routine (the
        environment answers the k-th call to a routine with a result of its
        choice, so every behaviour of the libraries below client.c is
        covered by quantifying over the environment),
      - the list of observable events the routine produced, in program
        order: the calls to the three finalizing operations (labelled with
        the routine that made the call) and the calls to external routines,
      - and an outcome: normal return, a failed REQUIRE/INSIST, or an
        exhausted recursion budget (ns_client_next and client_read call
        each other). *)

From Stdlib Require Import ZArith List Bool Lia Permutation.
Import ListNotations.
Local Open Scope Z_scope.

(** * Part one: the program *)

(** ** Result codes, states and messages *)

(** isc_result_t.  The codes client.c names, and every other code. *)
Inductive isc_result : Type :=
| ISC_R_SUCCESS
| ISC_R_NOMEMORY
| ISC_R_TIMEDOUT
| ISC_R_NOSPACE
| DNS_R_REFUSED
| DNS_R_NOTIMP
| ISC_R_OTHER (code : nat).

(** dns/result.h of this source tree aliases the DNS success code. *)
Definition DNS_R_SUCCESS : isc_result := ISC_R_SUCCESS.

Definition is_success (r : isc_result) : bool :=
  match r with ISC_R_SUCCESS => true | _ => false end.

Definition is_nospace (r : isc_result) : bool :=
  match r with ISC_R_NOSPACE => true | _ => false end.

(** ns_clientstate_t, the values client.c uses. *)
Inductive ns_clientstate : Type :=
| ns_clientstate_idle
| ns_clientstate_listening
| ns_clientstate_reading
| ns_clientstate_working
| ns_clientstate_waiting.

Definition state_eqb (a b : ns_clientstate) : bool :=
  match a, b with
  | ns_clientstate_idle, ns_clientstate_idle
  | ns_clientstate_listening, ns_clientstate_listening
  | ns_clientstate_reading, ns_clientstate_reading
  | ns_clientstate_working, ns_clientstate_working
  | ns_clientstate_waiting, ns_clientstate_waiting => true
  | _, _ => false
  end.

Inductive ns_clienttype : Type := ns_clienttype_basic | ns_clienttype_tcp.

(** dns_opcode_t: the opcodes of the switch in client_request, and the rest. *)
Inductive dns_opcode : Type :=
| dns_opcode_query
| dns_opcode_iquery
| dns_opcode_status
| dns_opcode_notify
| dns_opcode_update
| dns_opcode_reserved (n : nat).

Inductive dns_section : Type :=
| DNS_SECTION_QUESTION
| DNS_SECTION_ANSWER
| DNS_SECTION_AUTHORITY
| DNS_SECTION_ADDITIONAL.

Definition NS_CLIENTATTR_TCP : Z := 0x01.

Definition NS_CLIENTATTR_RA : Z := 0x02.

Definition NS_CLIENT_MAGIC : Z := 0x4E534363.

Definition MANAGER_MAGIC : Z := 0x4E53436D.

Definition SEND_BUFFER_SIZE : Z := 512.

(** The QR bit of the message flags (dns/message.h). *)
Definition DNS_MESSAGEFLAG_QR : Z := 0x8000.

(** The fields of dns_message_t that client.c reads or writes. *)
Record dns_message : Type := mk_message {
  flags : Z;
  rcode : Z;
  opcode : dns_opcode;
  rdclass : Z
}.

Record dns_view : Type := mk_view {
  view_name : nat;
  view_rdclass : Z
}.

(** dns_dispatchevent_t: inbound buffer, transport result, peer address. *)
Record dns_dispatchevent : Type := mk_devent {
  dev_buffer : list Z;
  dev_result : isc_result;
  dev_addr : Z
}.

(** dns_tcpmsg_t, as far as client_request reads it. *)
Record dns_tcpmsg : Type := mk_tcpmsg {
  tcpmsg_buffer : list Z;
  tcpmsg_result : isc_result
}.

(** struct ns_client.  Pointers to external objects are options of opaque
    identifiers; [next] records whether the one-shot callback is set;
    [self] is the address of the structure. *)
Record ns_client : Type := mk_client {
  self : nat;
  magic : Z;
  ctype : ns_clienttype;
  state : ns_clientstate;
  attributes : Z;
  nsends : Z;
  view : option dns_view;
  dispatch : option nat;
  dispentry : option nat;
  dispevent : option dns_dispatchevent;
  tcplistener : option nat;
  tcpsocket : option nat;
  tcpmsg : dns_tcpmsg;
  next : bool;
  message : dns_message;
  requesttime : Z
}.

Definition set_state (c : ns_client) (s : ns_clientstate) : ns_client :=
  mk_client (self c) (magic c) (ctype c) s (attributes c) (nsends c) (view c)
    (dispatch c) (dispentry c) (dispevent c) (tcplistener c) (tcpsocket c)
    (tcpmsg c) (next c) (message c) (requesttime c).

Definition set_magic (c : ns_client) (m : Z) : ns_client :=
  mk_client (self c) m (ctype c) (state c) (attributes c) (nsends c) (view c)
    (dispatch c) (dispentry c) (dispevent c) (tcplistener c) (tcpsocket c)
    (tcpmsg c) (next c) (message c) (requesttime c).

Definition set_attributes (c : ns_client) (a : Z) : ns_client :=
  mk_client (self c) (magic c) (ctype c) (state c) a (nsends c) (view c)
    (dispatch c) (dispentry c) (dispevent c) (tcplistener c) (tcpsocket c)
    (tcpmsg c) (next c) (message c) (requesttime c).

Definition set_nsends (c : ns_client) (n : Z) : ns_client :=
  mk_client (self c) (magic c) (ctype c) (state c) (attributes c) n (view c)
    (dispatch c) (dispentry c) (dispevent c) (tcplistener c) (tcpsocket c)
    (tcpmsg c) (next c) (message c) (requesttime c).

Definition set_view (c : ns_client) (v : option dns_view) : ns_client :=
  mk_client (self c) (magic c) (ctype c) (state c) (attributes c) (nsends c) v
    (dispatch c) (dispentry c) (dispevent c) (tcplistener c) (tcpsocket c)
    (tcpmsg c) (next c) (message c) (requesttime c).

Definition set_dispatch (c : ns_client) (d : option nat) : ns_client :=
  mk_client (self c) (magic c) (ctype c) (state c) (attributes c) (nsends c)
    (view c) d (dispentry c) (dispevent c) (tcplistener c) (tcpsocket c)
    (tcpmsg c) (next c) (message c) (requesttime c).

Definition set_dispentry (c : ns_client) (d : option nat) : ns_client :=
  mk_client (self c) (magic c) (ctype c) (state c) (attributes c) (nsends c)
    (view c) (dispatch c) d (dispevent c) (tcplistener c) (tcpsocket c)
    (tcpmsg c) (next c) (message c) (requesttime c).

Definition set_dispevent (c : ns_client) (d : option dns_dispatchevent)
  : ns_client :=
  mk_client (self c) (magic c) (ctype c) (state c) (attributes c) (nsends c)
    (view c) (dispatch c) (dispentry c) d (tcplistener c) (tcpsocket c)
    (tcpmsg c) (next c) (message c) (requesttime c).

Definition set_tcplistener (c : ns_client) (s : option nat) : ns_client :=
  mk_client (self c) (magic c) (ctype c) (state c) (attributes c) (nsends c)
    (view c) (dispatch c) (dispentry c) (dispevent c) s (tcpsocket c)
    (tcpmsg c) (next c) (message c) (requesttime c).

Definition set_tcpsocket (c : ns_client) (s : option nat) : ns_client :=
  mk_client (self c) (magic c) (ctype c) (state c) (attributes c) (nsends c)
    (view c) (dispatch c) (dispentry c) (dispevent c) (tcplistener c) s
    (tcpmsg c) (next c) (message c) (requesttime c).

Definition set_tcpmsg (c : ns_client) (t : dns_tcpmsg) : ns_client :=
  mk_client (self c) (magic c) (ctype c) (state c) (attributes c) (nsends c)
    (view c) (dispatch c) (dispentry c) (dispevent c) (tcplistener c)
    (tcpsocket c) t (next c) (message c) (requesttime c).

Definition set_next (c : ns_client) (b : bool) : ns_client :=
  mk_client (self c) (magic c) (ctype c) (state c) (attributes c) (nsends c)
    (view c) (dispatch c) (dispentry c) (dispevent c) (tcplistener c)
    (tcpsocket c) (tcpmsg c) b (message c) (requesttime c).

Definition set_message (c : ns_client) (m : dns_message) : ns_client :=
  mk_client (self c) (magic c) (ctype c) (state c) (attributes c) (nsends c)
    (view c) (dispatch c) (dispentry c) (dispevent c) (tcplistener c)
    (tcpsocket c) (tcpmsg c) (next c) m (requesttime c).

Definition set_requesttime (c : ns_client) (t : Z) : ns_client :=
  mk_client (self c) (magic c) (ctype c) (state c) (attributes c) (nsends c)
    (view c) (dispatch c) (dispentry c) (dispevent c) (tcplistener c)
    (tcpsocket c) (tcpmsg c) (next c) (message c) t.

Definition set_flags (m : dns_message) (f : Z) : dns_message :=
  mk_message f (rcode m) (opcode m) (rdclass m).

Definition set_rcode (m : dns_message) (r : Z) : dns_message :=
  mk_message (flags m) r (opcode m) (rdclass m).

(** #define TCP_CLIENT(c) (((c)->attributes & NS_CLIENTATTR_TCP) != 0) *)
Definition TCP_CLIENT (c : ns_client) : bool :=
  negb (Z.land (attributes c) NS_CLIENTATTR_TCP =? 0).

(** #define NS_CLIENT_VALID(c) ((c) != NULL && (c)->magic == NS_CLIENT_MAGIC) *)
Definition NS_CLIENT_VALID (c : ns_client) : bool :=
  magic c =? NS_CLIENT_MAGIC.

(** ** External routines, events and the monad *)

(** The external routines whose return value client.c inspects. *)
Inductive extfn : Type :=
| X_mempool_get
| X_renderbegin
| X_rendersection (s : dns_section)
| X_renderend
| X_sendto
| X_reply
| X_parse
| X_stdtime_get
| X_readmessage
| X_accept
| X_mem_get
| X_mutex_init
| X_task_create
| X_task_onshutdown
| X_timer_create
| X_message_create
| X_mempool_create
| X_query_init
| X_addrequest.

Definition dns_section_eq_dec (a b : dns_section) : {a = b} + {a <> b}.
Proof. decide equality. Defined.

Definition extfn_eq_dec (a b : extfn) : {a = b} + {a <> b}.
Proof. decide equality. apply dns_section_eq_dec. Defined.

(** The routine a call to send, error or next is made from. *)
Inductive caller : Type :=
| F_handler       (* a request handler: ns_query_start, ns_update_start *)
| F_request       (* client_request *)
| F_senddone      (* client_senddone *)
| F_send          (* ns_client_send *)
| F_error         (* ns_client_error *)
| F_read          (* client_read *)
| F_timeout.      (* client_timeout *)

Definition caller_eqb (a b : caller) : bool :=
  match a, b with
  | F_handler, F_handler | F_request, F_request | F_senddone, F_senddone
  | F_send, F_send | F_error, F_error | F_read, F_read
  | F_timeout, F_timeout => true
  | _, _ => false
  end.

(** Where isc_socket_sendto is told to send: the connected socket of a TCP
    client, or the peer address held in the dispatch event of a UDP client
    ([None] when client->dispevent is NULL and the address is not one). *)
Inductive send_target : Type :=
| To_tcp (sock : option nat)
| To_udp (addr : option Z).

Inductive event : Type :=
(* the finalizing operations *)
| Call_send (from : caller)
| Call_error (from : caller) (result : isc_result)
| Call_next (from : caller) (result : isc_result)
(* the send buffer pool *)
| Ev_mempool_get (got : bool)
| Ev_mempool_put
(* the message codec *)
| Ev_renderbegin (m : dns_message) (r : isc_result)
| Ev_rendersection (s : dns_section) (r : isc_result)
| Ev_renderend (r : isc_result)
| Ev_reply (m : dns_message) (want_question_section : bool) (r : isc_result)
| Ev_parse (buffer : list Z) (r : isc_result)
| Ev_message_reset
(* sockets, dispatch, tcpmsg *)
| Ev_sendto (to : send_target) (r : isc_result)
| Ev_freeevent
| Ev_readmessage (r : isc_result)
| Ev_accept (r : isc_result)
| Ev_tcpmsg_init
| Ev_tcpmsg_cancelread
| Ev_tcpmsg_invalidate
| Ev_socket_attach
| Ev_socket_detach
| Ev_dispatch_attach
| Ev_dispatch_detach
| Ev_addrequest (r : isc_result)
| Ev_removerequest
(* views and handlers *)
| Ev_view_attach (v : dns_view)
| Ev_view_detach
| Ev_next_callback (result : isc_result)
| Ev_xfrin_test
(* tasks, timers, memory *)
| Ev_stdtime_get (r : isc_result)
| Ev_task_shutdown (client : nat)
| Ev_task_create (r : isc_result)
| Ev_task_onshutdown (r : isc_result)
| Ev_task_detach
| Ev_timer_create (r : isc_result)
| Ev_timer_detach
| Ev_message_create (r : isc_result)
| Ev_message_destroy
| Ev_mempool_create (r : isc_result)
| Ev_mempool_destroy
| Ev_query_init (r : isc_result)
| Ev_query_free
| Ev_mem_get (got : bool)
| Ev_mutex_init (r : isc_result)
| Ev_client_freed (client : nat)
| Ev_manager_freed.

Inductive outcome (A : Type) : Type :=
| Ok (a : A)
| Assertion_failed
| Out_of_fuel.

Arguments Ok {A} a.
Arguments Assertion_failed {A}.
Arguments Out_of_fuel {A}.

Definition counters : Type := extfn -> nat.

Definition no_calls : counters := fun _ => O.

Definition bump (x : extfn) (cnt : counters) : counters :=
  fun y => if extfn_eq_dec x y then S (cnt y) else cnt y.

Definition M (A : Type) : Type := counters -> outcome A * counters * list event.

Definition ret {A} (a : A) : M A := fun cnt => (Ok a, cnt, []).

Definition bind {A B} (m : M A) (k : A -> M B) : M B := fun cnt =>
  match m cnt with
  | (Ok a, cnt1, e1) =>
      match k a cnt1 with (o, cnt2, e2) => (o, cnt2, e1 ++ e2) end
  | (Assertion_failed, cnt1, e1) => (Assertion_failed, cnt1, e1)
  | (Out_of_fuel, cnt1, e1) => (Out_of_fuel, cnt1, e1)
  end.

Declare Scope client_scope.
Delimit Scope client_scope with client.
Notation "x <- m ;; k" := (bind m (fun x => k))
  (at level 61, m at next level, right associativity) : client_scope.

Notation "m ;; k" := (bind m (fun _ => k))
  (at level 61, right associativity) : client_scope.

Local Open Scope client_scope.

Definition emit (e : event) : M unit := fun cnt => (Ok tt, cnt, [e]).

Definition out_of_fuel {A} : M A := fun cnt => (Out_of_fuel, cnt, []).

(** REQUIRE and INSIST: a failed check aborts the server. *)
Definition REQUIRE (b : bool) : M unit :=
  fun cnt => if b then (Ok tt, cnt, []) else (Assertion_failed, cnt, []).

Definition INSIST (b : bool) : M unit := REQUIRE b.

Definition outcome_of {A} (x : outcome A * counters * list event) : outcome A :=
  fst (fst x).

Definition counters_of {A} (x : outcome A * counters * list event) : counters :=
  snd (fst x).

Definition events_of {A} (x : outcome A * counters * list event) : list event :=
  snd x.

(** The environment: everything below client.c.  [result_of x k] is what
    the k-th call (counted from 0) to the external routine [x] returns;
    [returns_null x k] says whether the k-th call to an allocating routine
    returns NULL, and [mem_address k] is the address the k-th isc_mem_get
    returns when it does not.  The codec's effect on the message fields, the mapping of
    results to rcodes, the clock, the global view list and the request
    handlers are the environment's as well. *)
Record Env : Type := mk_env {
  result_of : extfn -> nat -> isc_result;
  returns_null : extfn -> nat -> bool;
  dns_result_torcode : isc_result -> Z;
  parse_effect : dns_message -> list Z -> isc_result -> dns_message;
  reply_effect : dns_message -> bool -> isc_result -> dns_message;
  reset_effect : dns_message -> dns_message;
  stdtime : nat -> Z;
  mem_address : nat -> nat;
  ns_g_viewlist : list dns_view;
  ns_query_start : ns_client -> M ns_client;
  ns_update_start : ns_client -> M ns_client
}.

(** ** The client (client.c, lines 79-667) *)

(** The events client_request is registered for. *)
Inductive request_event : Type :=
| DNS_EVENT_DISPATCH (devent : dns_dispatchevent)
| DNS_EVENT_TCPMSG.

(** What the client's task can be asked to run: the event handlers of
    client.c, and the three operations a request handler calls when it
    finishes later. *)
Inductive client_event : Type :=
| On_dispatch (devent : dns_dispatchevent)
| On_tcpmsg (filled : dns_tcpmsg)
| On_senddone
| On_timeout
| On_newconn (result : isc_result) (newsocket : nat)
| On_handler_send
| On_handler_error (result : isc_result)
| On_handler_next (result : isc_result).

Section Client.

Variable env : Env.

(** A call to an external routine that returns an isc_result_t. *)
Definition ask (x : extfn) (ev : isc_result -> event) : M isc_result :=
  fun cnt =>
    let r := result_of env x (cnt x) in (Ok r, bump x cnt, [ev r]).

(** A call to an allocating routine; the answer is [true] when the pointer
    returned is not NULL. *)
Definition alloc (x : extfn) (ev : bool -> event) : M bool :=
  fun cnt =>
    let got := negb (returns_null env x (cnt x)) in
    (Ok got, bump x cnt, [ev got]).

(** The result the next call to [x] will return. *)
Definition answer (cnt : counters) (x : extfn) : isc_result :=
  result_of env x (cnt x).

Definition pool_empty (cnt : counters) : bool :=
  returns_null env X_mempool_get (cnt X_mempool_get).

(** client_accept, lines 645-667. *)
Definition client_accept (client : ns_client) : M ns_client :=
  result <- ask X_accept Ev_accept ;;
  if negb (is_success result)
  then ret (set_state client ns_clientstate_idle)
  else ret client.

(** client_read, lines 599-610, over the ns_client_next it calls. *)
Definition client_read_with
    (ns_client_next : caller -> ns_client -> isc_result -> M ns_client)
    (client : ns_client) : M ns_client :=
  result <- ask X_readmessage Ev_readmessage ;;
  client <- (if negb (is_success result)
             then ns_client_next F_read client result
             else ret client) ;;
  ret (set_state client ns_clientstate_reading).

(** ns_client_next, lines 172-209.  dns_view_detach, dns_dispatch_freeevent
    and isc_socket_detach reset the pointer they are handed. *)
Fixpoint ns_client_next (fuel : nat) (from : caller) (client : ns_client)
    (result : isc_result) {struct fuel} : M ns_client :=
  match fuel with
  | O => out_of_fuel
  | S fuel' =>
    emit (Call_next from result) ;;
    REQUIRE (NS_CLIENT_VALID client) ;;
    REQUIRE (state_eqb (state client) ns_clientstate_listening
             || state_eqb (state client) ns_clientstate_working) ;;
    client <- (if next client
               then emit (Ev_next_callback result) ;;
                    ret (set_next client false)
               else ret client) ;;
    client <- (match view client with
               | Some _ => emit Ev_view_detach ;; ret (set_view client None)
               | None => ret client
               end) ;;
    emit Ev_message_reset ;;
    let client := set_message client (reset_effect env (message client)) in
    match dispevent client with
    | Some _ =>
        emit Ev_freeevent ;;
        ret (set_state (set_dispevent client None) ns_clientstate_listening)
    | None =>
        if TCP_CLIENT client then
          if is_success result
          then client_read_with (ns_client_next fuel') client
          else
            client <- (match tcpsocket client with
                       | Some _ =>
                           emit Ev_tcpmsg_invalidate ;;
                           emit Ev_socket_detach ;;
                           ret (set_tcpsocket client None)
                       | None => ret client
                       end) ;;
            client_accept client
        else ret client
    end
  end.

Definition client_read (fuel : nat) (client : ns_client) : M ns_client :=
  client_read_with (ns_client_next fuel) client.

(** The socket and address ns_client_send hands to isc_socket_sendto,
    lines 315-326. *)
Definition sendto_target (client : ns_client) : send_target :=
  if TCP_CLIENT client
  then To_tcp (tcpsocket client)
  else To_udp (option_map dev_addr (dispevent client)).

(** ns_client_send, lines 242-338.  [done] is the code at the label. *)
Definition ns_client_send (fuel : nat) (from : caller) (client : ns_client)
    : M ns_client :=
  emit (Call_send from) ;;
  REQUIRE (NS_CLIENT_VALID client) ;;
  data <- alloc X_mempool_get Ev_mempool_get ;;
  if negb data then
    if 0 <? nsends client then
      INSIST (state_eqb (state client) ns_clientstate_working) ;;
      ret (set_state client ns_clientstate_waiting)
    else ns_client_next fuel F_send client ISC_R_NOMEMORY
  else
    let done (client : ns_client) (result : isc_result) : M ns_client :=
      (if negb (is_success result) then emit Ev_mempool_put else ret tt) ;;
      ns_client_next fuel F_send client result in
    result <- ask X_renderbegin (Ev_renderbegin (message client)) ;;
    if negb (is_success result) then done client result else
    result <- ask (X_rendersection DNS_SECTION_QUESTION)
                  (Ev_rendersection DNS_SECTION_QUESTION) ;;
    if negb (is_success result) then done client result else
    result <- ask (X_rendersection DNS_SECTION_ANSWER)
                  (Ev_rendersection DNS_SECTION_ANSWER) ;;
    if negb (is_success result) then done client result else
    result <- ask (X_rendersection DNS_SECTION_AUTHORITY)
                  (Ev_rendersection DNS_SECTION_AUTHORITY) ;;
    if negb (is_success result) then done client result else
    result <- ask (X_rendersection DNS_SECTION_ADDITIONAL)
                  (Ev_rendersection DNS_SECTION_ADDITIONAL) ;;
    if negb (is_success result) && negb (is_nospace result)
    then done client result else
    result <- ask X_renderend Ev_renderend ;;
    if negb (is_success result) then done client result else
    result <- ask X_sendto (Ev_sendto (sendto_target client)) ;;
    let client := if is_success result
                  then set_nsends client (nsends client + 1)
                  else client in
    done client result.

(** message->flags &= ~DNS_MESSAGEFLAG_QR *)
Definition clear_QR (m : dns_message) : dns_message :=
  set_flags m (Z.land (flags m) (Z.lnot DNS_MESSAGEFLAG_QR)).

(** ns_client_error, lines 340-379. *)
Definition ns_client_error (fuel : nat) (from : caller) (client : ns_client)
    (result : isc_result) : M ns_client :=
  emit (Call_error from result) ;;
  REQUIRE (NS_CLIENT_VALID client) ;;
  let rcode := dns_result_torcode env result in
  let client := set_message client (clear_QR (message client)) in
  let reply (client : ns_client) : M ns_client :=
    ns_client_send fuel F_error
      (set_message client (set_rcode (message client) rcode)) in
  result <- ask X_reply (Ev_reply (message client) true) ;;
  let client :=
    set_message client (reply_effect env (message client) true result) in
  if negb (is_success result) then
    result <- ask X_reply (Ev_reply (message client) false) ;;
    let client :=
      set_message client (reply_effect env (message client) false result) in
    if negb (is_success result)
    then ns_client_next fuel F_error client result
    else reply client
  else reply client.

(** The walk over ns_g_viewlist, lines 433-443. *)
Fixpoint find_view (views : list dns_view) (class : Z) : option dns_view :=
  match views with
  | [] => None
  | v :: rest =>
      if class =? view_rdclass v then Some v else find_view rest class
  end.

(** The switch on the opcode, lines 455-475.  The iquery case has no break
    and runs on into the default case. *)
Definition client_request_dispatch (fuel : nat) (client : ns_client)
    : M ns_client :=
  match opcode (message client) with
  | dns_opcode_query => ns_query_start env client
  | dns_opcode_update => ns_update_start env client
  | dns_opcode_notify =>
      emit Ev_xfrin_test ;;
      ns_client_next fuel F_request client DNS_R_SUCCESS
  | dns_opcode_iquery =>
      client <- ns_client_error fuel F_request client DNS_R_REFUSED ;;
      ns_client_error fuel F_request client DNS_R_NOTIMP
  | _ => ns_client_error fuel F_request client DNS_R_NOTIMP
  end.

(** client_request, lines 381-476.  The TCP message reader has filled in
    client->tcpmsg when it delivers its event. *)
Definition client_request (fuel : nat) (ev : request_event)
    (client : ns_client) : M ns_client :=
  REQUIRE (NS_CLIENT_VALID client) ;;
  start <- match ev with
           | DNS_EVENT_DISPATCH devent =>
               REQUIRE (match dispentry client with
                        | Some _ => true | None => false end) ;;
               ret (set_dispevent client (Some devent),
                    dev_buffer devent, dev_result devent)
           | DNS_EVENT_TCPMSG =>
               ret (client, tcpmsg_buffer (tcpmsg client),
                    tcpmsg_result (tcpmsg client))
           end ;;
  let '(client, buffer, result) := start in
  let client := set_state client ns_clientstate_working in
  got <- (fun cnt => (Ok (stdtime env (cnt X_stdtime_get)), cnt, [])) ;;
  timed <- ask X_stdtime_get Ev_stdtime_get ;;
  let client :=
    set_requesttime client (if is_success timed then got else 0) in
  if negb (is_success result) then
    if TCP_CLIENT client
    then ns_client_next fuel F_request client result
    else emit (Ev_task_shutdown (self client)) ;; ret client
  else
    result <- ask X_parse (Ev_parse buffer) ;;
    let client :=
      set_message client (parse_effect env (message client) buffer result) in
    if negb (is_success result)
    then ns_client_error fuel F_request client result
    else
      INSIST (Z.land (flags (message client)) DNS_MESSAGEFLAG_QR =? 0) ;;
      match find_view (ns_g_viewlist env) (rdclass (message client)) with
      | None => ns_client_error fuel F_request client DNS_R_REFUSED
      | Some v =>
          emit (Ev_view_attach v) ;;
          client_request_dispatch fuel (set_view client (Some v))
      end.

(** client_senddone, lines 211-240. *)
Definition client_senddone (fuel : nat) (client : ns_client) : M ns_client :=
  REQUIRE (NS_CLIENT_VALID client) ;;
  INSIST (0 <? nsends client) ;;
  let client := set_nsends client (nsends client - 1) in
  emit Ev_mempool_put ;;
  if state_eqb (state client) ns_clientstate_waiting then
    ns_client_send fuel F_senddone
      (set_state client ns_clientstate_working)
  else ret client.

(** client_timeout, lines 478-495. *)
Definition client_timeout (fuel : nat) (client : ns_client) : M ns_client :=
  REQUIRE (NS_CLIENT_VALID client) ;;
  ns_client_next fuel F_timeout client ISC_R_TIMEDOUT.

(** client_newconn, lines 612-643. *)
Definition client_newconn (fuel : nat) (nevent_result : isc_result)
    (newsocket : nat) (client : ns_client) : M ns_client :=
  REQUIRE (NS_CLIENT_VALID client) ;;
  if is_success nevent_result then
    emit Ev_tcpmsg_init ;;
    client_read fuel (set_tcpsocket client (Some newsocket))
  else ret (set_state client ns_clientstate_idle).

End Client.

Arguments ns_client_send : simpl never.
Arguments ns_client_error : simpl never.
Arguments client_read : simpl never.
Arguments client_request_dispatch : simpl never.

Section Task.

Variable env : Env.

(** One run of the client's task, and a sequence of them. *)
Definition handle (fuel : nat) (e : client_event) (c : ns_client)
    : M ns_client :=
  match e with
  | On_dispatch devent => client_request env fuel (DNS_EVENT_DISPATCH devent) c
  | On_tcpmsg filled =>
      client_request env fuel DNS_EVENT_TCPMSG (set_tcpmsg c filled)
  | On_senddone => client_senddone env fuel c
  | On_timeout => client_timeout env fuel c
  | On_newconn result newsocket => client_newconn env fuel result newsocket c
  | On_handler_send => ns_client_send env fuel F_handler c
  | On_handler_error result => ns_client_error env fuel F_handler c result
  | On_handler_next result => ns_client_next env fuel F_handler c result
  end.

Fixpoint run_events (fuel : nat) (evs : list client_event) (c : ns_client)
    : M ns_client :=
  match evs with
  | [] => ret c
  | e :: rest => c' <- handle fuel e c ;; run_events fuel rest c'
  end.

End Task.

(** ** The client manager (client.c, lines 54-72, 90-167, 497-597, 669-858) *)

(** struct ns_clientmgr.  [clients] is the linked list, as the addresses of
    its members in list order; nclients is an unsigned int. *)
Record ns_clientmgr : Type := mk_mgr {
  mgr_magic : Z;
  exiting : bool;
  nclients : Z;
  clients : list nat
}.

(** The manager together with the client objects that are allocated. *)
Record server : Type := mk_server {
  manager : ns_clientmgr;
  objects : list ns_client
}.

Definition VALID_MANAGER (m : ns_clientmgr) : bool :=
  mgr_magic m =? MANAGER_MAGIC.

Definition UINT_MAX1 : Z := 2 ^ 32.

(** ISC_LIST_UNLINK *)
Definition unlink (p : nat) (l : list nat) : list nat :=
  filter (fun q => negb (Nat.eqb q p)) l.

Definition drop_object (p : nat) (l : list ns_client) : list ns_client :=
  filter (fun c => negb (Nat.eqb (self c) p)) l.

Definition fresh_message : dns_message := mk_message 0 0 dns_opcode_query 0.

Inductive created : Type :=
| Created (client : ns_client)
| Not_created (result : isc_result).

Section Manager.

Variable env : Env.

(** client_free, lines 90-123. *)
Definition client_free (client : ns_client) : M unit :=
  emit Ev_query_free ;;
  emit Ev_mempool_destroy ;;
  emit Ev_message_destroy ;;
  emit Ev_timer_detach ;;
  (match dispentry client with
   | Some _ => emit Ev_removerequest
   | None => ret tt
   end) ;;
  (match dispatch client with
   | Some _ => emit Ev_dispatch_detach
   | None => ret tt
   end) ;;
  (match tcplistener client with
   | Some _ => emit Ev_socket_detach
   | None => ret tt
   end) ;;
  (match tcpsocket client with
   | Some _ =>
       (if state_eqb (state client) ns_clientstate_reading
        then emit Ev_tcpmsg_cancelread else ret tt) ;;
       emit Ev_tcpmsg_invalidate ;;
       emit Ev_socket_detach
   | None => ret tt
   end) ;;
  emit Ev_task_detach ;;
  emit (Ev_client_freed (self client)).

(** clientmgr_destroy, lines 673-682. *)
Definition clientmgr_destroy (m : ns_clientmgr) : M ns_clientmgr :=
  REQUIRE (nclients m =? 0) ;;
  REQUIRE (match clients m with [] => true | _ => false end) ;;
  emit Ev_manager_freed ;;
  ret (mk_mgr 0 (exiting m) (nclients m) (clients m)).

(** client_destroy, lines 125-150. *)
Definition client_destroy (client : ns_client) (s : server) : M server :=
  REQUIRE (NS_CLIENT_VALID client) ;;
  let m := manager s in
  INSIST (0 <? nclients m) ;;
  let m := mk_mgr (mgr_magic m) (exiting m) (nclients m - 1) (clients m) in
  let need_clientmgr_destroy := (nclients m =? 0) && exiting m in
  let m := mk_mgr (mgr_magic m) (exiting m) (nclients m)
             (unlink (self client) (clients m)) in
  client_free client ;;
  let objs := drop_object (self client) (objects s) in
  if need_clientmgr_destroy
  then m <- clientmgr_destroy m ;; ret (mk_server m objs)
  else ret (mk_server m objs).

(** client_shutdown, lines 152-167. *)
Definition client_shutdown (client : ns_client) (s : server) : M server :=
  REQUIRE (NS_CLIENT_VALID client) ;;
  client_destroy client s.

(** client_create, lines 497-597; the labels are the cleanup chain. *)
Definition client_create (m : ns_clientmgr) (type : ns_clienttype)
    : M created :=
  let cleanup_client (p : nat) (result : isc_result) : M created :=
    emit (Ev_client_freed p) ;; ret (Not_created result) in
  let cleanup_task p result : M created :=
    emit Ev_task_detach ;; cleanup_client p result in
  let cleanup_timer p result : M created :=
    emit Ev_timer_detach ;; cleanup_task p result in
  let cleanup_message p result : M created :=
    emit Ev_message_destroy ;; cleanup_timer p result in
  let cleanup_sendbufs p result : M created :=
    emit Ev_mempool_destroy ;; cleanup_message p result in
  p <- (fun cnt => (Ok (mem_address env (cnt X_mem_get)), cnt, [])) ;;
  got <- alloc env X_mem_get Ev_mem_get ;;
  if negb got then ret (Not_created ISC_R_NOMEMORY) else
  result <- ask env X_task_create Ev_task_create ;;
  if negb (is_success result) then cleanup_client p result else
  result <- ask env X_task_onshutdown Ev_task_onshutdown ;;
  if negb (is_success result) then cleanup_task p result else
  result <- ask env X_timer_create Ev_timer_create ;;
  if negb (is_success result) then cleanup_task p result else
  result <- ask env X_message_create Ev_message_create ;;
  if negb (is_success result) then cleanup_timer p result else
  result <- ask env X_mempool_create Ev_mempool_create ;;
  if negb (is_success result) then cleanup_message p result else
  let client :=
    mk_client p NS_CLIENT_MAGIC type ns_clientstate_idle 0 0 None None None
      None None None (mk_tcpmsg [] ISC_R_SUCCESS) false fresh_message 0 in
  result <- ask env X_query_init Ev_query_init ;;
  if negb (is_success result) then cleanup_sendbufs p result else
  ret (Created client).

(** ns_clientmgr_create, lines 684-717. *)
Definition ns_clientmgr_create : M (isc_result * option ns_clientmgr) :=
  got <- alloc env X_mem_get Ev_mem_get ;;
  if negb got then ret (ISC_R_NOMEMORY, None) else
  result <- ask env X_mutex_init Ev_mutex_init ;;
  if negb (is_success result) then ret (result, None)
  else ret (ISC_R_SUCCESS, Some (mk_mgr MANAGER_MAGIC false 0 [])).

(** The loop of ns_clientmgr_destroy, lines 735-738. *)
Fixpoint shutdown_all (l : list nat) : M unit :=
  match l with
  | [] => ret tt
  | p :: rest => emit (Ev_task_shutdown p) ;; shutdown_all rest
  end.

(** ns_clientmgr_destroy, lines 719-749. *)
Definition ns_clientmgr_destroy (s : server) : M server :=
  let m := manager s in
  REQUIRE (VALID_MANAGER m) ;;
  let m := mk_mgr (mgr_magic m) true (nclients m) (clients m) in
  shutdown_all (clients m) ;;
  let need_destroy := match clients m with [] => true | _ => false end in
  if need_destroy
  then m <- clientmgr_destroy m ;; ret (mk_server m (objects s))
  else ret (mk_server m (objects s)).

(** manager->nclients++; ISC_LIST_APPEND(manager->clients, client, link) *)
Definition register (client : ns_client) (s : server) : server :=
  let m := manager s in
  mk_server
    (mk_mgr (mgr_magic m) (exiting m) ((nclients m + 1) mod UINT_MAX1)
       (clients m ++ [self client]))
    (objects s ++ [client]).

(** The loop of ns_clientmgr_addtodispatch, lines 772-789: [todo] is n - i,
    the triple is (result, i, state) when the loop is left. *)
Fixpoint addtodispatch_loop (todo : nat) (result : isc_result) (i : Z)
    (dispatch : nat) (s : server) : M (isc_result * Z * server) :=
  match todo with
  | O => ret (result, i, s)
  | S todo' =>
      c <- client_create (manager s) ns_clienttype_basic ;;
      match c with
      | Not_created result => ret (result, i, s)
      | Created client =>
          let client := set_state client ns_clientstate_listening in
          emit Ev_dispatch_attach ;;
          let client := set_dispatch client (Some dispatch) in
          result <- ask env X_addrequest Ev_addrequest ;;
          if negb (is_success result) then
            client_free client ;; ret (result, i, s)
          else
            let client := set_dispentry client (Some (self client)) in
            addtodispatch_loop todo' result (i + 1) dispatch
              (register client s)
      end
  end.

(** ns_clientmgr_addtodispatch, lines 751-801. *)
Definition ns_clientmgr_addtodispatch (s : server) (n : Z) (dispatch : nat)
    : M (isc_result * server) :=
  REQUIRE (VALID_MANAGER (manager s)) ;;
  REQUIRE (0 <? n) ;;
  out <- addtodispatch_loop (Z.to_nat n) ISC_R_SUCCESS 0 dispatch s ;;
  let '(result, i, s) := out in
  let result := if negb (i =? 0) then ISC_R_SUCCESS else result in
  ret (result, s).

(** The loop of ns_clientmgr_accepttcp, lines 835-846. *)
Fixpoint accepttcp_loop (todo : nat) (result : isc_result) (i : Z)
    (socket : nat) (s : server) : M (isc_result * Z * server) :=
  match todo with
  | O => ret (result, i, s)
  | S todo' =>
      c <- client_create (manager s) ns_clienttype_tcp ;;
      match c with
      | Not_created result => ret (result, i, s)
      | Created client =>
          let client := set_state client ns_clientstate_listening in
          let client :=
            set_attributes client
              (Z.lor (attributes client) NS_CLIENTATTR_TCP) in
          emit Ev_socket_attach ;;
          let client := set_tcplistener client (Some socket) in
          client <- client_accept env client ;;
          accepttcp_loop todo' ISC_R_SUCCESS (i + 1) socket
            (register client s)
      end
  end.

(** ns_clientmgr_accepttcp, lines 803-858. *)
Definition ns_clientmgr_accepttcp (s : server) (socket : nat) (n : Z)
    : M (isc_result * server) :=
  REQUIRE (VALID_MANAGER (manager s)) ;;
  REQUIRE (0 <? n) ;;
  out <- accepttcp_loop (Z.to_nat n) ISC_R_SUCCESS 0 socket s ;;
  let '(result, i, s) := out in
  let result := if negb (i =? 0) then ISC_R_SUCCESS else result in
  ret (result, s).

End Manager.

(** The shutdown events of a list of clients, run one after the other on
    their tasks in the given order. *)
Fixpoint run_shutdowns (order : list ns_client) (s : server) : M server :=
  match order with
  | [] => ret s
  | c :: rest => s' <- client_shutdown c s ;; run_shutdowns rest s'
  end.

(** ** Reading event lists *)

Definition count_events (p : event -> bool) (l : list event) : nat :=
  length (filter p l).

Definition is_next_from (f : caller) (e : event) : bool :=
  match e with Call_next g _ => caller_eqb f g | _ => false end.

Definition is_send_call (e : event) : bool :=
  match e with Call_send _ => true | _ => false end.

(** A call to one of send, error, next made from routine [f]. *)
Definition is_finalize_from (f : caller) (e : event) : bool :=
  match e with
  | Call_send g | Call_error g _ | Call_next g _ => caller_eqb f g
  | _ => false
  end.

Definition is_render (e : event) : bool :=
  match e with
  | Ev_renderbegin _ _ | Ev_rendersection _ _ | Ev_renderend _ => true
  | _ => false
  end.

Definition is_sendto (e : event) : bool :=
  match e with Ev_sendto _ _ => true | _ => false end.

Definition is_readmessage (e : event) : bool :=
  match e with Ev_readmessage _ => true | _ => false end.

Definition is_mempool_put (e : event) : bool :=
  match e with Ev_mempool_put => true | _ => false end.

Definition is_manager_freed (e : event) : bool :=
  match e with Ev_manager_freed => true | _ => false end.

Definition is_task_shutdown (e : event) : bool :=
  match e with Ev_task_shutdown _ => true | _ => false end.

(** The events of ns_client_next that are neither a call to a finalizing
    operation nor a read, render or send. *)
Definition quiet_event (e : event) : bool :=
  match e with
  | Ev_next_callback _ | Ev_view_detach | Ev_message_reset | Ev_freeevent
  | Ev_tcpmsg_invalidate | Ev_socket_detach | Ev_accept _ => true
  | _ => false
  end.

(** The events ns_client_next can produce after the one for its own call. *)
Definition next_tail_event (e : event) : bool :=
  match e with
  | Call_next F_read _
  | Ev_next_callback _ | Ev_view_detach | Ev_message_reset | Ev_freeevent
  | Ev_readmessage _ | Ev_tcpmsg_invalidate | Ev_socket_detach
  | Ev_accept _ => true
  | _ => false
  end.

(** The events ns_client_send can produce after the one for its own call. *)
Definition send_tail_event (e : event) : bool :=
  match e with
  | Call_next F_send _
  | Ev_mempool_get _ | Ev_mempool_put
  | Ev_renderbegin _ _ | Ev_rendersection _ _ | Ev_renderend _
  | Ev_sendto _ _ => true
  | _ => next_tail_event e
  end.

(** The events ns_client_error can produce after the one for its own call. *)
Definition error_tail_event (e : event) : bool :=
  match e with
  | Call_send F_error | Call_next F_error _ | Ev_reply _ _ _ => true
  | _ => send_tail_event e
  end.

(** The calls to the renderer, in the order they are made. *)
Inductive render_step : Type :=
| R_begin
| R_section (s : dns_section)
| R_end.

Definition render_step_of (e : event) : option render_step :=
  match e with
  | Ev_renderbegin _ _ => Some R_begin
  | Ev_rendersection s _ => Some (R_section s)
  | Ev_renderend _ => Some R_end
  | _ => None
  end.

Fixpoint render_steps (l : list event) : list render_step :=
  match l with
  | [] => []
  | e :: rest =>
      match render_step_of e with
      | Some s => s :: render_steps rest
      | None => render_steps rest
      end
  end.

Definition render_order : list render_step :=
  [R_begin; R_section DNS_SECTION_QUESTION; R_section DNS_SECTION_ANSWER;
   R_section DNS_SECTION_AUTHORITY; R_section DNS_SECTION_ADDITIONAL; R_end].

Definition render_call (s : render_step) : extfn :=
  match s with
  | R_begin => X_renderbegin
  | R_section s => X_rendersection s
  | R_end => X_renderend
  end.

(** The results after which ns_client_send goes on rendering. *)
Definition tolerated (s : render_step) (r : isc_result) : bool :=
  match s with
  | R_section DNS_SECTION_ADDITIONAL => is_success r || is_nospace r
  | _ => is_success r
  end.

(** The responses a list of events shows: the rcode of every message whose
    rendering was begun, and the results error() was called with. *)
Fixpoint rendered_rcodes (l : list event) : list Z :=
  match l with
  | [] => []
  | Ev_renderbegin m _ :: rest => rcode m :: rendered_rcodes rest
  | _ :: rest => rendered_rcodes rest
  end.

Fixpoint error_calls (l : list event) : list isc_result :=
  match l with
  | [] => []
  | Call_error _ r :: rest => r :: error_calls rest
  | _ :: rest => error_calls rest
  end.

(** ** The properties *)

(** The REQUIRE of ns_client_next on the state. *)
Definition may_finalize (c : ns_client) : bool :=
  state_eqb (state c) ns_clientstate_listening
  || state_eqb (state c) ns_clientstate_working.

(** The client invariant of the specification. *)
Definition waiting_has_send (c : ns_client) : Prop :=
  state c = ns_clientstate_waiting -> 0 < nsends c.

(** A request handler keeps the invariant on the clients it returns. *)
Definition handler_keeps (h : ns_client -> M ns_client) : Prop :=
  forall c cnt c',
    waiting_has_send c -> outcome_of (h c cnt) = Ok c' -> waiting_has_send c'.

(** The manager invariant of the specification: nclients is the length of
    the client list (whose members are distinct). *)
Definition counted (m : ns_clientmgr) : Prop :=
  nclients m = Z.of_nat (length (clients m)) /\ NoDup (clients m).

(** What a call ns_client_next(client, r) made from [from] does, whatever
    the environment answers: its events start with the call itself and
    continue with events accepted by [tail_ok]; it does not run out of
    budget; it returns when its REQUIREs hold; it leaves the client in a
    state other than waiting and does not touch nsends or magic. *)
Record next_summary (tail_ok : event -> bool) (from : caller)
    (r : isc_result) (c : ns_client)
    (x : outcome ns_client * counters * list event) : Prop := {
  ns_events : exists tail,
      events_of x = Call_next from r :: tail /\ forallb tail_ok tail = true;
  ns_fuel : outcome_of x <> Out_of_fuel;
  ns_returns :
    NS_CLIENT_VALID c = true -> may_finalize c = true ->
    exists c', outcome_of x = Ok c';
  ns_after : forall c', outcome_of x = Ok c' ->
    state c' <> ns_clientstate_waiting /\ nsends c' = nsends c
    /\ magic c' = magic c
}.

Record send_summary (from : caller) (c : ns_client)
    (x : outcome ns_client * counters * list event) : Prop := {
  ss_events : exists tail,
      events_of x = Call_send from :: tail
      /\ forallb send_tail_event tail = true;
  ss_fuel : outcome_of x <> Out_of_fuel;
  ss_returns :
    NS_CLIENT_VALID c = true -> state c = ns_clientstate_working ->
    exists c', outcome_of x = Ok c';
  ss_after : forall c', outcome_of x = Ok c' ->
    waiting_has_send c' /\ magic c' = magic c
}.

Record error_summary (from : caller) (r : isc_result) (c : ns_client)
    (x : outcome ns_client * counters * list event) : Prop := {
  es_events : exists tail,
      events_of x = Call_error from r :: tail
      /\ forallb error_tail_event tail = true;
  es_fuel : outcome_of x <> Out_of_fuel;
  es_returns :
    NS_CLIENT_VALID c = true -> state c = ns_clientstate_working ->
    exists c', outcome_of x = Ok c';
  es_after : forall c', outcome_of x = Ok c' ->
    waiting_has_send c' /\ magic c' = magic c
}.

(** What is claimed of send(): next is invoked exactly once from it. *)
Definition send_invokes_next_once (env : Env) (fuel : nat) (from : caller)
    (c : ns_client) (cnt : counters) : Prop :=
  count_events (is_next_from F_send)
    (events_of (ns_client_send env fuel from c cnt)) = 1%nat.

(** The failure that stops ns_clientmgr_addtodispatch at its first client:
    client_create fails with [res], or dns_dispatch_addrequest does. *)
Definition first_dispatch_client_fails (env : Env) (s : server) (cnt : counters)
    (res : isc_result) : Prop :=
  let x := client_create env (manager s) ns_clienttype_basic cnt in
  outcome_of x = Ok (Not_created res)
  \/ (exists c, outcome_of x = Ok (Created c)
                /\ result_of env X_addrequest (counters_of x X_addrequest)
                   = res).

(** The failure that stops ns_clientmgr_accepttcp at its first client. *)
Definition first_tcp_client_fails (env : Env) (s : server) (cnt : counters)
    (res : isc_result) : Prop :=
  outcome_of (client_create env (manager s) ns_clienttype_tcp cnt)
  = Ok (Not_created res).

(** ** Test environments *)

Module Scenario.

(** The rcode table of dns_result_torcode for the codes modelled here
    (REFUSED is 5, NOTIMP is 4, anything else SERVFAIL). *)
Definition torcode (r : isc_result) : Z :=
  match r with
  | ISC_R_SUCCESS => 0
  | DNS_R_REFUSED => 5
  | DNS_R_NOTIMP => 4
  | _ => 2
  end.

Definition opcode_of (n : Z) : dns_opcode :=
  match n with
  | 0 => dns_opcode_query
  | 1 => dns_opcode_iquery
  | 2 => dns_opcode_status
  | 4 => dns_opcode_notify
  | 5 => dns_opcode_update
  | _ => dns_opcode_reserved (Z.to_nat n)
  end.

(** A toy wire format: flags, opcode, class. *)
Definition decode (buf : list Z) : dns_message :=
  mk_message (nth 0 buf 0) 0 (opcode_of (nth 1 buf 0)) (nth 2 buf 0).

(** dns_message_reply sets QR when it succeeds. *)
Definition reply (m : dns_message) (q : bool) (r : isc_result) : dns_message :=
  if is_success r then set_flags m (Z.lor (flags m) DNS_MESSAGEFLAG_QR) else m.

(** A handler that starts work and finalizes later. *)
Definition deferring (c : ns_client) : M ns_client := ret c.

Definition env_with (res : extfn -> nat -> isc_result)
    (null : extfn -> nat -> bool) : Env :=
  mk_env res null torcode (fun _ buf _ => decode buf) reply
    (fun _ => fresh_message) (fun k => 1000 + Z.of_nat k) (fun k => (100 + k)%nat)
    [mk_view 0 1] deferring deferring.

(** Every external call succeeds. *)
Definition env_ok : Env :=
  env_with (fun _ _ => ISC_R_SUCCESS) (fun _ _ => false).

(** The send buffer pool is exhausted; everything else succeeds. *)
Definition env_nobuf : Env :=
  env_with (fun _ _ => ISC_R_SUCCESS)
    (fun x _ => match x with X_mempool_get => true | _ => false end).

(** A UDP client that is listening on a dispatch. *)
Definition udp_client : ns_client :=
  mk_client 7 NS_CLIENT_MAGIC ns_clienttype_basic ns_clientstate_listening
    0 0 None (Some 1%nat) (Some 1%nat) None None None
    (mk_tcpmsg [] ISC_R_SUCCESS) false fresh_message 0.

(** A TCP client with a connection, waiting for a message. *)
Definition tcp_client : ns_client :=
  mk_client 8 NS_CLIENT_MAGIC ns_clienttype_tcp ns_clientstate_reading
    NS_CLIENTATTR_TCP 0 None None None None (Some 2%nat) (Some 3%nat)
    (mk_tcpmsg [0; 0; 1] ISC_R_SUCCESS) false fresh_message 0.

(** An inverse query, class IN, from peer 42. *)
Definition iquery_datagram : dns_dispatchevent :=
  mk_devent [0; 1; 1] ISC_R_SUCCESS 42.

End Scenario.

Module Runs.

Import Scenario.

(** The UDP client at work on an inverse query it has parsed and matched
    to a view. *)
Definition iquery_at_work : ns_client :=
  mk_client 7 NS_CLIENT_MAGIC ns_clienttype_basic ns_clientstate_working
    0 0 (Some (mk_view 0 1)) (Some 1%nat) (Some 1%nat)
    (Some iquery_datagram) None None (mk_tcpmsg [] ISC_R_SUCCESS) false
    (decode [0; 1; 1]) 1000.

(** The same client with one send still outstanding. *)
Definition busy_client : ns_client := set_nsends iquery_at_work 1.

(** Rendering the Additional section runs out of space. *)
Definition env_nospace : Env :=
  env_with
    (fun x _ => match x with
                | X_rendersection DNS_SECTION_ADDITIONAL => ISC_R_NOSPACE
                | _ => ISC_R_SUCCESS
                end)
    (fun _ _ => false).

(** The codec cannot turn the message into a reply. *)
Definition env_noreply : Env :=
  env_with
    (fun x _ => match x with X_reply => ISC_R_OTHER 1 | _ => ISC_R_SUCCESS end)
    (fun _ _ => false).

(** The TCP reader cannot be armed. *)
Definition env_noread : Env :=
  env_with
    (fun x _ => match x with
                | X_readmessage => ISC_R_OTHER 2
                | _ => ISC_R_SUCCESS
                end)
    (fun _ _ => false).

(** The second client cannot be allocated. *)
Definition env_one_client : Env :=
  env_with (fun _ _ => ISC_R_SUCCESS)
    (fun x k => match x with X_mem_get => (1 <=? k)%nat | _ => false end).

Definition tcp_listening : ns_client :=
  set_state tcp_client ns_clientstate_listening.

(** The TCP client when the reader delivers an inverse query, class IN. *)
Definition tcp_iquery : ns_client :=
  set_tcpmsg tcp_client (mk_tcpmsg [0; 1; 1] ISC_R_SUCCESS).

Definition empty_server : server :=
  mk_server (mk_mgr MANAGER_MAGIC false 0 []) [].

Definition two_clients : server :=
  mk_server (mk_mgr MANAGER_MAGIC false 2 [7%nat; 8%nat])
    [udp_client; tcp_client].

End Runs.

(** ** Further readings of event lists and of clients *)

Definition is_next_callback (e : event) : bool :=
  match e with Ev_next_callback _ => true | _ => false end.

Definition is_view_detach (e : event) : bool :=
  match e with Ev_view_detach => true | _ => false end.

Definition is_view_attach (e : event) : bool :=
  match e with Ev_view_attach _ => true | _ => false end.

Definition is_freeevent (e : event) : bool :=
  match e with Ev_freeevent => true | _ => false end.

Definition is_accept (e : event) : bool :=
  match e with Ev_accept _ => true | _ => false end.

Definition is_parse (e : event) : bool :=
  match e with Ev_parse _ _ => true | _ => false end.

(** isc_socket_sendto returned ISC_R_SUCCESS. *)
Definition is_sendto_ok (e : event) : bool :=
  match e with Ev_sendto _ ISC_R_SUCCESS => true | _ => false end.

(** A call to send, error or next, whoever makes it. *)
Definition is_finalize (e : event) : bool :=
  match e with
  | Call_send _ | Call_error _ _ | Call_next _ _ => true
  | _ => false
  end.

(** The fields of the client that no routine run by its task writes. *)
Definition kept (c c' : ns_client) : Prop :=
  self c' = self c /\ magic c' = magic c /\ ctype c' = ctype c
  /\ attributes c' = attributes c /\ dispatch c' = dispatch c
  /\ dispentry c' = dispentry c /\ tcplistener c' = tcplistener c.

(** Send buffers taken from the pool minus send buffers put back. *)
Fixpoint buffers_out (l : list event) : Z :=
  match l with
  | [] => 0
  | Ev_mempool_get true :: rest => buffers_out rest + 1
  | Ev_mempool_put :: rest => buffers_out rest - 1
  | _ :: rest => buffers_out rest
  end.

(** A run accounts for its buffers: nsends moves by the buffers it took
    and did not put back, and the kept fields are unchanged. *)
Definition accounted (c : ns_client)
    (x : outcome ns_client * counters * list event) : Prop :=
  forall c', outcome_of x = Ok c' ->
    nsends c' - nsends c = buffers_out (events_of x) /\ kept c c'.

Definition handler_accounts (h : ns_client -> M ns_client) : Prop :=
  forall c cnt, accounted c (h c cnt).

(** The opcodes client_request answers itself, the misrouted inverse
    query left aside. *)
Definition handled_here (op : dns_opcode) : bool :=
  match op with
  | dns_opcode_query | dns_opcode_update | dns_opcode_iquery => false
  | _ => true
  end.

(** Where a UDP client stands once its request has been answered: listening
    again with the dispatch event given back, or waiting for a send buffer
    with the event [d] still in hand. *)
Definition udp_settled (d : dns_dispatchevent) (c : ns_client) : Prop :=
  (state c = ns_clientstate_listening /\ dispevent c = None
   /\ view c = None /\ next c = false)
  \/ (state c = ns_clientstate_waiting /\ 0 < nsends c
      /\ dispevent c = Some d).

(** ** Reading what the manager holds *)

(** The resources a client object is made of. *)
Inductive resource : Type :=
| Res_memory | Res_task | Res_timer | Res_message | Res_sendbufs.

(** What an event does to the number of resources of one kind that are
    held: +1 when one is obtained, -1 when one is given up. *)
Definition holds (res : resource) (e : event) : Z :=
  match res, e with
  | Res_memory, Ev_mem_get got => if got then 1 else 0
  | Res_memory, Ev_client_freed _ => -1
  | Res_task, Ev_task_create r => if is_success r then 1 else 0
  | Res_task, Ev_task_detach => -1
  | Res_timer, Ev_timer_create r => if is_success r then 1 else 0
  | Res_timer, Ev_timer_detach => -1
  | Res_message, Ev_message_create r => if is_success r then 1 else 0
  | Res_message, Ev_message_destroy => -1
  | Res_sendbufs, Ev_mempool_create r => if is_success r then 1 else 0
  | Res_sendbufs, Ev_mempool_destroy => -1
  | _, _ => 0
  end.

Fixpoint held (res : resource) (l : list event) : Z :=
  match l with
  | [] => 0
  | e :: rest => holds res e + held res rest
  end.

(** A client as ns_clientmgr_addtodispatch registers it. *)
Definition udp_ready (d : nat) (c : ns_client) : Prop :=
  NS_CLIENT_VALID c = true /\ ctype c = ns_clienttype_basic
  /\ state c = ns_clientstate_listening /\ TCP_CLIENT c = false
  /\ dispatch c = Some d /\ dispentry c <> None /\ dispevent c = None
  /\ nsends c = 0 /\ view c = None /\ next c = false.

(** A client as ns_clientmgr_accepttcp registers it. *)
Definition tcp_ready (sock : nat) (c : ns_client) : Prop :=
  NS_CLIENT_VALID c = true /\ ctype c = ns_clienttype_tcp
  /\ (state c = ns_clientstate_listening \/ state c = ns_clientstate_idle)
  /\ TCP_CLIENT c = true
  /\ tcplistener c = Some sock /\ tcpsocket c = None /\ dispevent c = None
  /\ nsends c = 0 /\ view c = None /\ next c = false.

(** No library call fails. *)
Definition never_fails (env : Env) : Prop :=
  (forall x k, result_of env x k = ISC_R_SUCCESS)
  /\ (forall x k, returns_null env x k = false).

(** nclients is an unsigned int. *)
Definition in_range (s : server) : Prop :=
  0 <= nclients (manager s) < UINT_MAX1.

(** ** dnssec-signkey (bin/dnssec/dnssec-signkey.c) *)

Module Signkey.

(** What the tool reads of a dst_key_t: dst_key_id, dst_key_alg,
    dst_key_iszonekey, and the key material, which stands for the rest. *)
Record dst_key : Type := mk_key {
  dst_key_id : Z;
  dst_key_alg : Z;
  dst_key_iszonekey : bool;
  key_material : nat
}.

(** struct keynode, lines 78-82; keylist_t is the list of them. *)
Record keynode : Type := mk_keynode {
  key : dst_key;
  verified : bool
}.

Definition keylist_t : Type := list keynode.

(** The fields of dns_rdata_rrsig_t the tool reads. *)
Record dns_rdata_rrsig : Type := mk_rrsig {
  keyid : Z;
  algorithm : Z;
  timesigned : Z;
  timeexpire : Z
}.

(** A dns_rdata_t, by the address of its data. *)
Definition dns_rdata : Type := nat.

(** A dns_rdataset_t as the iteration sees it: the rdatas that
    dns_rdataset_first and dns_rdataset_next deliver with ISC_R_SUCCESS, and
    whether the result that ends the iteration is ISC_R_NOMORE. *)
Record dns_rdataset : Type := mk_rdataset {
  rdatas : list dns_rdata;
  ends_nomore : bool
}.

(** The calls to fatal() and to check_result() that can end the run. *)
Inductive fatal : Type :=
| Fatal_both_times
| Fatal_rdataset_first
| Fatal_out_of_memory
| Fatal_traversing_key_list
| Fatal_no_sig_key_set
| Fatal_rdata_tostruct
| Fatal_missing_key
| Fatal_did_not_verify (k : dst_key)
| Fatal_not_all_self_signed.

Inductive run (A : Type) : Type :=
| Done (a : A)
| Exit (why : fatal).

Arguments Done {A} a.
Arguments Exit {A} why.

(** starttime, endtime (file scope, line 85) and settime (main, line 208). *)
Record times : Type := mk_times {
  settime : bool;
  starttime : Z;
  endtime : Z
}.

(** The key tag and algorithm, which is what a signature names a key by. *)
Definition key_name (k : dst_key) : Z * Z := (dst_key_id k, dst_key_alg k).

Definition sig_name (sig : dns_rdata_rrsig) : Z * Z :=
  (keyid sig, algorithm sig).

Section Tool.

(** dns_dnssec_keyfromrdata: the key, or None when the result is not
    ISC_R_SUCCESS. *)
Variable dns_dnssec_keyfromrdata : dns_rdata -> option dst_key.

(** isc_mem_get for the k-th keynode: false when it returns NULL. *)
Variable isc_mem_get : nat -> bool.

(** dns_rdata_tostruct on a signature rdata: None when it fails. *)
Variable dns_rdata_tostruct : dns_rdata -> option dns_rdata_rrsig.

(** dns_dnssec_verify(domain, &rdataset, key, ISC_TRUE, mctx, &sigrdata)
    returns ISC_R_SUCCESS. *)
Variable dns_dnssec_verify : dst_key -> dns_rdata -> bool.

(** strtotime(str, now, base) of dnssectool. *)
Variable strtotime : nat -> Z -> Z -> Z.

(** The loop of loadkeys, lines 139-158; [got] counts the keynodes
    allocated so far. *)
Fixpoint loadkeys_loop (todo : list dns_rdata) (nomore : bool) (got : nat)
    (keylist : keylist_t) : run keylist_t :=
  match todo with
  | [] =>
      if negb nomore then Exit Fatal_traversing_key_list else Done keylist
  | rdata :: rest =>
      match dns_dnssec_keyfromrdata rdata with
      | None => loadkeys_loop rest nomore got keylist
      | Some k =>
          if negb (dst_key_iszonekey k)
          then loadkeys_loop rest nomore got keylist
          else if negb (isc_mem_get got) then Exit Fatal_out_of_memory
          else loadkeys_loop rest nomore (S got)
                 (keylist ++ [mk_keynode k false])
      end
  end.

(** loadkeys, lines 129-159. *)
Definition loadkeys (rdataset : dns_rdataset) : run keylist_t :=
  match rdatas rdataset with
  | [] => Exit Fatal_rdataset_first
  | todo => loadkeys_loop todo (ends_nomore rdataset) 0 []
  end.

Definition same_key (n : keynode) (sig : dns_rdata_rrsig) : bool :=
  (dst_key_id (key n) =? keyid sig) && (dst_key_alg (key n) =? algorithm sig).

(** The loop of findkey, lines 164-173: the key found and the list with
    that node marked, or None when the loop runs off the list. *)
Fixpoint findkey_loop (keylist : keylist_t) (sig : dns_rdata_rrsig)
    : option (dst_key * keylist_t) :=
  match keylist with
  | [] => None
  | keynode :: rest =>
      if same_key keynode sig
      then Some (key keynode, mk_keynode (key keynode) true :: rest)
      else match findkey_loop rest sig with
           | Some (k, rest') => Some (k, keynode :: rest')
           | None => None
           end
  end.

(** findkey, lines 161-176. *)
Definition findkey (keylist : keylist_t) (sig : dns_rdata_rrsig)
    : run (dst_key * keylist_t) :=
  match findkey_loop keylist sig with
  | Some found => Done found
  | None => Exit Fatal_missing_key
  end.

(** main, lines 275-283: the -s and -e options. *)
Definition option_times (startstr endstr : option nat) (now : Z)
    : run times :=
  match startstr, endstr with
  | None, None => Done (mk_times false 0 0)
  | Some s, Some e =>
      let starttime := strtotime s now now in
      Done (mk_times true starttime (strtotime e now starttime))
  | _, _ => Exit Fatal_both_times
  end.

(** main, the do-while loop of lines 360-381, one turn for each rdata of
    the signature set. *)
Fixpoint verify_sigs (sigs : list dns_rdata) (keylist : keylist_t)
    (t : times) : run (keylist_t * times) :=
  match sigs with
  | [] => Done (keylist, t)
  | sigrdata :: rest =>
      match dns_rdata_tostruct sigrdata with
      | None => Exit Fatal_rdata_tostruct
      | Some sig =>
          match findkey keylist sig with
          | Exit why => Exit why
          | Done (k, keylist) =>
              if negb (dns_dnssec_verify k sigrdata)
              then Exit (Fatal_did_not_verify k)
              else
                let t := if negb (settime t)
                         then mk_times true (timesigned sig) (timeexpire sig)
                         else t in
                verify_sigs rest keylist t
          end
      end
  end.

(** main, lines 351-387: the key set is loaded, every signature on it is
    verified, and every zone key must have been used.  [sigrdataset] is
    None when the signature set is not associated. *)
Definition check_keyset (rdataset : dns_rdataset)
    (sigrdataset : option (list dns_rdata)) (t : times)
    : run (keylist_t * times) :=
  match loadkeys rdataset with
  | Exit why => Exit why
  | Done keylist =>
      match sigrdataset with
      | None => Exit Fatal_no_sig_key_set
      | Some [] => Exit Fatal_rdataset_first
      | Some sigs =>
          match verify_sigs sigs keylist t with
          | Exit why => Exit why
          | Done (keylist, t) =>
              if forallb verified keylist then Done (keylist, t)
              else Exit Fatal_not_all_self_signed
          end
      end
  end.

(** A key as loadkeys enters it. *)
Definition unverified (k : dst_key) : keynode := mk_keynode k false.

(** A key that one of the signatures [sigs] names and that verifies it. *)
Definition self_signed (sigs : list dns_rdata) (k : dst_key) : Prop :=
  exists sigrdata sig,
    In sigrdata sigs /\ dns_rdata_tostruct sigrdata = Some sig
    /\ key_name k = sig_name sig /\ dns_dnssec_verify k sigrdata = true.

(** Below [seen], every marked node of the list is self signed and
    carries a name that no node before it carries. *)
Fixpoint marks_sound (sigs : list dns_rdata) (seen : list (Z * Z))
    (keylist : keylist_t) : Prop :=
  match keylist with
  | [] => True
  | n :: rest =>
      (verified n = true ->
       ~ In (key_name (key n)) seen /\ self_signed sigs (key n))
      /\ marks_sound sigs (key_name (key n) :: seen) rest
  end.

End Tool.

(** The zone keys of a key set, in its order. *)
Fixpoint zone_keys (keyfromrdata : dns_rdata -> option dst_key)
    (l : list dns_rdata) : list dst_key :=
  match l with
  | [] => []
  | rdata :: rest =>
      match keyfromrdata rdata with
      | Some k =>
          if dst_key_iszonekey k then k :: zone_keys keyfromrdata rest
          else zone_keys keyfromrdata rest
      | None => zone_keys keyfromrdata rest
      end
  end.

End Signkey.

(** ** More concrete runs *)

Module Cases.

Import Scenario.

(** The TCP client at work on a request. *)
Definition tcp_at_work : ns_client :=
  set_state tcp_client ns_clientstate_working.

(** The UDP client parked by send() with one send outstanding. *)
Definition parked_client : ns_client :=
  set_state Runs.busy_client ns_clientstate_waiting.

(** A status request, class IN, from peer 42. *)
Definition status_datagram : dns_dispatchevent :=
  mk_devent [0; 2; 1] ISC_R_SUCCESS 42.

(** The dispatcher reports a failure instead of a datagram. *)
Definition failed_datagram : dns_dispatchevent :=
  mk_devent [] (ISC_R_OTHER 3) 42.

(** The TCP reader reports a failure. *)
Definition tcp_failed : ns_client :=
  set_tcpmsg tcp_client (mk_tcpmsg [] (ISC_R_OTHER 4)).

(** A response (QR set) that arrives as a request. *)
Definition response_datagram : dns_dispatchevent :=
  mk_devent [DNS_MESSAGEFLAG_QR; 0; 1] ISC_R_SUCCESS 42.

(** A query of class 3, for which no view is configured. *)
Definition chaos_datagram : dns_dispatchevent :=
  mk_devent [0; 0; 3] ISC_R_SUCCESS 42.

(** A key set of two zone keys and one key that is not a zone key, the
    fourth rdata not being a key at all, with a signature by each zone
    key. *)
Definition keyfromrdata (rdata : Signkey.dns_rdata) : option Signkey.dst_key :=
  match rdata with
  | 1%nat => Some (Signkey.mk_key 11 5 true 1)
  | 2%nat => Some (Signkey.mk_key 12 5 false 2)
  | 3%nat => Some (Signkey.mk_key 13 5 true 3)
  | _ => None
  end.

Definition tostruct (rdata : Signkey.dns_rdata)
    : option Signkey.dns_rdata_rrsig :=
  match rdata with
  | 10%nat => Some (Signkey.mk_rrsig 11 5 100 200)
  | 11%nat => Some (Signkey.mk_rrsig 13 5 150 250)
  | _ => None
  end.

Definition keyset : Signkey.dns_rdataset :=
  Signkey.mk_rdataset [1%nat; 2%nat; 3%nat; 4%nat] true.

Definition sigset : option (list Signkey.dns_rdata) :=
  Some [10%nat; 11%nat].

Definition signed_keylist : Signkey.keylist_t :=
  [Signkey.mk_keynode (Signkey.mk_key 11 5 true 1) true;
   Signkey.mk_keynode (Signkey.mk_key 13 5 true 3) true].

End Cases.

(** * Part two: what the program does *)

(** ** Basic facts *)

Lemma is_success_true r : is_success r = true <-> r = ISC_R_SUCCESS.
Proof. destruct r; simpl; split; congruence. Qed.

Lemma is_success_false r : is_success r = false <-> r <> ISC_R_SUCCESS.
Proof. destruct r; simpl; split; congruence. Qed.

Lemma state_eqb_eq a b : state_eqb a b = true <-> a = b.
Proof. destruct a, b; simpl; split; congruence. Qed.

Lemma caller_eqb_eq a b : caller_eqb a b = true <-> a = b.
Proof. destruct a, b; simpl; split; congruence. Qed.

Lemma count_events_app p l1 l2 :
  count_events p (l1 ++ l2) = (count_events p l1 + count_events p l2)%nat.
Proof. unfold count_events. now rewrite filter_app, length_app. Qed.

Lemma count_events_cons p e l :
  count_events p (e :: l)
  = ((if p e then 1 else 0) + count_events p l)%nat.
Proof. unfold count_events. simpl. now destruct (p e). Qed.

Lemma count_events_none p q l :
  forallb q l = true ->
  (forall e, q e = true -> p e = false) ->
  count_events p l = O.
Proof.
  intros Hq Hpq. induction l as [|e l IH]; [reflexivity|].
  simpl in Hq. apply andb_true_iff in Hq as [He Hl].
  rewrite count_events_cons, (Hpq e He), IH by assumption. reflexivity.
Qed.

Lemma filter_none (p q : event -> bool) l :
  forallb q l = true ->
  (forall e, q e = true -> p e = false) ->
  filter p l = [].
Proof.
  intros Hq Hpq. apply length_zero_iff_nil.
  exact (count_events_none p q l Hq Hpq).
Qed.

Lemma forallb_impl {A} (p q : A -> bool) l :
  (forall a, p a = true -> q a = true) ->
  forallb p l = true -> forallb q l = true.
Proof.
  intros H. induction l as [|a l IH]; simpl; [reflexivity|].
  intros Hl. apply andb_true_iff in Hl as [Ha Hl].
  now rewrite (H a Ha), IH.
Qed.

Lemma may_finalize_iff c :
  may_finalize c = true <->
  state c = ns_clientstate_listening \/ state c = ns_clientstate_working.
Proof.
  unfold may_finalize. destruct (state c); simpl; intuition discriminate.
Qed.

Lemma quiet_is_next_tail e : quiet_event e = true -> next_tail_event e = true.
Proof. destruct e; simpl; congruence. Qed.

Lemma working_has_send c :
  state c = ns_clientstate_working -> waiting_has_send c.
Proof. unfold waiting_has_send. congruence. Qed.

Lemma not_waiting_has_send c :
  state c <> ns_clientstate_waiting -> waiting_has_send c.
Proof. unfold waiting_has_send. congruence. Qed.

(** ** Facts about the client routines *)

(** Case analysis on an innermost test of the goal. *)
Ltac atom b :=
  lazymatch b with
  | context [if _ then _ else _] => fail
  | context [match _ with _ => _ end] => fail
  | negb _ => fail
  | andb _ _ => fail
  | orb _ _ => fail
  | true => fail
  | false => fail
  | _ => idtac
  end.

Ltac branch :=
  match goal with
  | |- context [negb ?b] => atom b; destruct b eqn:?
  | |- context [andb ?b _] => atom b; destruct b eqn:?
  | |- context [orb ?b _] => atom b; destruct b eqn:?
  | |- context [if ?b then _ else _] => atom b; destruct b eqn:?
  | |- context [match ?b with _ => _ end] => atom b; destruct b eqn:?
  end.

Ltac run := cbn; repeat (branch; cbn).

Ltac finish_summary :=
  split; cbn;
  [ eexists; split; reflexivity
  | discriminate
  | intros; try congruence; eexists; reflexivity
  | intros ? [= <-]; cbn; repeat split;
    match goal with
    | H : may_finalize ?c = true |- _ =>
        apply may_finalize_iff in H; destruct H as [H|H]; try rewrite H;
        discriminate
    | _ => discriminate
    end ].

Section ClientFacts.

Variable env : Env.

(** ns_client_next with a result other than success does not read. *)
Lemma next_failed fuel from c r cnt :
  is_success r = false ->
  next_summary quiet_event from r c
    (ns_client_next env (S fuel) from c r cnt).
Proof.
  intros Hr.
  unfold ns_client_next, client_accept, bind, REQUIRE, emit, ret, ask.
  fold ns_client_next. fold (may_finalize c).
  rewrite Hr. run.
  all: solve [finish_summary].
Qed.

Lemma next_step fuel from c r cnt :
  (forall f c r cnt, is_success r = false ->
     next_summary quiet_event f r c (ns_client_next env fuel f c r cnt)) ->
  next_summary next_tail_event from r c
    (ns_client_next env (S fuel) from c r cnt).
Proof.
  intros Hinner.
  destruct (is_success r) eqn:Hr.
  2:{ destruct (next_failed fuel from c r cnt Hr) as [[tail [E Q]] F R A].
      split; auto. exists tail. split; [exact E|].
      revert Q. apply forallb_impl, quiet_is_next_tail. }
  cbn [ns_client_next].
  unfold client_read_with, client_accept, bind, REQUIRE, emit, ret, ask.
  fold (may_finalize c).
  rewrite Hr. run.
  all: try solve [finish_summary].
  all: match goal with
       | H : ns_client_next _ _ F_read ?c1 ?r1 ?cnt1 = _ |- _ =>
           let S := fresh "S" in
           assert (S := Hinner F_read c1 r1 cnt1);
           rewrite H in S;
           destruct S as [[tail [E Q]] F R A]; cbn in *;
           [ assumption | ]
       end.
  all: split; cbn.
  all: rewrite ?app_nil_r.
  all: try discriminate.
  all: try congruence.
  all: try (subst; eexists; split; [reflexivity|]; cbn;
            revert Q; apply forallb_impl, quiet_is_next_tail).
  all: try (intros V Fz; destruct R as [c' R];
            [exact V | exact Fz | discriminate R]).
  all: try (intros; eexists; reflexivity).
  all: intros ? [= <-]; cbn; repeat split; try discriminate;
       destruct (A _ eq_refl) as (_ & A1 & A2); cbn in *; congruence.
Qed.

(** Two levels of budget are enough for ns_client_next. *)
Lemma next_enough fuel from c r cnt :
  next_summary next_tail_event from r c
    (ns_client_next env (S (S fuel)) from c r cnt).
Proof.
  apply next_step. intros. now apply next_failed.
Qed.

Lemma next_ok fuel from c r cnt :
  (2 <= fuel)%nat ->
  next_summary next_tail_event from r c (ns_client_next env fuel from c r cnt).
Proof.
  intros H. destruct fuel as [|[|fuel]]; try lia. apply next_enough.
Qed.

End ClientFacts.

(** Replace the result of a call to ns_client_next by its summary. *)
Ltac use_next Hfuel :=
  match goal with
  | H : ns_client_next ?env ?fuel ?f ?c ?r ?cnt = _ |- _ =>
      let S := fresh "S" in
      assert (S := next_ok env fuel f c r cnt Hfuel); rewrite H in S;
      destruct S as [[?tail [?E ?Q]] ?F ?R ?A]; cbn in *; subst
  end.

Lemma next_tail_not_finalize f :
  f <> F_read ->
  forall e, next_tail_event e = true -> is_finalize_from f e = false.
Proof.
  intros Hf e. destruct e; simpl; try congruence.
  destruct from, f; simpl; congruence.
Qed.

Lemma next_tail_not_next f :
  f <> F_read ->
  forall e, next_tail_event e = true -> is_next_from f e = false.
Proof.
  intros Hf e. destruct e; simpl; try congruence.
  destruct from, f; simpl; congruence.
Qed.

Lemma next_tail_not_render e :
  next_tail_event e = true -> is_render e = false.
Proof. destruct e; simpl; congruence. Qed.

Lemma next_tail_not_sendto e :
  next_tail_event e = true -> is_sendto e = false.
Proof. destruct e; simpl; congruence. Qed.

Lemma next_tail_not_send_call e :
  next_tail_event e = true -> is_send_call e = false.
Proof. destruct e; simpl; congruence. Qed.

(** ** ns_client_send *)

Lemma render_steps_next_tail l :
  forallb next_tail_event l = true -> render_steps l = [].
Proof.
  induction l as [|e l IH]; simpl; [reflexivity|].
  intros H. apply andb_true_iff in H as [He Hl].
  rewrite (IH Hl). destruct e; simpl in *; congruence.
Qed.

Lemma next_tail_is_send_tail e :
  next_tail_event e = true -> send_tail_event e = true.
Proof. destruct e; simpl; try congruence. destruct from; congruence. Qed.

(** Use what is known of the environment's answers in the tests made. *)
Ltac use_answers :=
  repeat match goal with
         | H : ?t = _, G : is_success ?t = _ |- _ => rewrite H in G; cbn in G
         | H : ?t = _, G : is_nospace ?t = _ |- _ => rewrite H in G; cbn in G
         end;
  try discriminate.

Ltac fold_counts :=
  repeat match goal with
         | |- context [length (filter ?p ?l)] =>
             change (length (filter p l)) with (count_events p l)
         end.

Section SendFacts.

Variable env : Env.

Lemma send_next_count fuel from c cnt :
  (2 <= fuel)%nat ->
  NS_CLIENT_VALID c = true ->
  count_events (is_next_from F_send)
    (events_of (ns_client_send env fuel from c cnt))
  = if pool_empty env cnt && (0 <? nsends c) then 0%nat else 1%nat.
Proof.
  intros Hfuel Hvalid.
  unfold ns_client_send, pool_empty, bind, INSIST, REQUIRE, emit, ret, ask,
    alloc.
  rewrite Hvalid. run.
  all: try reflexivity.
  all: use_next Hfuel; cbn; f_equal; apply (count_events_none _ _ _ Q);
       apply next_tail_not_next; discriminate.
Qed.

(** ns_client_send hands over to ns_client_next as its last action unless
    it parks the client. *)
Lemma send_ends_with_next fuel from c cnt :
  NS_CLIENT_VALID c = true ->
  pool_empty env cnt = false \/ nsends c <= 0 ->
  exists c1 r cnt1 pre,
    let x := ns_client_next env fuel F_send c1 r cnt1 in
    ns_client_send env fuel from c cnt
    = (outcome_of x, counters_of x, pre ++ events_of x)
    /\ count_events (is_next_from F_send) pre = O.
Proof.
  intros Hvalid Hcase.
  unfold ns_client_send, pool_empty, bind, INSIST, REQUIRE, emit, ret, ask,
    alloc in *.
  rewrite Hvalid. run.
  all: try (destruct Hcase; [congruence | lia]).
  all: match goal with
       | H : ns_client_next _ _ F_send ?c1 ?r1 ?cnt1 = _ |- _ =>
           exists c1, r1, cnt1; rewrite H
       end.
  all: cbn; rewrite ?app_nil_r.
  all: eexists; split;
       [ match goal with
         | |- (_, _, ?l) = (_, _, ?pre ++ ?t) =>
             let rec go l acc :=
               lazymatch l with
               | t => unify pre acc
               | ?e :: ?l' => go l' (acc ++ [e])
               end in
             go l (@nil event)
         end; cbn; reflexivity
       | reflexivity ].
Qed.


(** C4.  When send() finds the buffer pool empty it renders and transmits
    nothing.  With a send outstanding (nsends > 0) a working client becomes
    waiting and send() returns at once; the senddone handler run on that
    waiting client returns the buffer, sets the state back to working and
    calls send() again.  With no send outstanding the request is finalized
    with next(ISC_R_NOMEMORY). *)
Theorem send_pool_empty fuel from c cnt :
  (2 <= fuel)%nat ->
  NS_CLIENT_VALID c = true ->
  pool_empty env cnt = true ->
  let x := ns_client_send env fuel from c cnt in
  count_events is_render (events_of x) = O
  /\ count_events is_sendto (events_of x) = O
  /\ (0 < nsends c -> state c = ns_clientstate_working ->
      x = (Ok (set_state c ns_clientstate_waiting), bump X_mempool_get cnt,
           [Call_send from; Ev_mempool_get false])
      /\ forall cnt',
          let w := set_state c ns_clientstate_waiting in
          let y := ns_client_send env fuel F_senddone
                     (set_state (set_nsends w (nsends w - 1))
                        ns_clientstate_working) cnt' in
          client_senddone env fuel w cnt'
          = (outcome_of y, counters_of y, Ev_mempool_put :: events_of y))
  /\ (nsends c <= 0 ->
      let y := ns_client_next env fuel F_send c ISC_R_NOMEMORY
                 (bump X_mempool_get cnt) in
      x = (outcome_of y, counters_of y,
           Call_send from :: Ev_mempool_get false :: events_of y)).
Proof.
  intros Hfuel Hvalid Hpool x.
  assert (Hcount : forall p,
            (forall e, next_tail_event e = true -> p e = false) ->
            (forall f r, p (Call_next f r) = false) ->
            p (Call_send from) = false -> p (Ev_mempool_get false) = false ->
            count_events p (events_of x) = O).
  { intros p Htail Hnext Hsend Hget. subst x.
    unfold ns_client_send, pool_empty, bind, INSIST, REQUIRE, emit, ret, ask,
      alloc in *.
    rewrite Hvalid, Hpool. run.
    all: try congruence.
    match goal with
    | |- length (filter ?p ?l) = _ => fold (count_events p l)
    end.
    use_next Hfuel. rewrite count_events_cons, Hnext.
    now apply (count_events_none _ _ _ Q). }
  split; [|split; [|split]].
  - apply Hcount; auto using next_tail_not_render.
  - apply Hcount; auto using next_tail_not_sendto.
  - intros Hn Hs. apply Z.ltb_lt in Hn. split.
    + subst x. unfold ns_client_send, pool_empty, bind, INSIST, REQUIRE, emit,
        ret, ask, alloc in *.
      rewrite Hvalid, Hpool, Hn, Hs. reflexivity.
    + intros cnt'. cbn zeta.
      unfold client_senddone, bind, INSIST, REQUIRE, emit, ret.
      change (NS_CLIENT_VALID (set_state c ns_clientstate_waiting))
        with (NS_CLIENT_VALID c).
      change (nsends (set_state c ns_clientstate_waiting)) with (nsends c).
      rewrite Hvalid, Hn. cbn.
      match goal with
      | |- context [ns_client_send ?e ?f ?g ?a ?k] =>
          destruct (ns_client_send e f g a k) as [[? ?] ?]
      end.
      reflexivity.
  - intros Hn. apply Z.ltb_ge in Hn. subst x.
    unfold ns_client_send, pool_empty, bind, INSIST, REQUIRE, emit, ret, ask,
      alloc in *.
    rewrite Hvalid, Hpool, Hn. cbn.
    match goal with
    | |- context [ns_client_next ?e ?f ?g ?a ?r ?k] =>
        destruct (ns_client_next e f g a r k) as [[? ?] ?]
    end.
    reflexivity.
Qed.

Lemma send_render_prefix fuel from c cnt :
  (2 <= fuel)%nat ->
  exists n,
    render_steps (events_of (ns_client_send env fuel from c cnt))
    = firstn n render_order.
Proof.
  intros Hfuel.
  unfold ns_client_send, bind, INSIST, REQUIRE, emit, ret, ask, alloc.
  run.
  all: try (exists O; reflexivity).
  all: use_next Hfuel; cbn; rewrite (render_steps_next_tail _ Q).
  all: first [ exists 0%nat; reflexivity | exists 1%nat; reflexivity
             | exists 2%nat; reflexivity | exists 3%nat; reflexivity
             | exists 4%nat; reflexivity | exists 5%nat; reflexivity
             | exists 6%nat; reflexivity ].
Qed.

Lemma send_nospace_tolerated fuel from c cnt :
  (2 <= fuel)%nat ->
  NS_CLIENT_VALID c = true ->
  pool_empty env cnt = false ->
  answer env cnt X_renderbegin = ISC_R_SUCCESS ->
  answer env cnt (X_rendersection DNS_SECTION_QUESTION) = ISC_R_SUCCESS ->
  answer env cnt (X_rendersection DNS_SECTION_ANSWER) = ISC_R_SUCCESS ->
  answer env cnt (X_rendersection DNS_SECTION_AUTHORITY) = ISC_R_SUCCESS ->
  answer env cnt (X_rendersection DNS_SECTION_ADDITIONAL) = ISC_R_NOSPACE ->
  let evs := events_of (ns_client_send env fuel from c cnt) in
  render_steps evs = render_order
  /\ (answer env cnt X_renderend = ISC_R_SUCCESS ->
      count_events is_sendto evs = 1%nat
      /\ (answer env cnt X_sendto = ISC_R_SUCCESS ->
          count_events is_mempool_put evs = O)).
Proof.
  intros Hfuel Hvalid Hpool Hb Hq Ha Hu Hd.
  unfold ns_client_send, pool_empty, answer, bind, INSIST, REQUIRE, emit, ret,
    ask, alloc in *.
  rewrite Hvalid, Hpool. cbn. rewrite Hb. cbn. rewrite Hq. cbn.
  rewrite Ha. cbn. rewrite Hu. cbn. rewrite Hd. cbn.
  run.
  all: use_next Hfuel; cbn; rewrite (render_steps_next_tail _ Q).
  all: split; [reflexivity|intros He; use_answers].
  all: fold_counts;
       rewrite (count_events_none _ _ _ Q next_tail_not_sendto).
  all: split; [reflexivity|intros Hs; use_answers].
  all: apply (count_events_none _ _ _ Q).
  all: intros e; destruct e; simpl; congruence.
Qed.

Lemma send_render_error fuel from c cnt pre s post :
  (2 <= fuel)%nat ->
  NS_CLIENT_VALID c = true ->
  pool_empty env cnt = false ->
  render_order = pre ++ s :: post ->
  forallb (fun t => tolerated t (answer env cnt (render_call t))) pre = true ->
  tolerated s (answer env cnt (render_call s)) = false ->
  let x := ns_client_send env fuel from c cnt in
  render_steps (events_of x) = pre ++ [s]
  /\ count_events is_sendto (events_of x) = O
  /\ exists before c1 cnt1,
       let y := ns_client_next env fuel F_send c1
                  (answer env cnt (render_call s)) cnt1 in
       x = (outcome_of y, counters_of y,
            before ++ Ev_mempool_put :: events_of y).
Proof.
  intros Hfuel Hvalid Hpool Hsplit Hpre Hs x.
  unfold render_order in Hsplit.
  destruct pre as [|p0 [|p1 [|p2 [|p3 [|p4 [|p5 pre]]]]]];
    cbn in Hsplit; injection Hsplit as <-; intros; subst;
    try (destruct pre; discriminate).
  all: subst x.
  all: unfold ns_client_send, pool_empty, answer, tolerated, bind, INSIST,
         REQUIRE, emit, ret, ask, alloc in *;
       rewrite Hvalid, Hpool; cbn in Hpre, Hs |- *;
       revert Hpre Hs; run; intros; try discriminate.
  all: split; [|split].
  all: try (use_next Hfuel; cbn; rewrite ?app_nil_r;
            rewrite (render_steps_next_tail _ Q); reflexivity).
  all: try (use_next Hfuel; cbn; rewrite ?app_nil_r; fold_counts;
            apply (count_events_none _ _ _ Q next_tail_not_sendto)).
  all: match goal with
       | H : ns_client_next _ _ F_send ?c1 ?r1 ?cnt1 = _ |- _ =>
           eexists; exists c1, cnt1; cbn; rewrite H
       end.
  all: cbn; rewrite ?app_nil_r.
  all: match goal with
       | |- (_, _, ?l) = (_, _, ?pre ++ Ev_mempool_put :: ?t) =>
           let rec go l acc :=
             lazymatch l with
             | Ev_mempool_put :: t => unify pre acc
             | ?e :: ?l' => go l' (acc ++ [e])
             end in
           go l (@nil event)
       end; cbn; reflexivity.
Qed.

(** C6.  Once it has a buffer, send() calls the renderer in the order
    begin, Question, Answer, Authority, Additional, end, stopping at the
    first call that is not tolerated.  ISC_R_NOSPACE from the Additional
    section is tolerated: rendering goes on to render-end and, if that
    succeeds, the message is handed to the socket.  Any other render error
    stops the rendering there: nothing is transmitted, the buffer is put
    back in the pool and the request is finalized with next(that error),
    which is the last thing send() does. *)
Theorem send_renders_in_order fuel from c cnt :
  (2 <= fuel)%nat ->
  NS_CLIENT_VALID c = true ->
  pool_empty env cnt = false ->
  let x := ns_client_send env fuel from c cnt in
  (exists n, render_steps (events_of x) = firstn n render_order)
  /\ (answer env cnt X_renderbegin = ISC_R_SUCCESS ->
      answer env cnt (X_rendersection DNS_SECTION_QUESTION) = ISC_R_SUCCESS ->
      answer env cnt (X_rendersection DNS_SECTION_ANSWER) = ISC_R_SUCCESS ->
      answer env cnt (X_rendersection DNS_SECTION_AUTHORITY) = ISC_R_SUCCESS ->
      answer env cnt (X_rendersection DNS_SECTION_ADDITIONAL) = ISC_R_NOSPACE ->
      render_steps (events_of x) = render_order
      /\ (answer env cnt X_renderend = ISC_R_SUCCESS ->
          count_events is_sendto (events_of x) = 1%nat
          /\ (answer env cnt X_sendto = ISC_R_SUCCESS ->
              count_events is_mempool_put (events_of x) = O)))
  /\ (forall pre s post,
      render_order = pre ++ s :: post ->
      forallb (fun t => tolerated t (answer env cnt (render_call t))) pre
      = true ->
      tolerated s (answer env cnt (render_call s)) = false ->
      render_steps (events_of x) = pre ++ [s]
      /\ count_events is_sendto (events_of x) = O
      /\ exists before c1 cnt1,
           let y := ns_client_next env fuel F_send c1
                      (answer env cnt (render_call s)) cnt1 in
           x = (outcome_of y, counters_of y,
                before ++ Ev_mempool_put :: events_of y)).
Proof.
  intros Hfuel Hvalid Hpool x. split; [|split].
  - now apply send_render_prefix.
  - intros. now apply send_nospace_tolerated.
  - intros pre s post Hsplit Hpre Hs.
    exact (send_render_error fuel from c cnt pre s post
             Hfuel Hvalid Hpool Hsplit Hpre Hs).
Qed.

Lemma send_summarized fuel from c cnt :
  (2 <= fuel)%nat ->
  send_summary from c (ns_client_send env fuel from c cnt).
Proof.
  intros Hfuel.
  unfold ns_client_send, bind, INSIST, REQUIRE, emit, ret, ask, alloc.
  run.
  all: try (use_next Hfuel).
  all: split; cbn; rewrite ?app_nil_r.
  all: try discriminate.
  all: try congruence.
  all: try (eexists; split; [reflexivity|]; cbn; try reflexivity;
            revert Q; apply forallb_impl, next_tail_is_send_tail).
  all: try (intros V W; try discriminate;
            match goal with
            | R : _ -> _ -> exists c', _ = Ok c' |- _ =>
                apply R; [exact V | apply may_finalize_iff; right; exact W]
            end).
  all: try (intros V W; rewrite W in *; discriminate).
  all: try (intros; eexists; reflexivity).
  1: { intros ? [= <-]; unfold waiting_has_send; cbn.
       split; [lia|reflexivity]. }
  all: intros c' Ho; destruct (A c' Ho) as (A0 & A1 & A2); cbn in *;
       split; [intros W; congruence | congruence].
Qed.

End SendFacts.

(** ** ns_client_error and the opcode switch *)

Lemma clear_QR_cleared m :
  Z.land (flags (clear_QR m)) DNS_MESSAGEFLAG_QR = 0.
Proof.
  unfold clear_QR. cbn [flags set_flags].
  rewrite <- Z.land_assoc.
  replace (Z.land (Z.lnot DNS_MESSAGEFLAG_QR) DNS_MESSAGEFLAG_QR) with 0
    by reflexivity.
  apply Z.land_0_r.
Qed.

Lemma send_tail_is_error_tail e :
  send_tail_event e = true -> error_tail_event e = true.
Proof. destruct e; simpl; try congruence; destruct from; congruence. Qed.

Lemma error_tail_not_from_request e :
  error_tail_event e = true -> is_finalize_from F_request e = false.
Proof. destruct e; simpl; try congruence; destruct from; simpl; congruence. Qed.

Lemma send_tail_not_finalize f e :
  f <> F_read -> f <> F_send ->
  send_tail_event e = true -> is_finalize_from f e = false.
Proof.
  intros H1 H2. destruct e; simpl; try congruence;
    destruct from, f; simpl; congruence.
Qed.

(** Replace the result of a call to ns_client_send by its summary. *)
Ltac use_send Hfuel :=
  match goal with
  | H : ns_client_send ?env ?fuel ?f ?c ?cnt = _ |- _ =>
      let S := fresh "S" in
      assert (S := send_summarized env fuel f c cnt Hfuel); rewrite H in S;
      destruct S as [[?tail [?E ?Q]] ?F ?R ?A]; cbn in *; subst
  end.

(** Give one name to the calls to ns_client_send (ns_client_next) that the
    goal mentions, which are the same call up to computation. *)
Ltac name_send y :=
  match goal with
  | |- context [ns_client_send ?e ?f ?g ?a ?k] =>
      set (y := ns_client_send e f g a k)
  end;
  repeat match goal with
         | |- context [ns_client_send ?e ?f ?g ?a ?k] =>
             change (ns_client_send e f g a k) with y
         end.

Ltac name_next y :=
  match goal with
  | |- context [ns_client_next ?e ?f ?g ?a ?r ?k] =>
      set (y := ns_client_next e f g a r k)
  end;
  repeat match goal with
         | |- context [ns_client_next ?e ?f ?g ?a ?r ?k] =>
             change (ns_client_next e f g a r k) with y
         end.

Section ErrorFacts.

Variable env : Env.

Lemma error_summarized fuel from c r cnt :
  (2 <= fuel)%nat ->
  error_summary from r c (ns_client_error env fuel from c r cnt).
Proof.
  intros Hfuel.
  unfold ns_client_error, bind, INSIST, REQUIRE, emit, ret, ask, alloc.
  run.
  all: try (use_send Hfuel).
  all: try (use_next Hfuel).
  all: split; cbn; rewrite ?app_nil_r.
  all: try discriminate.
  all: try congruence.
  all: try (eexists; split; [reflexivity|]; cbn; try reflexivity;
            revert Q; apply forallb_impl; intros e He;
            auto using send_tail_is_error_tail, next_tail_is_send_tail).
  all: try (intros V W; apply R; [exact V | exact W]).
  all: try (intros V W; apply R;
            [exact V | apply may_finalize_iff; right; exact W]).
  all: try (intros; eexists; reflexivity).
  all: intros c' Ho.
  all: try (destruct (A c' Ho) as (A0 & A1); cbn in *; split; assumption).
  all: destruct (A c' Ho) as (A0 & A1 & A2); cbn in *;
       split; [intros W; congruence | congruence].
Qed.

(** C5.  error(result) clears QR in the message, then asks the codec for
    a reply that keeps the question section; if that fails it asks again
    for a reply without the question section.  If either attempt succeeds
    the rcode of the message is set to the rcode result maps to and send()
    is called on it; if both fail the request is finalized with next (with
    the result of the second attempt) and nothing is rendered or sent. *)
Theorem error_replies_or_gives_up fuel from c result cnt :
  (2 <= fuel)%nat ->
  NS_CLIENT_VALID c = true ->
  let x := ns_client_error env fuel from c result cnt in
  let m0 := clear_QR (message c) in
  let r1 := result_of env X_reply (cnt X_reply) in
  let m1 := reply_effect env m0 true r1 in
  let r2 := result_of env X_reply (S (cnt X_reply)) in
  let m2 := reply_effect env m1 false r2 in
  let answered m :=
    set_message c (set_rcode m (dns_result_torcode env result)) in
  Z.land (flags m0) DNS_MESSAGEFLAG_QR = 0
  /\ (r1 = ISC_R_SUCCESS ->
      let y := ns_client_send env fuel F_error (answered m1)
                 (bump X_reply cnt) in
      x = (outcome_of y, counters_of y,
           Call_error from result :: Ev_reply m0 true r1 :: events_of y))
  /\ (r1 <> ISC_R_SUCCESS -> r2 = ISC_R_SUCCESS ->
      let y := ns_client_send env fuel F_error (answered m2)
                 (bump X_reply (bump X_reply cnt)) in
      x = (outcome_of y, counters_of y,
           Call_error from result :: Ev_reply m0 true r1
           :: Ev_reply m1 false r2 :: events_of y))
  /\ (r1 <> ISC_R_SUCCESS -> r2 <> ISC_R_SUCCESS ->
      let y := ns_client_next env fuel F_error (set_message c m2) r2
                 (bump X_reply (bump X_reply cnt)) in
      x = (outcome_of y, counters_of y,
           Call_error from result :: Ev_reply m0 true r1
           :: Ev_reply m1 false r2 :: events_of y)
      /\ count_events is_send_call (events_of x) = O
      /\ count_events is_render (events_of x) = O
      /\ count_events is_sendto (events_of x) = O).
Proof.
  intros Hfuel Hvalid x m0 r1 m1 r2 m2 answered.
  split; [apply clear_QR_cleared|].
  split; [|split]; [intros H1 y | intros H1 H2 y | intros H1 H2 y];
    subst x y;
    unfold ns_client_error, bind, INSIST, REQUIRE, emit, ret, ask;
    rewrite Hvalid; cbn; fold m0; fold r1; fold m1.
  - apply is_success_true in H1. rewrite H1. cbn. name_send y.
    clearbody y. destruct y as [[? ?] ?]. reflexivity.
  - apply is_success_false in H1. apply is_success_true in H2.
    rewrite H1. cbn. fold r2. rewrite H2. cbn. name_send y.
    clearbody y. destruct y as [[? ?] ?]. reflexivity.
  - apply is_success_false in H1, H2. rewrite H1. cbn.
    fold r2. rewrite H2. cbn. fold m2. name_next y.
    destruct y as [[o k] l] eqn:Hnext. subst y.
    split; [reflexivity|].
    use_next Hfuel. cbn. fold_counts.
    rewrite (count_events_none _ _ _ Q next_tail_not_send_call),
      (count_events_none _ _ _ Q next_tail_not_render),
      (count_events_none _ _ _ Q next_tail_not_sendto).
    auto.
Qed.

End ErrorFacts.

(** Replace the result of a call to ns_client_error by its summary. *)
Ltac use_error Hfuel :=
  match goal with
  | H : ns_client_error ?env ?fuel ?f ?c ?r ?cnt = _ |- _ =>
      let S := fresh "S" in
      assert (S := error_summarized env fuel f c r cnt Hfuel); rewrite H in S;
      destruct S as [[?tail [?E ?Q]] ?F ?R ?A]; cbn in *; subst; clear H
  end.

Section DispatchFacts.

Variable env : Env.

(** C1 (the defect).  An inverse query that reaches the opcode switch
    is finalized twice by client_request: error(DNS_R_REFUSED) is called,
    returns, and error(DNS_R_NOTIMP) is called for the same request. *)
Theorem iquery_is_finalized_twice fuel c cnt :
  (2 <= fuel)%nat ->
  NS_CLIENT_VALID c = true ->
  state c = ns_clientstate_working ->
  opcode (message c) = dns_opcode_iquery ->
  filter (is_finalize_from F_request)
    (events_of (client_request_dispatch env fuel c cnt))
  = [Call_error F_request DNS_R_REFUSED; Call_error F_request DNS_R_NOTIMP].
Proof.
  intros Hfuel Hvalid Hstate Hop.
  unfold client_request_dispatch. rewrite Hop. unfold bind.
  destruct (ns_client_error env fuel F_request c DNS_R_REFUSED cnt)
    as [[o1 k1] l1] eqn:H1.
  pose proof (error_summarized env fuel F_request c DNS_R_REFUSED cnt Hfuel)
    as S1.
  rewrite H1 in S1. destruct S1 as [[t1 [E1 Q1]] F1 R1 A1]. cbn in *.
  destruct (R1 Hvalid Hstate) as [c1 ->]. subst l1.
  destruct (ns_client_error env fuel F_request c1 DNS_R_NOTIMP k1)
    as [[o2 k2] l2] eqn:H2.
  pose proof (error_summarized env fuel F_request c1 DNS_R_NOTIMP k1 Hfuel)
    as S2.
  rewrite H2 in S2. destruct S2 as [[t2 [E2 Q2]] F2 R2 A2]. cbn in *.
  subst l2. cbn. rewrite filter_app. cbn.
  rewrite (filter_none _ _ _ Q1 error_tail_not_from_request),
    (filter_none _ _ _ Q2 error_tail_not_from_request).
  reflexivity.
Qed.

(** The other opcodes the switch handles itself are finalized once. *)
Lemma notify_is_finalized_once fuel c cnt :
  (2 <= fuel)%nat ->
  opcode (message c) = dns_opcode_notify ->
  filter (is_finalize_from F_request)
    (events_of (client_request_dispatch env fuel c cnt))
  = [Call_next F_request DNS_R_SUCCESS].
Proof.
  intros Hfuel Hop.
  unfold client_request_dispatch. rewrite Hop. unfold bind, emit.
  destruct (ns_client_next env fuel F_request c DNS_R_SUCCESS cnt)
    as [[o1 k1] l1] eqn:H1.
  use_next Hfuel. cbn.
  rewrite (filter_none _ _ _ Q (next_tail_not_finalize F_request ltac:(discriminate))).
  reflexivity.
Qed.

Lemma unknown_opcode_is_finalized_once fuel c cnt :
  (2 <= fuel)%nat ->
  opcode (message c) = dns_opcode_status
  \/ (exists n, opcode (message c) = dns_opcode_reserved n) ->
  filter (is_finalize_from F_request)
    (events_of (client_request_dispatch env fuel c cnt))
  = [Call_error F_request DNS_R_NOTIMP].
Proof.
  intros Hfuel Hop.
  unfold client_request_dispatch.
  destruct Hop as [-> | [n ->]].
  all: destruct (ns_client_error env fuel F_request c DNS_R_NOTIMP cnt)
         as [[o1 k1] l1] eqn:H1;
       pose proof (error_summarized env fuel F_request c DNS_R_NOTIMP cnt
                     Hfuel) as S1;
       rewrite H1 in S1; destruct S1 as [[t1 [E1 Q1]] F1 R1 A1]; cbn in *;
       subst l1; cbn;
       now rewrite (filter_none _ _ _ Q1 error_tail_not_from_request).
Qed.

End DispatchFacts.

(** C2 (the defect, on a run).  A listening UDP client receives an inverse
    query of class IN from peer 42 while every library call succeeds:
    error() is called with REFUSED and then with NOTIMP; two replies are
    rendered, the first with rcode 5 (REFUSED) and the second with rcode 4
    (NOTIMP); both are handed to the socket, the second after the dispatch
    event that held the peer address has been given back. *)
Theorem iquery_reply_refused_then_notimp :
  let evs :=
    events_of (client_request Scenario.env_ok 2
                 (DNS_EVENT_DISPATCH Scenario.iquery_datagram)
                 Scenario.udp_client no_calls) in
  error_calls evs = [DNS_R_REFUSED; DNS_R_NOTIMP]
  /\ rendered_rcodes evs = [5; 4]
  /\ filter is_sendto evs
     = [Ev_sendto (To_udp (Some 42)) ISC_R_SUCCESS;
        Ev_sendto (To_udp None) ISC_R_SUCCESS].
Proof. vm_compute. repeat split. Qed.

(** ** client_read *)

Section ReadFacts.

Variable env : Env.

Lemma read_sets_reading fuel c cnt c' :
  outcome_of (client_read env fuel c cnt) = Ok c' ->
  state c' = ns_clientstate_reading.
Proof.
  unfold client_read, client_read_with, bind, ask, ret.
  run; intros [= <-]; reflexivity.
Qed.

(** C10.  Whenever client_read returns, the state of the client is
    reading.  When registering the read succeeds nothing else happens.
    When it fails with result r, ns_client_next(client, r) is run first
    (it returns whenever the client is valid and listening or working),
    then the state it left is overwritten with reading; the failed
    registration is the only read that was attempted, so the client is
    reading with no read outstanding. *)
Theorem read_leaves_reading fuel c cnt :
  (1 <= fuel)%nat ->
  let x := client_read env fuel c cnt in
  let r := answer env cnt X_readmessage in
  (forall c', outcome_of x = Ok c' -> state c' = ns_clientstate_reading)
  /\ (r = ISC_R_SUCCESS ->
      x = (Ok (set_state c ns_clientstate_reading), bump X_readmessage cnt,
           [Ev_readmessage ISC_R_SUCCESS]))
  /\ (r <> ISC_R_SUCCESS ->
      let y := ns_client_next env fuel F_read c r (bump X_readmessage cnt) in
      events_of x = Ev_readmessage r :: events_of y
      /\ count_events is_readmessage (events_of x) = 1%nat
      /\ (NS_CLIENT_VALID c = true -> may_finalize c = true ->
          exists c1,
            outcome_of y = Ok c1
            /\ outcome_of x = Ok (set_state c1 ns_clientstate_reading))).
Proof.
  intros Hfuel x r. split; [|split].
  - intros c'. apply read_sets_reading.
  - intros Hr. subst x r.
    unfold client_read, client_read_with, answer, bind, ask, ret in *.
    rewrite Hr. reflexivity.
  - intros Hr y. apply is_success_false in Hr.
    destruct fuel as [|fuel]; [lia|].
    pose proof (next_failed env fuel F_read c r (bump X_readmessage cnt) Hr)
      as [[tail [E Q]] F R A].
    fold y in E, F, R, A.
    subst x. unfold client_read, client_read_with, bind, ask, ret.
    fold (answer env cnt X_readmessage). fold r. rewrite Hr. cbn [negb].
    fold y. clearbody y. destruct y as [[o k] l]. cbn in *. subst l.
    assert (Hq : forall e, quiet_event e = true -> is_readmessage e = false)
      by (intros e; destruct e; simpl; congruence).
    destruct o; cbn; rewrite ?app_nil_r.
    all: split; [reflexivity|split].
    all: try (fold_counts; now rewrite (count_events_none _ _ _ Q Hq)).
    all: intros V W; destruct (R V W) as [c1 Hc1]; try discriminate.
    exists c1. split; congruence.
Qed.

End ReadFacts.

(** ** The client between events *)

(** Conclude from the summary of the last call made. *)
Ltac conclude_keeps :=
  match goal with
  | A : _ |- waiting_has_send ?c =>
      first [ exact (proj1 (A c eq_refl))
            | exact (not_waiting_has_send c (proj1 (A c eq_refl))) ]
  | A : _, Ho : _ = Ok ?c |- waiting_has_send ?c =>
      first [ exact (proj1 (A c Ho))
            | exact (not_waiting_has_send c (proj1 (A c Ho))) ]
  end.

Section Events.

Variable env : Env.

Hypothesis query_keeps : handler_keeps (ns_query_start env).

Hypothesis update_keeps : handler_keeps (ns_update_start env).

Lemma dispatch_keeps fuel c cnt c' :
  (2 <= fuel)%nat ->
  state c = ns_clientstate_working ->
  outcome_of (client_request_dispatch env fuel c cnt) = Ok c' ->
  waiting_has_send c'.
Proof.
  intros Hfuel Hs.
  unfold client_request_dispatch, bind, emit.
  destruct (opcode (message c)).
  1: apply query_keeps; now apply working_has_send.
  4: apply update_keeps; now apply working_has_send.
  all: run; intros Ho; try discriminate; repeat use_error Hfuel;
       try use_next Hfuel; try (injection Ho as <-).
  all: try conclude_keeps.
  all: exact (proj1 (es_after _ _ _ _ (error_summarized _ _ _ _ _ _ Hfuel)
                       _ Ho)).
Qed.

Lemma request_keeps fuel ev c cnt c' :
  (2 <= fuel)%nat ->
  outcome_of (client_request env fuel ev c cnt) = Ok c' ->
  waiting_has_send c'.
Proof.
  intros Hfuel.
  unfold client_request, bind, INSIST, REQUIRE, emit, ret, ask.
  destruct ev; run; intros Ho; try discriminate.
  all: try (injection Ho as <-).
  all: try (apply working_has_send; reflexivity).
  all: try match goal with
           | H : client_request_dispatch _ _ ?a ?k = (_, _, _) |- _ =>
               apply (dispatch_keeps fuel a k); [assumption|reflexivity|];
               rewrite H; first [reflexivity | assumption]
           end.
  all: try use_error Hfuel; try use_next Hfuel; try conclude_keeps.
Qed.

Lemma senddone_keeps fuel c cnt c' :
  (2 <= fuel)%nat ->
  waiting_has_send c ->
  outcome_of (client_senddone env fuel c cnt) = Ok c' ->
  waiting_has_send c'.
Proof.
  intros Hfuel Hinv.
  unfold client_senddone, bind, INSIST, REQUIRE, emit, ret.
  run; intros Ho; try discriminate.
  - use_send Hfuel. conclude_keeps.
  - injection Ho as <-. apply not_waiting_has_send. cbn.
    intros W. rewrite W in *. discriminate.
Qed.

(** The senddone handler leaves a client that was waiting either in
    another state or with a send still outstanding. *)
Lemma senddone_on_waiting fuel c cnt c' :
  (2 <= fuel)%nat ->
  state c = ns_clientstate_waiting ->
  outcome_of (client_senddone env fuel c cnt) = Ok c' ->
  state c' <> ns_clientstate_waiting \/ 0 < nsends c'.
Proof.
  intros Hfuel Hw Ho.
  assert (H : waiting_has_send c').
  { revert Ho. unfold client_senddone, bind, INSIST, REQUIRE, emit, ret.
    run; intros Ho; try discriminate.
    - use_send Hfuel. conclude_keeps.
    - cbn in *. rewrite Hw in *. discriminate. }
  destruct (state c') eqn:Hs;
    try (left; discriminate).
  right. now apply H.
Qed.

Lemma handle_keeps fuel e c cnt c' :
  (2 <= fuel)%nat ->
  waiting_has_send c ->
  outcome_of (handle env fuel e c cnt) = Ok c' ->
  waiting_has_send c'.
Proof.
  intros Hfuel Hinv. destruct e; cbn [handle]; intros Ho.
  - now apply request_keeps in Ho.
  - now apply request_keeps in Ho.
  - now apply senddone_keeps in Ho.
  - revert Ho. unfold client_timeout, bind, REQUIRE.
    run; intros Ho; try discriminate. use_next Hfuel. conclude_keeps.
  - revert Ho. unfold client_newconn, bind, REQUIRE, emit, ret.
    run; intros Ho; try discriminate.
    + apply not_waiting_has_send.
      match goal with
      | H : client_read _ _ ?a ?k = _ |- _ =>
          assert (Hr := read_sets_reading env fuel a k c');
          rewrite H in Hr; rewrite (Hr Ho)
      end.
      discriminate.
    + injection Ho as <-. apply not_waiting_has_send. discriminate.
  - exact (proj1 (ss_after _ _ _ (send_summarized _ _ _ _ _ Hfuel) _ Ho)).
  - exact (proj1 (es_after _ _ _ _ (error_summarized _ _ _ _ _ _ Hfuel)
                    _ Ho)).
  - apply not_waiting_has_send.
    exact (proj1 (ns_after _ _ _ _ _ (next_ok _ _ _ _ _ _ Hfuel) _ Ho)).
Qed.


End Events.

(** ** The client manager *)

Section ManagerFacts.

Variable env : Env.

Lemma client_create_returns m type cnt :
  exists cr,
    outcome_of (client_create env m type cnt) = Ok cr
    /\ (forall r, cr = Not_created r -> r <> ISC_R_SUCCESS)
    /\ (forall c, cr = Created c ->
          NS_CLIENT_VALID c = true /\ state c = ns_clientstate_idle).
Proof.
  unfold client_create, bind, emit, ret, ask, alloc.
  run.
  all: eexists; split; [reflexivity|]; split; intros ? [= <-];
       try (split; reflexivity); try discriminate.
  all: apply is_success_false; assumption.
Qed.

Lemma client_free_returns c cnt :
  outcome_of (client_free c cnt) = Ok tt.
Proof. unfold client_free, bind, emit, ret. run; reflexivity. Qed.

Lemma client_accept_returns c cnt :
  exists c', outcome_of (client_accept env c cnt) = Ok c'
             /\ self c' = self c.
Proof.
  unfold client_accept, bind, ret, ask.
  run; eexists; split; reflexivity.
Qed.

Lemma addtodispatch_loop_returns dispatch todo :
  forall result i s cnt,
  exists res s' new,
    outcome_of (addtodispatch_loop env todo result i dispatch s cnt)
    = Ok (res, i + Z.of_nat (length new), s')
    /\ clients (manager s') = clients (manager s) ++ new
    /\ mgr_magic (manager s') = mgr_magic (manager s)
    /\ (length new <= todo)%nat
    /\ (new = [] ->
        (todo = O /\ res = result)
        \/ (todo <> O /\ res <> ISC_R_SUCCESS
            /\ first_dispatch_client_fails env s cnt res)).
Proof.
  induction todo as [|todo IH]; intros result i s cnt.
  - exists result, s, []. cbn. rewrite Z.add_0_r, app_nil_r.
    repeat split; auto.
  - cbn [addtodispatch_loop]. unfold first_dispatch_client_fails, bind.
    destruct (client_create_returns (manager s) ns_clienttype_basic cnt)
      as (cr & Hcr & Hfail & Hmade).
    destruct (client_create env (manager s) ns_clienttype_basic cnt)
      as [[o k] l]. cbn in Hcr. subst o. cbn [counters_of outcome_of fst snd].
    destruct cr as [client | r].
    + unfold emit, ask, ret. cbn.
      destruct (is_success (result_of env X_addrequest (k X_addrequest)))
        eqn:Hadd; cbn.
      * match goal with
        | |- context [addtodispatch_loop env todo ?r ?j dispatch ?t ?c] =>
            destruct (IH r j t c) as (res & s' & new & Ho & Hc & Hm & Hl & _);
            destruct (addtodispatch_loop env todo r j dispatch t c)
              as [[o2 k2] l2]
        end.
        cbn in Ho. subst o2. cbn in Hc, Hm.
        exists res, s', (self client :: new). cbn [length].
        rewrite Hc, <- app_assoc. cbn.
        replace (i + Z.pos (Pos.of_succ_nat (length new)))
          with (i + 1 + Z.of_nat (length new)) by lia.
        repeat split; try lia; try congruence.
      * unfold client_free, bind, emit, ret. run.
        all: exists (result_of env X_addrequest (k X_addrequest)), s, [];
             cbn; rewrite Z.add_0_r, app_nil_r;
             repeat split; auto; try lia;
             intros _; right;
             repeat split; try lia; [now apply is_success_false|];
             right; exists client; split; reflexivity.
    + exists r, s, []. cbn. rewrite Z.add_0_r, app_nil_r.
      repeat split; auto; try lia.
      all: try (intros _; right; repeat split; eauto).
Qed.

Lemma accepttcp_loop_returns socket todo :
  forall result i s cnt,
  exists res s' new,
    outcome_of (accepttcp_loop env todo result i socket s cnt)
    = Ok (res, i + Z.of_nat (length new), s')
    /\ clients (manager s') = clients (manager s) ++ new
    /\ mgr_magic (manager s') = mgr_magic (manager s)
    /\ (length new <= todo)%nat
    /\ (new = [] ->
        (todo = O /\ res = result)
        \/ (todo <> O /\ res <> ISC_R_SUCCESS
            /\ first_tcp_client_fails env s cnt res)).
Proof.
  induction todo as [|todo IH]; intros result i s cnt.
  - exists result, s, []. cbn. rewrite Z.add_0_r, app_nil_r.
    repeat split; auto.
  - cbn [accepttcp_loop]. unfold first_tcp_client_fails, bind.
    destruct (client_create_returns (manager s) ns_clienttype_tcp cnt)
      as (cr & Hcr & Hfail & Hmade).
    destruct (client_create env (manager s) ns_clienttype_tcp cnt)
      as [[o k] l]. cbn in Hcr. subst o. cbn [counters_of outcome_of fst snd].
    destruct cr as [client | r].
    + unfold emit, client_accept, bind, ask, ret. cbn.
      destruct (is_success (result_of env X_accept (k X_accept))); cbn.
      all: match goal with
           | |- context [accepttcp_loop env ?n ?r ?j ?sk ?t ?c] =>
               destruct (IH r j t c)
                 as (res & s' & new & Ho & Hc & Hm & Hl & _);
               destruct (accepttcp_loop env n r j sk t c)
                 as [[o2 k2] l2]
           end.
      all: cbn in Ho; subst o2; cbn in Hc, Hm;
           exists res, s', (self client :: new); cbn [length];
           rewrite Hc, <- app_assoc; cbn;
           replace (i + Z.pos (Pos.of_succ_nat (length new)))
             with (i + 1 + Z.of_nat (length new)) by lia;
           repeat split; try lia; try congruence.
    + exists r, s, []. cbn. rewrite Z.add_0_r, app_nil_r.
      repeat split; auto; try lia.
      all: try (intros _; right; repeat split; eauto).
Qed.

(** C9.  add_to_dispatch(n, dispatch) and accept_tcp(n, listener), called
    with n > 0 on a valid manager, return; they append to the manager's
    list the clients they created and registered, at most n of them; they
    return ISC_R_SUCCESS whenever that is at least one client, however
    many were asked for, and only when it is none do they return the
    (non-success) result of the creation that failed. *)
Theorem partial_success_is_success s n target cnt :
  VALID_MANAGER (manager s) = true ->
  0 < n ->
  (exists res s' new,
      outcome_of (ns_clientmgr_addtodispatch env s n target cnt)
      = Ok (res, s')
      /\ clients (manager s') = clients (manager s) ++ new
      /\ (length new <= Z.to_nat n)%nat
      /\ (new <> [] -> res = ISC_R_SUCCESS)
      /\ (new = [] ->
          res <> ISC_R_SUCCESS /\ first_dispatch_client_fails env s cnt res))
  /\ (exists res s' new,
      outcome_of (ns_clientmgr_accepttcp env s target n cnt) = Ok (res, s')
      /\ clients (manager s') = clients (manager s) ++ new
      /\ (length new <= Z.to_nat n)%nat
      /\ (new <> [] -> res = ISC_R_SUCCESS)
      /\ (new = [] ->
          res <> ISC_R_SUCCESS /\ first_tcp_client_fails env s cnt res)).
Proof.
  intros Hvalid Hn.
  assert (Htodo : Z.to_nat n <> O) by lia.
  apply Z.ltb_lt in Hn.
  split.
  - unfold ns_clientmgr_addtodispatch, bind, REQUIRE, ret.
    rewrite Hvalid, Hn.
    destruct (addtodispatch_loop_returns target (Z.to_nat n) ISC_R_SUCCESS 0
                s cnt) as (res & s' & new & Ho & Hc & _ & Hl & Hnone).
    destruct (addtodispatch_loop env (Z.to_nat n) ISC_R_SUCCESS 0 target s
                cnt) as [[o k] l].
    cbn in Ho. subst o. cbn.
    destruct new as [|p new].
    + exists res, s', []. cbn. repeat split; auto; try congruence.
      all: destruct (Hnone eq_refl) as [[? _]|(_ & ? & ?)]; congruence.
    + exists ISC_R_SUCCESS, s', (p :: new).
      replace (Z.of_nat (length (p :: new)) =? 0) with false
        by (symmetry; apply Z.eqb_neq; cbn [length]; lia).
      cbn. repeat split; auto; discriminate.
  - unfold ns_clientmgr_accepttcp, bind, REQUIRE, ret.
    rewrite Hvalid, Hn.
    destruct (accepttcp_loop_returns target (Z.to_nat n) ISC_R_SUCCESS 0
                s cnt) as (res & s' & new & Ho & Hc & _ & Hl & Hnone).
    destruct (accepttcp_loop env (Z.to_nat n) ISC_R_SUCCESS 0 target s
                cnt) as [[o k] l].
    cbn in Ho. subst o. cbn.
    destruct new as [|p new].
    + exists res, s', []. cbn. repeat split; auto; try congruence.
      all: destruct (Hnone eq_refl) as [[? _]|(_ & ? & ?)]; congruence.
    + exists ISC_R_SUCCESS, s', (p :: new).
      replace (Z.of_nat (length (p :: new)) =? 0) with false
        by (symmetry; apply Z.eqb_neq; cbn [length]; lia).
      cbn. repeat split; auto; discriminate.
Qed.

End ManagerFacts.

(** ** Shutting the manager down *)

Lemma unlink_In p q l : In q (unlink p l) <-> In q l /\ q <> p.
Proof.
  unfold unlink. rewrite filter_In, negb_true_iff, Nat.eqb_neq. reflexivity.
Qed.

Lemma unlink_NoDup p l : NoDup l -> NoDup (unlink p l).
Proof. apply NoDup_filter. Qed.

Lemma unlink_absent p l : ~ In p l -> unlink p l = l.
Proof.
  induction l as [|q l IH]; cbn; [reflexivity|].
  intros H. destruct (Nat.eqb_spec q p) as [->|Hq]; cbn.
  - exfalso. apply H. now left.
  - f_equal. apply IH. intros Hin. apply H. now right.
Qed.

Lemma unlink_length p l :
  NoDup l -> In p l -> length (unlink p l) = (length l - 1)%nat.
Proof.
  induction 1 as [|q l Hq Hl IH]; cbn; [tauto|].
  intros [->|Hin].
  - rewrite Nat.eqb_refl. cbn [negb].
    change (filter (fun q => negb (q =? p)%nat) l) with (unlink p l).
    rewrite unlink_absent by assumption. lia.
  - destruct (Nat.eqb_spec q p) as [->|Hne]; [tauto|]. cbn [negb length].
    change (filter (fun q => negb (q =? p)%nat) l) with (unlink p l).
    rewrite IH by assumption.
    destruct l; [destruct Hin|cbn; lia].
Qed.

Lemma shutdown_all_events l cnt :
  shutdown_all l cnt = (Ok tt, cnt, map Ev_task_shutdown l).
Proof.
  induction l as [|p l IH]; cbn; [reflexivity|].
  unfold bind, emit. now rewrite IH.
Qed.

Lemma client_destroy_step c s cnt :
  NS_CLIENT_VALID c = true ->
  counted (manager s) ->
  In (self c) (clients (manager s)) ->
  let m := manager s in
  let last := (length (clients m) =? 1)%nat && exiting m in
  exists evs,
    client_shutdown c s cnt
    = (Ok (mk_server
             (mk_mgr (if last then 0 else mgr_magic m) (exiting m)
                (nclients m - 1) (unlink (self c) (clients m)))
             (drop_object (self c) (objects s))),
       cnt, evs)
    /\ count_events is_manager_freed evs = if last then 1%nat else O.
Proof.
  intros Hvalid [Hn Hnd] Hin m last.
  assert (Hlen : (1 <= length (clients m))%nat).
  { subst m. destruct (clients (manager s)); [destruct Hin|cbn; lia]. }
  assert (H0 : (0 <? nclients m) = true) by (apply Z.ltb_lt; subst m; lia).
  assert (H1 : (nclients m - 1 =? 0) = (length (clients m) =? 1)%nat).
  { subst m. rewrite Hn.
    destruct (Nat.eqb_spec (length (clients (manager s))) 1) as [->|Hne];
      [reflexivity|apply Z.eqb_neq; lia]. }
  assert (H2 : (length (clients m) =? 1)%nat = true ->
               unlink (self c) (clients m) = []).
  { intros H. apply Nat.eqb_eq in H. apply length_zero_iff_nil.
    rewrite unlink_length by assumption. lia. }
  unfold client_shutdown, client_destroy, clientmgr_destroy, client_free,
    bind, INSIST, REQUIRE, emit, ret.
  fold m. rewrite Hvalid, H0. cbn [nclients exiting clients mgr_magic].
  rewrite H1. subst last.
  destruct (length (clients m) =? 1)%nat eqn:Hlast.
  - rewrite (H2 eq_refl). destruct (exiting m); run.
    all: eexists; split; reflexivity.
  - run. all: eexists; split; reflexivity.
Qed.

Lemma all_gone_step a n :
  (1 <= n)%nat -> n <> 1%nat ->
  ((a =? n - 1)%nat && negb (a =? 0)%nat)
  = ((S a =? n)%nat && negb (S a =? 0)%nat).
Proof.
  intros H1 H2.
  destruct (Nat.eqb_spec a (n - 1)), (Nat.eqb_spec a 0),
    (Nat.eqb_spec (S a) n); cbn; try reflexivity; lia.
Qed.

Lemma shutdowns_run order :
  forall s cnt,
  exiting (manager s) = true ->
  VALID_MANAGER (manager s) = true ->
  counted (manager s) ->
  NoDup (map self order) ->
  incl (map self order) (clients (manager s)) ->
  Forall (fun c => NS_CLIENT_VALID c = true) order ->
  let all := (length order =? length (clients (manager s)))%nat
             && negb (length order =? 0)%nat in
  exists s' evs,
    run_shutdowns order s cnt = (Ok s', cnt, evs)
    /\ mgr_magic (manager s') = (if all then 0 else MANAGER_MAGIC)
    /\ count_events is_manager_freed evs = (if all then 1%nat else O)
    /\ nclients (manager s')
       = nclients (manager s) - Z.of_nat (length order)
    /\ exiting (manager s') = true.
Proof.
  induction order as [|c rest IH]; intros s cnt Hex Hvalid Hc Hnd Hincl Hall.
  - cbn. exists s, []. rewrite andb_false_r. unfold VALID_MANAGER in Hvalid.
    apply Z.eqb_eq in Hvalid. repeat split; auto. lia.
  - cbn [map] in Hnd, Hincl. inversion Hnd as [|? ? Hc_fresh Hnd_rest]; subst.
    inversion Hall as [|? ? Hc_valid Hall_rest]; subst.
    assert (Hin : In (self c) (clients (manager s)))
      by (apply Hincl; now left).
    destruct (client_destroy_step c s cnt Hc_valid Hc Hin) as (ev1 & H1 & F1).
    cbn zeta in H1, F1. rewrite Hex, andb_true_r in H1, F1.
    cbn [run_shutdowns]. unfold bind. rewrite H1.
    destruct Hc as [Hn Hnodup].
    destruct (length (clients (manager s)) =? 1)%nat eqn:Hlast.
    + (* the last client: nothing is left to shut down *)
      apply Nat.eqb_eq in Hlast.
      assert (Hrest : rest = []).
      { destruct rest as [|d rest]; [reflexivity|exfalso].
        assert (Hd : In (self d) (clients (manager s)))
          by (apply Hincl; right; now left).
        destruct (clients (manager s)) as [|p [|q l]]; try discriminate.
        destruct Hin as [Hp|[]]; destruct Hd as [Hd|[]].
        apply Hc_fresh. left. congruence. }
      subst rest. cbn. rewrite Hlast, app_nil_r. cbn.
      eexists; eexists; split; [reflexivity|]. cbn.
      repeat split; auto; lia.
    + apply Nat.eqb_neq in Hlast.
      set (s1 := mk_server _ _) in *.
      assert (Hlen1 : length (clients (manager s1))
                      = (length (clients (manager s)) - 1)%nat)
        by (subst s1; cbn; now apply unlink_length).
      destruct (IH s1 cnt) as (s' & ev2 & H2 & M2 & F2 & N2 & E2).
      * reflexivity.
      * exact Hvalid.
      * split; [|now apply unlink_NoDup]. subst s1. cbn.
        rewrite unlink_length by assumption.
        destruct (clients (manager s)); [destruct Hin|cbn in *; lia].
      * exact Hnd_rest.
      * intros p Hp. subst s1. cbn. apply unlink_In. split.
        -- apply Hincl. now right.
        -- intros ->. now apply Hc_fresh.
      * exact Hall_rest.
      * rewrite H2. exists s', (ev1 ++ ev2). split; [reflexivity|].
        rewrite count_events_app, F1, F2, M2, N2, Hlen1. cbn [length Nat.add].
        assert (Hsame :
          ((length rest =? length (clients (manager s)) - 1)%nat
           && negb (length rest =? 0)%nat)
          = ((S (length rest) =? length (clients (manager s)))%nat
             && negb (S (length rest) =? 0)%nat)).
        { apply all_gone_step; [|assumption].
          destruct (clients (manager s)); [destruct Hin|cbn; lia]. }
        rewrite Hsame. subst s1. cbn [manager nclients].
        repeat split; auto. lia.
Qed.

Lemma client_destroy_frees_last c s cnt s' :
  VALID_MANAGER (manager s) = true ->
  outcome_of (client_destroy c s cnt) = Ok s' ->
  mgr_magic (manager s') = 0 ->
  nclients (manager s') = 0 /\ exiting (manager s') = true.
Proof.
  intros Hvalid.
  unfold client_destroy, clientmgr_destroy, client_free, bind, INSIST,
    REQUIRE, emit, ret.
  cbn [nclients exiting clients mgr_magic].
  unfold VALID_MANAGER in Hvalid. apply Z.eqb_eq in Hvalid.
  run; intros [= <-]; cbn; intros Hm;
    try (rewrite Hvalid in Hm; discriminate).
  all: split; [lia|reflexivity].
Qed.

Lemma clientmgr_destroy_frees_empty s cnt s' :
  VALID_MANAGER (manager s) = true ->
  outcome_of (ns_clientmgr_destroy s cnt) = Ok s' ->
  mgr_magic (manager s') = 0 ->
  nclients (manager s') = 0 /\ exiting (manager s') = true.
Proof.
  intros Hvalid.
  unfold ns_clientmgr_destroy, clientmgr_destroy, bind, REQUIRE, emit, ret.
  rewrite Hvalid. cbn [nclients exiting clients mgr_magic].
  rewrite shutdown_all_events.
  unfold VALID_MANAGER in Hvalid. apply Z.eqb_eq in Hvalid.
  run; intros [= <-]; cbn; intros Hm;
    try (rewrite Hvalid in Hm; discriminate).
  all: split; [lia|reflexivity].
Qed.

(** C7.  destroy sets exiting and sends a task shutdown to every client
    of the list, in list order.  With an empty list the manager is freed
    on the spot.  Otherwise it is still there when destroy returns, it is
    still there after any of the clients' shutdown handlers but the last
    have run, in whatever order, and the handler of the last client frees
    it (nclients has reached 0 while exiting holds).  Neither
    client_destroy nor destroy frees a manager while nclients > 0 or
    exiting is false. *)
Theorem manager_destroyed_by_last_client s cnt :
  VALID_MANAGER (manager s) = true ->
  counted (manager s) ->
  let x := ns_clientmgr_destroy s cnt in
  exists s1,
    outcome_of x = Ok s1
    /\ exiting (manager s1) = true
    /\ filter is_task_shutdown (events_of x)
       = map Ev_task_shutdown (clients (manager s))
    /\ (clients (manager s) = [] ->
        mgr_magic (manager s1) = 0
        /\ count_events is_manager_freed (events_of x) = 1%nat)
    /\ (clients (manager s) <> [] ->
        VALID_MANAGER (manager s1) = true
        /\ count_events is_manager_freed (events_of x) = O
        /\ forall order cnt',
            Permutation (map self order) (clients (manager s)) ->
            Forall (fun c => NS_CLIENT_VALID c = true) order ->
            (forall done rest,
                order = done ++ rest -> rest <> [] ->
                exists s2,
                  outcome_of (run_shutdowns done s1 cnt') = Ok s2
                  /\ VALID_MANAGER (manager s2) = true
                  /\ count_events is_manager_freed
                       (events_of (run_shutdowns done s1 cnt')) = O)
            /\ exists s3,
                outcome_of (run_shutdowns order s1 cnt') = Ok s3
                /\ mgr_magic (manager s3) = 0
                /\ nclients (manager s3) = 0
                /\ count_events is_manager_freed
                     (events_of (run_shutdowns order s1 cnt')) = 1%nat)
    /\ (forall c s0 k s',
        VALID_MANAGER (manager s0) = true ->
        outcome_of (client_destroy c s0 k) = Ok s' ->
        mgr_magic (manager s') = 0 ->
        nclients (manager s') = 0 /\ exiting (manager s') = true)
    /\ (forall s0 k s',
        VALID_MANAGER (manager s0) = true ->
        outcome_of (ns_clientmgr_destroy s0 k) = Ok s' ->
        mgr_magic (manager s') = 0 ->
        nclients (manager s') = 0 /\ exiting (manager s') = true).
Proof.
  intros Hvalid [Hn Hnd] x. subst x.
  unfold ns_clientmgr_destroy, clientmgr_destroy, bind, REQUIRE, emit, ret.
  rewrite Hvalid. cbn [nclients exiting clients mgr_magic].
  rewrite shutdown_all_events.
  assert (Hfilter : forall l, filter is_task_shutdown
                                (map Ev_task_shutdown l)
                              = map Ev_task_shutdown l)
    by (induction l as [|p l IH]; cbn; congruence).
  assert (Hnone : forall l, count_events is_manager_freed
                              (map Ev_task_shutdown l) = O)
    by (induction l as [|p l IH]; cbn; auto).
  destruct (clients (manager s)) as [|p l] eqn:Hclients.
  - cbn in Hn. rewrite Hn. cbn.
    eexists. split; [reflexivity|]. cbn.
    split; [reflexivity|]. split; [reflexivity|].
    split; [intros _; split; reflexivity|].
    split; [congruence|].
    split; [exact client_destroy_frees_last
           |exact clientmgr_destroy_frees_empty].
  - cbn [app outcome_of events_of fst snd].
    eexists. split; [reflexivity|]. cbn [manager exiting].
    split; [reflexivity|]. rewrite app_nil_r.
    split; [apply (Hfilter (p :: l))|].
    split; [discriminate|].
    split; [|split; [exact client_destroy_frees_last
                    |exact clientmgr_destroy_frees_empty]].
    intros _. split; [exact Hvalid|]. split; [apply (Hnone (p :: l))|].
    intros order cnt' Hperm Hall.
    set (s1 := mk_server _ _).
    assert (Hc1 : counted (manager s1))
      by (subst s1; split; cbn; rewrite ?Hclients; assumption).
    assert (HndO : NoDup (map self order))
      by (apply (Permutation_NoDup (Permutation_sym Hperm)); assumption).
    assert (Hlen : length order = length (p :: l))
      by (rewrite <- (Permutation_length Hperm); now rewrite length_map).
    split.
    + intros done rest -> Hrest.
      rewrite map_app in HndO, Hperm. rewrite length_app in Hlen.
      apply Forall_app in Hall as [Hall _].
      destruct (shutdowns_run done s1 cnt')
        as (s2 & ev & H2 & M2 & F2 & _); auto.
      * now apply NoDup_app_remove_r in HndO.
      * intros q Hq. subst s1. cbn. rewrite ?Hclients.
        apply (Permutation_in _ Hperm). apply in_or_app. now left.
      * rewrite H2. exists s2. cbn.
        replace (length done =? length (clients (manager s1)))%nat
          with false in M2, F2.
        2:{ symmetry. apply Nat.eqb_neq. subst s1. cbn. rewrite ?Hclients.
            destruct rest; [congruence|cbn in Hlen; lia]. }
        cbn in M2, F2. unfold VALID_MANAGER. rewrite M2.
        repeat split; auto.
    + destruct (shutdowns_run order s1 cnt')
        as (s3 & ev & H3 & M3 & F3 & N3 & _); auto.
      * intros q Hq. subst s1. cbn. rewrite ?Hclients.
        now apply (Permutation_in _ Hperm).
      * rewrite H3. exists s3. cbn.
        replace (length order =? length (clients (manager s1)))%nat
          with true in M3, F3
          by (symmetry; apply Nat.eqb_eq; subst s1; cbn;
              now rewrite ?Hclients).
        replace (length order =? 0)%nat with false in M3, F3
          by (symmetry; apply Nat.eqb_neq; rewrite Hlen; discriminate).
        cbn in M3, F3. repeat split; auto.
        rewrite N3. subst s1. cbn. rewrite Hn, Hlen, ?Hclients. cbn [length]. lia.
Qed.

(** ** Runs of the properties on concrete clients *)

(** Over TCP the second call to error() ends in a failed REQUIRE: the
    first one has finalized the request and left the client reading, and
    ns_client_next requires a listening or working client. *)
Lemma iquery_over_tcp_fails_require :
  let x := client_request Scenario.env_ok 2 DNS_EVENT_TCPMSG Runs.tcp_iquery
             no_calls in
  outcome_of x = Assertion_failed
  /\ error_calls (events_of x) = [DNS_R_REFUSED; DNS_R_NOTIMP]
  /\ rendered_rcodes (events_of x) = [5; 4].
Proof. vm_compute. repeat split. Qed.

Lemma iquery_is_finalized_twice_witness :
  filter (is_finalize_from F_request)
    (events_of (client_request_dispatch Scenario.env_ok 2
                  Runs.iquery_at_work no_calls))
  = [Call_error F_request DNS_R_REFUSED; Call_error F_request DNS_R_NOTIMP].
Proof.
  apply iquery_is_finalized_twice; [lia | reflexivity | reflexivity
                                   | reflexivity].
Defined.



Lemma send_pool_empty_witness :
  ns_client_send Scenario.env_nobuf 2 F_handler Runs.busy_client no_calls
  = (Ok (set_state Runs.busy_client ns_clientstate_waiting),
     bump X_mempool_get no_calls, [Call_send F_handler; Ev_mempool_get false]).
Proof.
  apply (send_pool_empty Scenario.env_nobuf 2 F_handler Runs.busy_client
           no_calls); [lia | reflexivity | reflexivity | reflexivity
                      | reflexivity].
Defined.

Lemma error_replies_or_gives_up_witness :
  count_events is_sendto
    (events_of (ns_client_error Runs.env_noreply 2 F_request
                  Runs.iquery_at_work DNS_R_REFUSED no_calls)) = O.
Proof.
  apply (error_replies_or_gives_up Runs.env_noreply 2 F_request
           Runs.iquery_at_work DNS_R_REFUSED no_calls);
    [lia | reflexivity | discriminate | discriminate].
Defined.

Lemma send_renders_in_order_witness :
  render_steps
    (events_of (ns_client_send Runs.env_nospace 2 F_handler
                  Runs.iquery_at_work no_calls))
  = render_order.
Proof.
  apply (send_renders_in_order Runs.env_nospace 2 F_handler
           Runs.iquery_at_work no_calls);
    [lia | reflexivity | reflexivity | reflexivity | reflexivity
    | reflexivity | reflexivity | reflexivity].
Defined.

Lemma manager_destroyed_by_last_client_witness :
  exists s1,
    outcome_of (ns_clientmgr_destroy Runs.two_clients no_calls) = Ok s1
    /\ VALID_MANAGER (manager s1) = true
    /\ exists s3,
        outcome_of (run_shutdowns [Scenario.tcp_client; Scenario.udp_client]
                      s1 no_calls) = Ok s3
        /\ mgr_magic (manager s3) = 0.
Proof.
  destruct (manager_destroyed_by_last_client Runs.two_clients no_calls)
    as (s1 & H1 & _ & _ & _ & H2 & _).
  - reflexivity.
  - split; [reflexivity|].
    repeat constructor; simpl; intuition discriminate.
  - exists s1. split; [exact H1|].
    destruct H2 as (Hv & _ & Hrun); [discriminate|].
    split; [exact Hv|].
    destruct (Hrun [Scenario.tcp_client; Scenario.udp_client] no_calls)
      as (_ & s3 & H3 & M3 & _).
    + apply perm_swap.
    + repeat constructor.
    + exists s3. split; assumption.
Defined.


Lemma partial_success_is_success_witness :
  exists res s' new,
    outcome_of (ns_clientmgr_addtodispatch Runs.env_one_client
                  Runs.empty_server 3 1%nat no_calls) = Ok (res, s')
    /\ clients (manager s') = clients (manager Runs.empty_server) ++ new
    /\ (new <> [] -> res = ISC_R_SUCCESS).
Proof.
  destruct (partial_success_is_success Runs.env_one_client Runs.empty_server
              3 1%nat no_calls)
    as [(res & s' & new & H1 & H2 & _ & H3 & _) _];
    [reflexivity | lia | ].
  exists res, s', new. repeat split; assumption.
Defined.

Lemma read_leaves_reading_witness :
  exists c',
    outcome_of (client_read Runs.env_noread 2 Runs.tcp_listening no_calls)
    = Ok c'
    /\ state c' = ns_clientstate_reading.
Proof.
  eexists. split; [vm_compute; reflexivity|].
  apply (read_leaves_reading Runs.env_noread 2 Runs.tcp_listening no_calls);
    [lia | vm_compute; reflexivity].
Defined.

(** * Part three: further properties of the code *)

(** ** Bookkeeping lemmas and tactics *)

Lemma kept_refl c : kept c c.
Proof. unfold kept. repeat split. Qed.

Lemma kept_trans a b c : kept a b -> kept b c -> kept a c.
Proof. unfold kept. intuition congruence. Qed.

Lemma buffers_out_app l1 l2 :
  buffers_out (l1 ++ l2) = buffers_out l1 + buffers_out l2.
Proof.
  induction l1 as [|e l1 IH]; cbn; [reflexivity|].
  destruct e; try (rewrite IH; lia).
  destruct got; rewrite IH; lia.
Qed.

Lemma buffers_out_next_tail l :
  forallb next_tail_event l = true -> buffers_out l = 0.
Proof.
  induction l as [|e l IH]; cbn; [reflexivity|].
  intros H. apply andb_true_iff in H as [He Hl].
  destruct e; cbn in He; try discriminate; auto.
Qed.

(** Unfold both levels of ns_client_next. *)
Ltac open_next :=
  cbn [ns_client_next];
  unfold client_read_with, client_accept, bind, REQUIRE, emit, ret, ask,
    out_of_fuel, NS_CLIENT_VALID, TCP_CLIENT in *.

Ltac kept_now := unfold kept in *; cbn in *; intuition congruence.

(** Turn the equations on calls already made into what they account for. *)
Ltac accounts_of next_acc send_acc error_acc :=
  repeat match goal with
         | H : ns_client_next ?e ?f ?g ?c ?r ?k = _ |- _ =>
             let A := fresh "A" in
             assert (A := next_acc f g c r k); rewrite H in A;
             unfold accounted in A; cbn in A; clear H
         | H : ns_client_send ?e ?f ?g ?c ?k = _ |- _ =>
             let A := fresh "A" in
             assert (A := send_acc f g c k); rewrite H in A;
             unfold accounted in A; cbn in A; clear H
         | H : ns_client_error ?e ?f ?g ?c ?r ?k = _ |- _ =>
             let A := fresh "A" in
             assert (A := error_acc f g c r k); rewrite H in A;
             unfold accounted in A; cbn in A; clear H
         end.

(** Use the accounts of the calls that returned. *)
Ltac settle :=
  repeat match goal with
         | A : forall c', Ok ?a = Ok c' -> _ |- _ =>
             specialize (A a eq_refl); destruct A as [? ?]
         | A : forall c', ?o = Ok c' -> _, H : ?o = Ok ?a |- _ =>
             specialize (A a H); destruct A as [? ?]
         | A : forall c', Assertion_failed = Ok c' -> _ |- _ => clear A
         | A : forall c', Out_of_fuel = Ok c' -> _ |- _ => clear A
         end;
  rewrite ?buffers_out_app; cbn; rewrite ?app_nil_r;
  rewrite ?buffers_out_app; cbn;
  split; [lia | kept_now].

(** ** What ns_client_next leaves behind *)

Section NextFacts.
Variable env : Env.

(** X1.  The view loop of client_request takes the first view of the
    list whose class is the class of the message, and finds none exactly
    when no view of the list has that class. *)
Theorem find_view_first views class :
  (forall v, find_view views class = Some v <->
     exists pre post,
       views = pre ++ v :: post /\ view_rdclass v = class
       /\ Forall (fun u => view_rdclass u <> class) pre)
  /\ (find_view views class = None <->
      Forall (fun u => view_rdclass u <> class) views).
Proof.
  induction views as [|u views [IHs IHn]]; cbn.
  - split.
    + intros v. split; [discriminate|].
      intros (pre & post & H & _). destruct pre; discriminate.
    + split; constructor.
  - destruct (Z.eqb_spec class (view_rdclass u)) as [Heq|Hne].
    + split.
      * intros v. split.
        -- intros [= <-]. exists [], views. repeat split; auto.
        -- intros (pre & post & H & Hc & Hpre).
           destruct pre as [|p pre]; cbn in H; injection H as -> ->.
           ++ reflexivity.
           ++ inversion Hpre; subst. congruence.
      * split; [discriminate|]. intros H. inversion H; subst. congruence.
    + split.
      * intros v. rewrite IHs. split.
        -- intros (pre & post & -> & Hc & Hpre).
           exists (u :: pre), post. repeat split; auto.
        -- intros (pre & post & H & Hc & Hpre).
           destruct pre as [|p pre]; cbn in H; injection H as -> ->.
           ++ congruence.
           ++ inversion Hpre; subst. exists pre, post. auto.
      * rewrite IHn. split.
        -- intros H. constructor; auto.
        -- intros H. now inversion H.
Qed.

(** X2.  ns_client_next returns exactly when the client is valid and in
    state listening or working; on any other client it stops at its
    REQUIRE before it has done anything. *)
Theorem next_returns_iff fuel from c r cnt :
  (2 <= fuel)%nat ->
  let x := ns_client_next env fuel from c r cnt in
  ((exists c', outcome_of x = Ok c') <->
     NS_CLIENT_VALID c = true /\ may_finalize c = true)
  /\ (NS_CLIENT_VALID c = false \/ may_finalize c = false ->
      x = (Assertion_failed, cnt, [Call_next from r])).
Proof.
  intros Hfuel x. subst x. split.
  - split.
    + intros [c' H].
      destruct fuel as [|fuel]; [lia|]. revert H.
      cbn [ns_client_next]. unfold bind, REQUIRE, emit.
      fold (may_finalize c).
      destruct (NS_CLIENT_VALID c); [|discriminate].
      destruct (may_finalize c); [auto|discriminate].
    + intros [V W].
      exact (ns_returns _ _ _ _ _ (next_ok env fuel from c r cnt Hfuel)
               V W).
  - intros H. destruct fuel as [|fuel]; [lia|].
    cbn [ns_client_next]. unfold bind, REQUIRE, emit.
    fold (may_finalize c).
    destruct (NS_CLIENT_VALID c); [|reflexivity].
    destruct H as [H|H]; [discriminate|]. rewrite H. reflexivity.
Qed.


(** X3.  When ns_client_next returns, the request is released: no view,
    no next callback and no dispatch event are left, nsends and the fields
    that identify the client are unchanged; the callback is run once if
    one was set and the view is detached once if one was attached. *)
Theorem next_releases_request fuel from c r cnt :
  (2 <= fuel)%nat ->
  let x := ns_client_next env fuel from c r cnt in
  (forall c', outcome_of x = Ok c' ->
     view c' = None /\ next c' = false /\ dispevent c' = None
     /\ nsends c' = nsends c /\ kept c c')
  /\ (NS_CLIENT_VALID c = true -> may_finalize c = true ->
      count_events is_next_callback (events_of x)
      = (if next c then 1%nat else O)
      /\ count_events is_view_detach (events_of x)
         = (match view c with Some _ => 1%nat | None => O end)).
Proof.
  intros Hfuel x. subst x.
  destruct fuel as [|[|fuel]]; try lia.
  split.
  - intros c'. open_next. run; intros [= <-]; cbn; unfold kept; cbn;
      repeat split; first [reflexivity | assumption].
  - intros V W. unfold may_finalize in W. open_next.
    rewrite V, W. run; try congruence; split; reflexivity.
Qed.

(** X4.  On a client that holds a dispatch event, ns_client_next gives
    the event back to the dispatcher, once, and leaves the client
    listening; it neither reads from nor accepts on a socket. *)
Theorem next_udp_listens fuel from c r cnt d :
  (2 <= fuel)%nat ->
  NS_CLIENT_VALID c = true -> may_finalize c = true ->
  dispevent c = Some d ->
  let x := ns_client_next env fuel from c r cnt in
  exists c',
    outcome_of x = Ok c'
    /\ state c' = ns_clientstate_listening
    /\ tcpsocket c' = tcpsocket c
    /\ count_events is_freeevent (events_of x) = 1%nat
    /\ count_events is_readmessage (events_of x) = O
    /\ count_events is_accept (events_of x) = O.
Proof.
  intros Hfuel V W D x. subst x. unfold may_finalize in W.
  destruct fuel as [|[|fuel]]; try lia.
  open_next. rewrite V, W. revert D.
  run; intros D; try discriminate; eexists; repeat split; reflexivity.
Qed.

(** X5.  On a TCP client ns_client_next re-arms the connection: after
    success it reads the next message on the same socket; when the read
    cannot be started, or after a failure, the socket is dropped and a new
    connection is accepted, and the client is idle if that accept fails
    too. *)
Theorem next_tcp_rearms fuel from c r cnt :
  (2 <= fuel)%nat ->
  NS_CLIENT_VALID c = true -> may_finalize c = true ->
  dispevent c = None -> TCP_CLIENT c = true ->
  let x := ns_client_next env fuel from c r cnt in
  let read := answer env cnt X_readmessage in
  let accepted := answer env cnt X_accept in
  exists c',
    outcome_of x = Ok c'
    /\ count_events is_freeevent (events_of x) = O
    /\ (r = ISC_R_SUCCESS -> read = ISC_R_SUCCESS ->
        state c' = ns_clientstate_reading
        /\ tcpsocket c' = tcpsocket c
        /\ count_events is_readmessage (events_of x) = 1%nat
        /\ count_events is_accept (events_of x) = O)
    /\ (r = ISC_R_SUCCESS -> read <> ISC_R_SUCCESS ->
        state c' = ns_clientstate_reading
        /\ tcpsocket c' = None
        /\ count_events is_readmessage (events_of x) = 1%nat
        /\ count_events is_accept (events_of x) = 1%nat)
    /\ (r <> ISC_R_SUCCESS ->
        tcpsocket c' = None
        /\ state c' = (if is_success accepted then state c
                       else ns_clientstate_idle)
        /\ count_events is_readmessage (events_of x) = O
        /\ count_events is_accept (events_of x) = 1%nat).
Proof.
  intros Hfuel V W D T x read accepted. subst x read accepted.
  unfold may_finalize in W. unfold answer.
  destruct fuel as [|[|fuel]]; try lia.
  open_next. rewrite V, W. revert D T.
  run; intros D T; try discriminate.
  all: eexists; split; [reflexivity|]; cbn.
  all: repeat split; intros;
       repeat match goal with
              | H : _ = ISC_R_SUCCESS |- _ => apply is_success_true in H
              | H : _ <> ISC_R_SUCCESS |- _ => apply is_success_false in H
              end;
       try congruence; try reflexivity.
Qed.

End NextFacts.

(** ** Send buffers over the life of a client *)

Section Accounts.
Variable env : Env.

Lemma next_accounted fuel from c r cnt :
  (2 <= fuel)%nat ->
  accounted c (ns_client_next env fuel from c r cnt).
Proof.
  intros Hfuel c' Ho.
  destruct (next_ok env fuel from c r cnt Hfuel) as [[tail [E Q]] _ _ A].
  destruct (A c' Ho) as (_ & An & _).
  rewrite E. cbn. rewrite (buffers_out_next_tail _ Q). split; [lia|].
  clear A E Q An. revert Ho.
  destruct fuel as [|[|fuel]]; try lia.
  open_next. run; intros [= <-]; kept_now.
Qed.

Lemma send_accounted fuel from c cnt :
  (2 <= fuel)%nat ->
  accounted c (ns_client_send env fuel from c cnt).
Proof.
  intros Hfuel c'.
  unfold ns_client_send, bind, INSIST, REQUIRE, emit, ret, ask, alloc.
  run; intros Ho; try discriminate; try (injection Ho as <-).
  all: accounts_of
         (fun (_ : nat) g c r k => next_accounted fuel g c r k Hfuel)
         tt tt.
  all: settle.
Qed.

Lemma error_accounted fuel from c r cnt :
  (2 <= fuel)%nat ->
  accounted c (ns_client_error env fuel from c r cnt).
Proof.
  intros Hfuel c'.
  unfold ns_client_error, bind, INSIST, REQUIRE, emit, ret, ask, alloc.
  run; intros Ho; try discriminate; try (injection Ho as <-).
  all: accounts_of
         (fun (_ : nat) g c r k => next_accounted fuel g c r k Hfuel)
         (fun (_ : nat) g c k => send_accounted fuel g c k Hfuel) tt.
  all: settle.
Qed.

Hypothesis query_accounts : handler_accounts (ns_query_start env).
Hypothesis update_accounts : handler_accounts (ns_update_start env).

Lemma dispatch_accounted fuel c cnt :
  (2 <= fuel)%nat ->
  accounted c (client_request_dispatch env fuel c cnt).
Proof.
  intros Hfuel.
  unfold client_request_dispatch.
  destruct (opcode (message c)).
  1: apply query_accounts.
  4: apply update_accounts.
  2, 4: now apply error_accounted.
  all: intros c'; unfold bind, emit; run; intros Ho; try discriminate;
       try (injection Ho as <-).
  all: accounts_of
         (fun (_ : nat) g c r k => next_accounted fuel g c r k Hfuel)
         (fun (_ : nat) g c k => send_accounted fuel g c k Hfuel)
         (fun (_ : nat) g c r k => error_accounted fuel g c r k Hfuel).
  all: settle.
Qed.

Lemma request_accounted fuel ev c cnt :
  (2 <= fuel)%nat ->
  accounted c (client_request env fuel ev c cnt).
Proof.
  intros Hfuel c'.
  unfold client_request, bind, INSIST, REQUIRE, emit, ret, ask.
  destruct ev; run; intros Ho; try discriminate; try (injection Ho as <-).
  all: repeat match goal with
       | H : client_request_dispatch ?e ?f ?a ?k = _ |- _ =>
           let A := fresh "A" in
           assert (A := dispatch_accounted f a k Hfuel); rewrite H in A;
           unfold accounted in A; cbn in A; clear H
       end.
  all: accounts_of
         (fun (_ : nat) g c r k => next_accounted fuel g c r k Hfuel)
         (fun (_ : nat) g c k => send_accounted fuel g c k Hfuel)
         (fun (_ : nat) g c r k => error_accounted fuel g c r k Hfuel).
  all: settle.
Qed.

Lemma handle_accounted fuel e c cnt :
  (2 <= fuel)%nat ->
  accounted c (handle env fuel e c cnt).
Proof.
  intros Hfuel. destruct e; cbn [handle].
  - now apply request_accounted.
  - intros c' Ho.
    destruct (request_accounted fuel DNS_EVENT_TCPMSG (set_tcpmsg c filled)
                cnt Hfuel c' Ho) as [Hn Hk].
    split; [exact Hn|kept_now].
  - intros c'.
    unfold client_senddone, bind, INSIST, REQUIRE, emit, ret.
    run; intros Ho; try discriminate; try (injection Ho as <-).
    all: accounts_of tt
           (fun (_ : nat) g c k => send_accounted fuel g c k Hfuel) tt.
    all: settle.
  - intros c'. unfold client_timeout, bind, REQUIRE.
    run; intros Ho; try discriminate.
    all: accounts_of
         (fun (_ : nat) g c r k => next_accounted fuel g c r k Hfuel)
           tt tt.
    all: settle.
  - intros c'. unfold client_newconn, client_read, client_read_with, bind,
      REQUIRE, emit, ret, ask.
    run; intros Ho; try discriminate; try (injection Ho as <-).
    all: accounts_of
         (fun (_ : nat) g c r k => next_accounted fuel g c r k Hfuel)
           tt tt.
    all: settle.
  - now apply send_accounted.
  - now apply error_accounted.
  - now apply next_accounted.
Qed.


End Accounts.

(** ** What is sent *)

Lemma rendered_rcodes_next_tail l :
  forallb next_tail_event l = true -> rendered_rcodes l = [].
Proof.
  induction l as [|e l IH]; cbn; [reflexivity|].
  intros H. apply andb_true_iff in H as [He Hl].
  destruct e; cbn in He; try discriminate; auto.
Qed.

Section SendReceipts.
Variable env : Env.

Lemma send_rendered_rcodes fuel from c cnt :
  (2 <= fuel)%nat ->
  let l := rendered_rcodes (events_of (ns_client_send env fuel from c cnt)) in
  l = [] \/ l = [rcode (message c)].
Proof.
  intros Hfuel.
  unfold ns_client_send, bind, INSIST, REQUIRE, emit, ret, ask, alloc.
  run; auto.
  all: use_next Hfuel; cbn; rewrite (rendered_rcodes_next_tail _ Q); auto.
Qed.


(** X8.  Whatever ns_client_error renders carries the rcode that
    dns_result_torcode gives for the result it was called with; it renders
    at most one message. *)
Theorem error_reply_has_mapped_rcode fuel from c result cnt :
  (2 <= fuel)%nat ->
  let l := rendered_rcodes
             (events_of (ns_client_error env fuel from c result cnt)) in
  l = [] \/ l = [dns_result_torcode env result].
Proof.
  intros Hfuel.
  unfold ns_client_error, bind, INSIST, REQUIRE, emit, ret, ask.
  run; auto.
  all: try (use_next Hfuel; cbn; rewrite (rendered_rcodes_next_tail _ Q); auto).
  all: match goal with
       | H : ns_client_send ?e ?f ?g ?a ?k = _ |- _ =>
           let S := fresh "S" in
           assert (S := send_rendered_rcodes f g a k Hfuel);
           rewrite H in S; cbn in S
       end; cbn; rewrite ?app_nil_r; exact S.
Qed.

(** X9.  A send completion on a waiting client retries the deferred
    send: with a buffer available the client leaves the waiting state and
    the request is finalized once; with the pool still empty the client
    stays waiting while other sends are outstanding, and gives up with
    ISC_R_NOMEMORY when this was the last one. *)
Theorem senddone_completes_deferred_send fuel c cnt :
  (2 <= fuel)%nat ->
  NS_CLIENT_VALID c = true ->
  state c = ns_clientstate_waiting ->
  0 < nsends c ->
  let x := client_senddone env fuel c cnt in
  exists c',
    outcome_of x = Ok c'
    /\ (pool_empty env cnt = false ->
        state c' <> ns_clientstate_waiting
        /\ count_events (is_next_from F_send) (events_of x) = 1%nat)
    /\ (pool_empty env cnt = true -> 1 < nsends c ->
        state c' = ns_clientstate_waiting /\ nsends c' = nsends c - 1
        /\ count_events is_finalize (events_of x) = 1%nat)
    /\ (pool_empty env cnt = true -> nsends c = 1 ->
        state c' <> ns_clientstate_waiting
        /\ In (Call_next F_send ISC_R_NOMEMORY) (events_of x)).
Proof.
  intros Hfuel V W N x. subst x. apply Z.ltb_lt in N.
  unfold client_senddone, ns_client_send, pool_empty, bind, INSIST, REQUIRE,
    emit, ret, ask, alloc.
  rewrite V, N. cbn. rewrite W. cbn. unfold NS_CLIENT_VALID in *. cbn.
  rewrite V. cbn.
  run.
  all: try (use_next Hfuel).
  all: try (destruct R as [c' ->]; [assumption | reflexivity | ]).
  all: eexists; split; [reflexivity|].
  all: repeat split; intros; try discriminate; try lia; try reflexivity.
  all: try (destruct (A _ eq_refl) as (A1 & _); exact A1).
  all: try (cbn; f_equal; fold_counts;
            apply (count_events_none _ _ _ Q
                     (next_tail_not_next F_send ltac:(discriminate)))).
  all: auto 10 using in_eq, in_cons.
Qed.
End SendReceipts.

(** ** Requests that client_request answers itself *)

Lemma error_tail_not_view_attach e :
  error_tail_event e = true -> is_view_attach e = false.
Proof. destruct e; simpl; try congruence; destruct from; congruence. Qed.

Lemma error_tail_not_parse e :
  error_tail_event e = true -> is_parse e = false.
Proof. destruct e; simpl; try congruence; destruct from; congruence. Qed.

Section RequestFacts.
Variable env : Env.

Lemma next_udp_settles fuel from c r cnt d :
  (2 <= fuel)%nat ->
  NS_CLIENT_VALID c = true -> may_finalize c = true ->
  dispevent c = Some d ->
  exists c',
    outcome_of (ns_client_next env fuel from c r cnt) = Ok c'
    /\ udp_settled d c'.
Proof.
  intros Hfuel V W D. unfold may_finalize in W.
  destruct fuel as [|[|fuel]]; try lia.
  open_next. rewrite V, W. revert D.
  run; intros D; try discriminate; eexists; (split; [reflexivity|]);
    left; cbn; repeat split; first [reflexivity | assumption].
Qed.

Lemma send_udp_settles fuel from c cnt d :
  (2 <= fuel)%nat ->
  NS_CLIENT_VALID c = true -> state c = ns_clientstate_working ->
  dispevent c = Some d ->
  exists c',
    outcome_of (ns_client_send env fuel from c cnt) = Ok c'
    /\ udp_settled d c'.
Proof.
  intros Hfuel V W D.
  unfold ns_client_send, bind, INSIST, REQUIRE, emit, ret, ask, alloc.
  rewrite V, W. cbn [state_eqb].
  run.
  1: { eexists. split; [reflexivity|]. right. cbn. repeat split; auto. lia. }
  all: match goal with
       | H : ns_client_next _ _ ?f ?a ?r ?k = _ |- _ =>
           let S := fresh "S" in
           destruct (next_udp_settles fuel f a r k d Hfuel) as (c' & S & ?);
           [exact V | unfold may_finalize; cbn; rewrite W; reflexivity
           | exact D | rewrite H in S; cbn in S; subst ]
       end.
  all: eexists; split; [reflexivity|assumption].
Qed.

Lemma error_udp_settles fuel from c r cnt d :
  (2 <= fuel)%nat ->
  NS_CLIENT_VALID c = true -> state c = ns_clientstate_working ->
  dispevent c = Some d ->
  exists c',
    outcome_of (ns_client_error env fuel from c r cnt) = Ok c'
    /\ udp_settled d c'.
Proof.
  intros Hfuel V W D.
  unfold ns_client_error, bind, INSIST, REQUIRE, emit, ret, ask.
  rewrite V. run.
  all: match goal with
       | H : ns_client_next _ _ ?f ?a ?r ?k = _ |- _ =>
           let S := fresh "S" in
           destruct (next_udp_settles fuel f a r k d Hfuel) as (c' & S & ?);
           [exact V | unfold may_finalize; cbn; rewrite W; reflexivity
           | exact D | rewrite H in S; cbn in S; subst ]
       | H : ns_client_send _ _ ?f ?a ?k = _ |- _ =>
           let S := fresh "S" in
           destruct (send_udp_settles fuel f a k d Hfuel) as (c' & S & ?);
           [exact V | exact W | exact D | rewrite H in S; cbn in S; subst ]
       end.
  all: eexists; split; [reflexivity|assumption].
Qed.

(** X10.  A datagram that client_request answers itself (parse failure,
    no matching view, or an opcode it does not hand to a handler) leaves
    the UDP client settled: listening again with the request released, or
    parked waiting for a send buffer with the event still in hand. *)
Theorem udp_request_settles fuel d c cnt :
  (2 <= fuel)%nat ->
  NS_CLIENT_VALID c = true ->
  dispentry c <> None ->
  dev_result d = ISC_R_SUCCESS ->
  let parsed := answer env cnt X_parse in
  let m := parse_effect env (message c) (dev_buffer d) parsed in
  (parsed = ISC_R_SUCCESS ->
     Z.land (flags m) DNS_MESSAGEFLAG_QR = 0
     /\ (forall v, find_view (ns_g_viewlist env) (rdclass m) = Some v ->
           handled_here (opcode m) = true)) ->
  exists c',
    outcome_of (client_request env fuel (DNS_EVENT_DISPATCH d) c cnt) = Ok c'
    /\ udp_settled d c'.
Proof.
  intros Hfuel V E R parsed m Hm. subst parsed m. unfold answer in Hm.
  unfold client_request, client_request_dispatch, bind, INSIST, REQUIRE,
    emit, ret, ask.
  rewrite V, R. destruct (dispentry c) as [de|]; [|congruence]. cbn.
  destruct (is_success (result_of env X_parse (cnt X_parse))) eqn:Hp; cbn.
  - apply is_success_true in Hp. destruct (Hm Hp) as [Hq Hop].
    rewrite Hp in *. rewrite Hq. cbn.
    destruct (find_view _ _) as [v|] eqn:Hv; cbn.
    + specialize (Hop v eq_refl).
      destruct (opcode _) eqn:Hopc; try discriminate; cbn.
      all: run.
      all: match goal with
       | H : ns_client_next _ _ ?f ?a ?r ?k = _ |- _ =>
           let S := fresh "S" in
           destruct (next_udp_settles fuel f a r k d Hfuel) as (c' & S & ?);
           [exact V | reflexivity | reflexivity
           | rewrite H in S; cbn in S; subst ]
       | H : ns_client_error _ _ ?f ?a ?r ?k = _ |- _ =>
           let S := fresh "S" in
           destruct (error_udp_settles fuel f a r k d Hfuel) as (c' & S & ?);
           [exact V | reflexivity | reflexivity
           | rewrite H in S; cbn in S; subst ]
       end.
      all: eexists; split; [reflexivity|assumption].
    + run.
      all: match goal with
       | H : ns_client_error _ _ ?f ?a ?r ?k = _ |- _ =>
           let S := fresh "S" in
           destruct (error_udp_settles fuel f a r k d Hfuel) as (c' & S & ?);
           [exact V | reflexivity | reflexivity
           | rewrite H in S; cbn in S; subst ]
       end.
      all: eexists; split; [reflexivity|assumption].
  - run.
    all: match goal with
       | H : ns_client_error _ _ ?f ?a ?r ?k = _ |- _ =>
           let S := fresh "S" in
           destruct (error_udp_settles fuel f a r k d Hfuel) as (c' & S & ?);
           [exact V | reflexivity | reflexivity
           | rewrite H in S; cbn in S; subst ]
       end.
    all: eexists; split; [reflexivity|assumption].
Qed.


(** X11.  When the dispatcher reports a failure to a UDP client,
    client_request shuts the client's task down: nothing is parsed and
    none of send, error and next is called. *)
Theorem udp_transport_error_shuts_task_down fuel d c cnt :
  NS_CLIENT_VALID c = true ->
  dispentry c <> None ->
  TCP_CLIENT c = false ->
  dev_result d <> ISC_R_SUCCESS ->
  let x := client_request env fuel (DNS_EVENT_DISPATCH d) c cnt in
  exists c',
    outcome_of x = Ok c'
    /\ state c' = ns_clientstate_working
    /\ dispevent c' = Some d
    /\ In (Ev_task_shutdown (self c)) (events_of x)
    /\ count_events is_finalize (events_of x) = O
    /\ count_events is_parse (events_of x) = O.
Proof.
  intros V E T R x. subst x. apply is_success_false in R.
  unfold client_request, bind, INSIST, REQUIRE, emit, ret, ask.
  rewrite V. destruct (dispentry c); [|congruence]. cbn. rewrite R. cbn.
  unfold TCP_CLIENT in *. cbn. rewrite T. cbn.
  eexists. repeat split. cbn. auto.
Qed.

(** X12.  When the TCP reader reports a failure, client_request
    finalizes with that result through ns_client_next alone: nothing is
    parsed, the connection is dropped and a new one is accepted. *)
Theorem tcp_transport_error_drops_connection fuel c cnt :
  (2 <= fuel)%nat ->
  NS_CLIENT_VALID c = true ->
  TCP_CLIENT c = true ->
  dispevent c = None ->
  tcpmsg_result (tcpmsg c) <> ISC_R_SUCCESS ->
  let x := client_request env fuel DNS_EVENT_TCPMSG c cnt in
  exists c',
    outcome_of x = Ok c'
    /\ tcpsocket c' = None
    /\ filter is_finalize (events_of x)
       = [Call_next F_request (tcpmsg_result (tcpmsg c))]
    /\ count_events is_parse (events_of x) = O
    /\ count_events is_accept (events_of x) = 1%nat.
Proof.
  intros Hfuel V T D R x. subst x. apply is_success_false in R.
  destruct fuel as [|[|fuel]]; try lia.
  unfold client_request, bind, INSIST, REQUIRE, emit, ret, ask.
  rewrite V. cbn. rewrite R. cbn. unfold TCP_CLIENT in *. cbn. rewrite T.
  cbn. open_next. cbn. rewrite V. cbn. rewrite ?R. cbn. revert D T.
  run; intros D T; try discriminate; eexists; repeat split; cbn;
    first [reflexivity | assumption].
Qed.

(** X13.  A message that parses and has the QR flag set fails the INSIST
    of client_request, before any view is attached and before any of send,
    error and next is called. *)
Theorem reply_as_request_fails_insist fuel ev c cnt :
  NS_CLIENT_VALID c = true ->
  (forall d, ev = DNS_EVENT_DISPATCH d ->
     dispentry c <> None /\ dev_result d = ISC_R_SUCCESS) ->
  (ev = DNS_EVENT_TCPMSG -> tcpmsg_result (tcpmsg c) = ISC_R_SUCCESS) ->
  answer env cnt X_parse = ISC_R_SUCCESS ->
  let buffer := match ev with
                | DNS_EVENT_DISPATCH d => dev_buffer d
                | DNS_EVENT_TCPMSG => tcpmsg_buffer (tcpmsg c)
                end in
  Z.land (flags (parse_effect env (message c) buffer ISC_R_SUCCESS))
    DNS_MESSAGEFLAG_QR <> 0 ->
  let x := client_request env fuel ev c cnt in
  outcome_of x = Assertion_failed
  /\ count_events is_finalize (events_of x) = O
  /\ count_events is_view_attach (events_of x) = O.
Proof.
  intros V Hd Ht Hp buffer Hq x. subst x buffer. unfold answer in Hp.
  apply Z.eqb_neq in Hq.
  unfold client_request, bind, INSIST, REQUIRE, emit, ret, ask.
  rewrite V. destruct ev as [d|].
  - destruct (Hd d eq_refl) as [He Hr].
    destruct (dispentry c); [|congruence]. cbn. rewrite Hr. cbn.
    rewrite Hp. cbn. rewrite Hq. cbn. repeat split.
  - cbn. rewrite (Ht eq_refl). cbn. rewrite Hp. cbn. rewrite Hq. cbn.
    repeat split.
Qed.

(** X14.  A request that cannot be parsed is answered by client_request
    with exactly one call to ns_client_error carrying the parse result;
    one for whose class no view exists, with exactly one call carrying
    DNS_R_REFUSED.  No view is attached in either case. *)
Theorem unanswerable_request_gets_one_error fuel ev c cnt :
  (2 <= fuel)%nat ->
  NS_CLIENT_VALID c = true ->
  (forall d, ev = DNS_EVENT_DISPATCH d ->
     dispentry c <> None /\ dev_result d = ISC_R_SUCCESS) ->
  (ev = DNS_EVENT_TCPMSG -> tcpmsg_result (tcpmsg c) = ISC_R_SUCCESS) ->
  let buffer := match ev with
                | DNS_EVENT_DISPATCH d => dev_buffer d
                | DNS_EVENT_TCPMSG => tcpmsg_buffer (tcpmsg c)
                end in
  let parsed := answer env cnt X_parse in
  let m := parse_effect env (message c) buffer parsed in
  let x := client_request env fuel ev c cnt in
  (parsed <> ISC_R_SUCCESS ->
     filter (is_finalize_from F_request) (events_of x)
     = [Call_error F_request parsed]
     /\ count_events is_view_attach (events_of x) = O)
  /\ (parsed = ISC_R_SUCCESS ->
      Z.land (flags m) DNS_MESSAGEFLAG_QR = 0 ->
      find_view (ns_g_viewlist env) (rdclass m) = None ->
      filter (is_finalize_from F_request) (events_of x)
      = [Call_error F_request DNS_R_REFUSED]
      /\ count_events is_view_attach (events_of x) = O).
Proof.
  intros Hfuel V Hd Ht buffer parsed m x. subst x m parsed buffer.
  unfold answer.
  split.
  - intros Hp. apply is_success_false in Hp.
    unfold client_request, bind, INSIST, REQUIRE, emit, ret, ask.
    rewrite V. destruct ev as [d|].
    + destruct (Hd d eq_refl) as [He Hr].
      destruct (dispentry c); [|congruence]. cbn. rewrite Hr. cbn.
      rewrite Hp. cbn.
      match goal with
      | |- context [ns_client_error ?e ?f ?g ?a ?r ?k] =>
          destruct (error_summarized e f g a r k Hfuel) as [[t [E Q]] _ _ _];
          destruct (ns_client_error e f g a r k) as [[o k'] l]
      end.
      cbn in *. subst l. cbn. fold_counts.
      rewrite (filter_none _ _ _ Q error_tail_not_from_request),
        (count_events_none _ _ _ Q error_tail_not_view_attach). auto.
    + cbn. rewrite (Ht eq_refl). cbn. rewrite Hp. cbn.
      match goal with
      | |- context [ns_client_error ?e ?f ?g ?a ?r ?k] =>
          destruct (error_summarized e f g a r k Hfuel) as [[t [E Q]] _ _ _];
          destruct (ns_client_error e f g a r k) as [[o k'] l]
      end.
      cbn in *. subst l. cbn. fold_counts.
      rewrite (filter_none _ _ _ Q error_tail_not_from_request),
        (count_events_none _ _ _ Q error_tail_not_view_attach). auto.
  - intros Hp Hq Hv. apply Z.eqb_eq in Hq.
    unfold client_request, bind, INSIST, REQUIRE, emit, ret, ask.
    rewrite V. destruct ev as [d|].
    + destruct (Hd d eq_refl) as [He Hr].
      destruct (dispentry c); [|congruence]. cbn. rewrite Hr. cbn.
      rewrite Hp in *. cbn. rewrite Hq. cbn. rewrite Hv.
      match goal with
      | |- context [ns_client_error ?e ?f ?g ?a ?r ?k] =>
          destruct (error_summarized e f g a r k Hfuel) as [[t [E Q]] _ _ _];
          destruct (ns_client_error e f g a r k) as [[o k'] l]
      end.
      cbn in *. subst l. cbn. fold_counts.
      rewrite (filter_none _ _ _ Q error_tail_not_from_request),
        (count_events_none _ _ _ Q error_tail_not_view_attach). auto.
    + cbn. rewrite (Ht eq_refl). cbn. rewrite Hp in *. cbn.
      rewrite Hq. cbn. rewrite Hv.
      match goal with
      | |- context [ns_client_error ?e ?f ?g ?a ?r ?k] =>
          destruct (error_summarized e f g a r k Hfuel) as [[t [E Q]] _ _ _];
          destruct (ns_client_error e f g a r k) as [[o k'] l]
      end.
      cbn in *. subst l. cbn. fold_counts.
      rewrite (filter_none _ _ _ Q error_tail_not_from_request),
        (count_events_none _ _ _ Q error_tail_not_view_attach). auto.
Qed.

End RequestFacts.

(** ** Timeouts and new connections *)

Section TimerAndConnections.
Variable env : Env.

(** X23.  A timeout of a valid client that is listening or working
    finalizes the request with exactly one call, ns_client_next with
    ISC_R_TIMEDOUT; no read is started, and a TCP client drops its
    connection and accepts a new one.  In any other state the timeout
    stops at the REQUIRE of ns_client_next. *)
Theorem timeout_finalizes_once fuel c cnt :
  (2 <= fuel)%nat ->
  NS_CLIENT_VALID c = true ->
  let x := client_timeout env fuel c cnt in
  (may_finalize c = true ->
   exists c',
     outcome_of x = Ok c'
     /\ filter is_finalize (events_of x)
        = [Call_next F_timeout ISC_R_TIMEDOUT]
     /\ count_events is_readmessage (events_of x) = O
     /\ (TCP_CLIENT c = true -> dispevent c = None ->
         tcpsocket c' = None /\ count_events is_accept (events_of x) = 1%nat))
  /\ (may_finalize c = false ->
      x = (Assertion_failed, cnt, [Call_next F_timeout ISC_R_TIMEDOUT])).
Proof.
  intros Hfuel V x. subst x. unfold may_finalize.
  destruct fuel as [|[|fuel]]; try lia.
  unfold client_timeout. open_next. rewrite V. cbn.
  split.
  - intros W. rewrite ?V, ?W. cbn.
    run; eexists; repeat split; intros; try discriminate;
      cbn; first [reflexivity | assumption | congruence].
  - intros W. rewrite ?V, ?W. reflexivity.
Qed.

(** X24.  client_newconn: after a failed accept the client goes idle
    and nothing else happens (no new accept is issued).  After a
    successful one it reads on the new socket and is reading; when that
    read cannot be started, ns_client_next drops the socket and accepts
    again if the client was listening or working, and fails its REQUIRE
    otherwise. *)
Theorem newconn_reads_or_goes_idle fuel result newsocket c cnt :
  (2 <= fuel)%nat ->
  NS_CLIENT_VALID c = true ->
  let x := client_newconn env fuel result newsocket c cnt in
  let read := answer env cnt X_readmessage in
  (result <> ISC_R_SUCCESS ->
   x = (Ok (set_state c ns_clientstate_idle), cnt, []))
  /\ (result = ISC_R_SUCCESS -> read = ISC_R_SUCCESS ->
      exists c',
        outcome_of x = Ok c'
        /\ state c' = ns_clientstate_reading
        /\ tcpsocket c' = Some newsocket
        /\ count_events is_finalize (events_of x) = O)
  /\ (result = ISC_R_SUCCESS -> read <> ISC_R_SUCCESS ->
      may_finalize c = true -> TCP_CLIENT c = true -> dispevent c = None ->
      exists c',
        outcome_of x = Ok c'
        /\ state c' = ns_clientstate_reading
        /\ tcpsocket c' = None
        /\ filter is_finalize (events_of x) = [Call_next F_read read]
        /\ count_events is_accept (events_of x) = 1%nat)
  /\ (result = ISC_R_SUCCESS -> read <> ISC_R_SUCCESS ->
      may_finalize c = false ->
      outcome_of x = Assertion_failed).
Proof.
  intros Hfuel V x read. subst x read. unfold answer, may_finalize.
  destruct fuel as [|[|fuel]]; try lia.
  unfold client_newconn, client_read. open_next. rewrite V. cbn.
  split; [|split; [|split]].
  - intros R. apply is_success_false in R. rewrite R. reflexivity.
  - intros R Rd. apply is_success_true in R, Rd. rewrite R. cbn.
    rewrite Rd. cbn. eexists. repeat split.
  - intros R Rd W T D. apply is_success_true in R.
    apply is_success_false in Rd. rewrite R. cbn. rewrite Rd. cbn.
    rewrite ?V, ?W. cbn. revert D T.
    run; intros D T; try discriminate; eexists; repeat split; cbn;
      first [reflexivity | assumption | congruence].
  - intros R Rd W. apply is_success_true in R.
    apply is_success_false in Rd. rewrite R. cbn. rewrite Rd. cbn.
    rewrite ?V, ?W. reflexivity.
Qed.

(** X25.  client_read leaves the client reading even when the read
    could not be started, so a TCP client that fails to start the read on
    two connections in a row fails the REQUIRE of ns_client_next on the
    second. *)
Theorem second_failed_read_aborts fuel s1 s2 c cnt :
  (2 <= fuel)%nat ->
  NS_CLIENT_VALID c = true ->
  may_finalize c = true -> TCP_CLIENT c = true -> dispevent c = None ->
  result_of env X_readmessage (cnt X_readmessage) <> ISC_R_SUCCESS ->
  result_of env X_readmessage (S (cnt X_readmessage)) <> ISC_R_SUCCESS ->
  let x := run_events env fuel
             [On_newconn ISC_R_SUCCESS s1; On_newconn ISC_R_SUCCESS s2]
             c cnt in
  outcome_of x = Assertion_failed
  /\ count_events (is_next_from F_read) (events_of x) = 2%nat.
Proof.
  intros Hfuel V W T D R1 R2 x. subst x. unfold may_finalize in W.
  apply is_success_false in R1, R2.
  destruct fuel as [|[|fuel]]; try lia.
  cbn [run_events handle].
  unfold client_newconn, client_read. open_next. rewrite V. cbn.
  rewrite R1. cbn. rewrite ?V, ?W. cbn. revert D T.
  run; intros D T; try discriminate; cbn;
    unfold bump; cbn; rewrite ?R2; cbn; split; reflexivity.
Qed.

End TimerAndConnections.

(** ** Creating and registering clients *)

Lemma held_app res l1 l2 : held res (l1 ++ l2) = held res l1 + held res l2.
Proof. induction l1 as [|e l1 IH]; cbn; [reflexivity|]. rewrite IH. lia. Qed.

Section Registration.
Variable env : Env.

Lemma client_create_held m type cnt res :
  exists cr,
    outcome_of (client_create env m type cnt) = Ok cr
    /\ held res (events_of (client_create env m type cnt))
       = match cr with Created _ => 1 | Not_created _ => 0 end.
Proof.
  unfold client_create, bind, emit, ret, ask, alloc.
  run; eexists; (split; [reflexivity|]); destruct res; cbn;
    repeat match goal with
           | H : is_success _ = _ |- _ => rewrite H
           end; reflexivity.
Qed.

Lemma client_free_held c cnt res :
  held res (events_of (client_free c cnt)) = -1.
Proof.
  unfold client_free, bind, emit, ret.
  run; destruct res; reflexivity.
Qed.

Lemma client_create_fresh m type cnt c :
  outcome_of (client_create env m type cnt) = Ok (Created c) ->
  NS_CLIENT_VALID c = true /\ ctype c = type
  /\ state c = ns_clientstate_idle /\ attributes c = 0
  /\ nsends c = 0 /\ view c = None /\ next c = false
  /\ dispatch c = None /\ dispentry c = None /\ dispevent c = None
  /\ tcplistener c = None /\ tcpsocket c = None
  /\ self c = mem_address env (cnt X_mem_get).
Proof.
  unfold client_create, bind, emit, ret, ask, alloc.
  run; intros [= <-]; repeat split.
Qed.

(** X15.  client_create always returns.  When it fails, its result is
    not ISC_R_SUCCESS and its cleanup chain has given back every resource
    it had obtained (memory, task, timer, message, send buffer pool); when
    it succeeds it holds exactly one of each and the client is valid,
    idle, with no send outstanding and nothing attached. *)
Theorem client_create_cleans_up m type cnt :
  exists cr,
    outcome_of (client_create env m type cnt) = Ok cr
    /\ (forall res,
          held res (events_of (client_create env m type cnt))
          = match cr with Created _ => 1 | Not_created _ => 0 end)
    /\ (forall r, cr = Not_created r -> r <> ISC_R_SUCCESS)
    /\ (forall c, cr = Created c ->
          NS_CLIENT_VALID c = true /\ ctype c = type
          /\ state c = ns_clientstate_idle /\ attributes c = 0
          /\ nsends c = 0 /\ view c = None /\ next c = false
          /\ dispatch c = None /\ dispentry c = None /\ dispevent c = None
          /\ tcplistener c = None /\ tcpsocket c = None
          /\ self c = mem_address env (cnt X_mem_get)).
Proof.
  destruct (client_create_returns env m type cnt) as (cr & Ho & Hf & _).
  exists cr. split; [exact Ho|]. split; [|split; [exact Hf|]].
  - intros res. destruct (client_create_held m type cnt res) as (cr' & Ho' & H).
    rewrite Ho in Ho'. injection Ho' as <-. exact H.
  - intros c ->. exact (client_create_fresh m type cnt c Ho).
Qed.

Lemma client_create_succeeds m type cnt :
  never_fails env ->
  exists c, outcome_of (client_create env m type cnt) = Ok (Created c).
Proof.
  intros [Hr Hn].
  unfold client_create, bind, emit, ret, ask, alloc.
  run; try (eexists; reflexivity); exfalso;
    repeat match goal with
           | H : is_success (result_of _ _ _) = false |- _ =>
               rewrite Hr in H; discriminate
           | H : returns_null _ _ _ = true |- _ =>
               rewrite Hn in H; discriminate
           end.
Qed.

Lemma register_in_range c s : in_range (register c s).
Proof.
  unfold in_range, register. cbn.
  apply Z.mod_pos_bound. unfold UINT_MAX1. lia.
Qed.

Lemma addtodispatch_loop_registers dispatch todo :
  forall result i s cnt,
  exists res s' added,
    outcome_of (addtodispatch_loop env todo result i dispatch s cnt)
    = Ok (res, i + Z.of_nat (length added), s')
    /\ objects s' = objects s ++ added
    /\ clients (manager s') = clients (manager s) ++ map self added
    /\ nclients (manager s') mod UINT_MAX1
       = (nclients (manager s) + Z.of_nat (length added)) mod UINT_MAX1
    /\ (in_range s -> in_range s')
    /\ exiting (manager s') = exiting (manager s)
    /\ mgr_magic (manager s') = mgr_magic (manager s)
    /\ Forall (udp_ready dispatch) added
    /\ (forall res,
          held res
            (events_of (addtodispatch_loop env todo result i dispatch s cnt))
          = Z.of_nat (length added))
    /\ (never_fails env -> length added = todo).
Proof.
  induction todo as [|todo IH]; intros result i s cnt.
  - exists result, s, []. cbn. rewrite Z.add_0_r, !app_nil_r.
    repeat split; auto; try (now rewrite Z.add_0_r);
      unfold in_range in *; lia.
  - cbn [addtodispatch_loop]. unfold bind.
    assert (Hheld := client_create_held (manager s) ns_clienttype_basic cnt).
    assert (Hsucc := client_create_succeeds (manager s) ns_clienttype_basic
                       cnt).
    assert (Hmade := client_create_fresh (manager s) ns_clienttype_basic cnt).
    destruct (client_create_returns env (manager s) ns_clienttype_basic cnt)
      as (cr & Hcr & _ & _).
    destruct (client_create env (manager s) ns_clienttype_basic cnt)
      as [[o k] l]. cbn in Hcr. subst o.
    cbn [counters_of outcome_of events_of fst snd] in *.
    destruct cr as [client | r].
    + destruct (Hmade client eq_refl)
        as (V & Ty & St & At & Ns & Vw & Nx & Dp & De & Dv & Tl & Ts & Sf).
      assert (Hl : forall res, held res l = 1).
      { intros res. destruct (Hheld res) as (cr' & [= <-] & H). exact H. }
      unfold emit, ask, ret. cbn.
      destruct (is_success (result_of env X_addrequest (k X_addrequest)))
        eqn:Hadd; cbn.
      * match goal with
        | |- context [addtodispatch_loop env todo ?r ?j dispatch
                        (register ?reg s) ?c] =>
            destruct (IH r j (register reg s) c)
              as (res & s' & added & Ho & Hobj & Hc & Hn & Hrange & He
                  & Hm & Hall & Hh & Hnf);
            destruct (addtodispatch_loop env todo r j dispatch
                        (register reg s) c) as [[o2 k2] l2];
            exists res, s', (reg :: added);
            pose proof (register_in_range reg s) as Hreg
        end.
        cbn in Ho. subst o2. cbn in Hobj, Hc, Hn, He, Hm, Hh.
        cbn [length map].
        rewrite Hobj, Hc, <- !app_assoc. cbn.
        replace (i + Z.pos (Pos.of_succ_nat (length added)))
          with (i + 1 + Z.of_nat (length added)) by lia.
        split; [reflexivity|]. split; [reflexivity|].
        split; [reflexivity|].
        split.
        { rewrite Hn, Zplus_mod_idemp_l. f_equal. lia. }
        split.
        { intros _. apply Hrange. exact Hreg. }
        split; [exact He|]. split; [exact Hm|].
        split.
        { constructor; [|exact Hall].
          unfold udp_ready. cbn. repeat split; try assumption; try congruence.
          unfold TCP_CLIENT. cbn. rewrite At. reflexivity. }
        split.
        { intros res0. rewrite !held_app, Hl. cbn [held]. rewrite Hh.
          rewrite ?Zpos_P_of_succ_nat. destruct res0; cbn [holds]; lia. }
        intros Hnever. f_equal. exact (Hnf Hnever).
      * unfold client_free, bind, emit, ret. run.
        all: exists (result_of env X_addrequest (k X_addrequest)), s, [];
             cbn; rewrite !Z.add_0_r, !app_nil_r; repeat split; auto;
             try (unfold in_range in *; lia);
             try (intros res0; rewrite !held_app, Hl;
                  destruct res0; cbn; lia);
             try (intros [Hr _]; rewrite Hr in Hadd; discriminate).
    + exists r, s, []. cbn. rewrite !Z.add_0_r, !app_nil_r.
      repeat split; auto; try (unfold in_range in *; lia).
      * intros res0. rewrite ?app_nil_r.
        destruct (Hheld res0) as (cr' & [= <-] & H). exact H.
      * intros Hnever. destruct (Hsucc Hnever) as (c & [=]).
Qed.

Lemma accepttcp_loop_registers socket todo :
  forall result i s cnt,
  exists res s' added,
    outcome_of (accepttcp_loop env todo result i socket s cnt)
    = Ok (res, i + Z.of_nat (length added), s')
    /\ objects s' = objects s ++ added
    /\ clients (manager s') = clients (manager s) ++ map self added
    /\ nclients (manager s') mod UINT_MAX1
       = (nclients (manager s) + Z.of_nat (length added)) mod UINT_MAX1
    /\ (in_range s -> in_range s')
    /\ exiting (manager s') = exiting (manager s)
    /\ mgr_magic (manager s') = mgr_magic (manager s)
    /\ Forall (tcp_ready socket) added
    /\ (forall res,
          held res
            (events_of (accepttcp_loop env todo result i socket s cnt))
          = Z.of_nat (length added))
    /\ (never_fails env ->
        length added = todo
        /\ Forall (fun c => state c = ns_clientstate_listening) added).
Proof.
  induction todo as [|todo IH]; intros result i s cnt.
  - exists result, s, []. cbn. rewrite !Z.add_0_r, !app_nil_r.
    repeat split; auto; unfold in_range in *; lia.
  - cbn [accepttcp_loop]. unfold bind.
    assert (Hheld := client_create_held (manager s) ns_clienttype_tcp cnt).
    assert (Hsucc := client_create_succeeds (manager s) ns_clienttype_tcp
                       cnt).
    assert (Hmade := client_create_fresh (manager s) ns_clienttype_tcp cnt).
    destruct (client_create_returns env (manager s) ns_clienttype_tcp cnt)
      as (cr & Hcr & _ & _).
    destruct (client_create env (manager s) ns_clienttype_tcp cnt)
      as [[o k] l]. cbn in Hcr. subst o.
    cbn [counters_of outcome_of events_of fst snd] in *.
    destruct cr as [client | r].
    + destruct (Hmade client eq_refl)
        as (V & Ty & St & At & Ns & Vw & Nx & Dp & De & Dv & Tl & Ts & Sf).
      assert (Hl : forall res, held res l = 1).
      { intros res. destruct (Hheld res) as (cr' & [= <-] & H). exact H. }
      unfold emit, client_accept, bind, ask, ret. cbn.
      destruct (is_success (result_of env X_accept (k X_accept)))
        eqn:Hacc; cbn.
      all: match goal with
           | |- context [accepttcp_loop _ ?n ?r ?j ?sk
                           (register ?reg ?ss) ?c] =>
               destruct (IH r j (register reg ss) c)
                 as (res & s' & added & Ho & Hobj & Hc & Hn & Hrange & He
                     & Hm & Hall & Hh & Hnf);
               destruct (accepttcp_loop env n r j sk
                           (register reg ss) c) as [[o2 k2] l2];
               exists res, s', (reg :: added);
               pose proof (register_in_range reg ss) as Hreg
           end.
      all: cbn in Ho; subst o2; cbn in Hobj, Hc, Hn, He, Hm, Hh;
           cbn [length map];
           rewrite Hobj, Hc, <- !app_assoc; cbn;
           replace (i + Z.pos (Pos.of_succ_nat (length added)))
             with (i + 1 + Z.of_nat (length added)) by lia;
           (split; [reflexivity|]); (split; [reflexivity|]);
           (split; [reflexivity|]);
           (split; [rewrite Hn, Zplus_mod_idemp_l; f_equal; lia|]);
           (split; [intros _; apply Hrange; exact Hreg|]);
           (split; [exact He|]); (split; [exact Hm|]).
      all: split;
           [constructor; [|exact Hall];
            unfold tcp_ready, TCP_CLIENT; cbn; rewrite At;
            repeat split; try assumption; try congruence; auto|].
      all: split;
           [intros res0; rewrite !held_app, Hl; cbn [held]; rewrite Hh;
            rewrite ?Zpos_P_of_succ_nat; destruct res0; cbn [holds]; lia|].
      * intros Hnever. destruct (Hnf Hnever) as [Hlen Hlist].
        split; [f_equal; exact Hlen|].
        constructor; [reflexivity|exact Hlist].
      * intros Hnever. destruct Hnever as [Hr _].
        rewrite Hr in Hacc. discriminate.
    + exists r, s, []. cbn. rewrite !Z.add_0_r, !app_nil_r.
      repeat split; auto; try (unfold in_range in *; lia).
      * intros res0. rewrite ?app_nil_r.
        destruct (Hheld res0) as (cr' & [= <-] & H). exact H.
      * destruct (Hsucc H) as (c & [=]).
Qed.

(** X16.  ns_clientmgr_addtodispatch appends to the manager the clients
    it registered, in order, and counts them (modulo 2^32); each is a
    valid UDP client listening on the dispatch with a dispatch entry.
    The resources held at the end are those of the registered clients: a
    client that could not be registered is freed.  When no library call
    fails, exactly n clients are registered. *)
Theorem addtodispatch_registers_ready_clients s n dispatch cnt :
  VALID_MANAGER (manager s) = true ->
  0 < n ->
  in_range s ->
  exists res s' added,
    outcome_of (ns_clientmgr_addtodispatch env s n dispatch cnt)
    = Ok (res, s')
    /\ objects s' = objects s ++ added
    /\ clients (manager s') = clients (manager s) ++ map self added
    /\ nclients (manager s')
       = (nclients (manager s) + Z.of_nat (length added)) mod UINT_MAX1
    /\ exiting (manager s') = exiting (manager s)
    /\ VALID_MANAGER (manager s') = true
    /\ Forall (udp_ready dispatch) added
    /\ (forall res,
          held res
            (events_of (ns_clientmgr_addtodispatch env s n dispatch cnt))
          = Z.of_nat (length added))
    /\ (never_fails env ->
        length added = Z.to_nat n /\ res = ISC_R_SUCCESS).
Proof.
  intros Hvalid Hn Hin.
  assert (Htodo : Z.to_nat n <> O) by lia.
  apply Z.ltb_lt in Hn.
  unfold ns_clientmgr_addtodispatch, bind, REQUIRE, ret.
  rewrite Hvalid, Hn.
  destruct (addtodispatch_loop_registers dispatch (Z.to_nat n) ISC_R_SUCCESS
              0 s cnt)
    as (res & s' & added & Ho & Hobj & Hc & Hmod & Hrange & He & Hm & Hall
        & Hh & Hnf).
  destruct (addtodispatch_loop env (Z.to_nat n) ISC_R_SUCCESS 0 dispatch s
              cnt) as [[o k] l].
  cbn in Ho. subst o. cbn in Hh. cbn.
  eexists _, s', added.
  split; [reflexivity|]. split; [exact Hobj|]. split; [exact Hc|].
  split.
  { exact (eq_trans (eq_sym (Z.mod_small _ _ (Hrange Hin))) Hmod). }
  split; [exact He|].
  split; [unfold VALID_MANAGER in *; rewrite Hm; exact Hvalid|].
  split; [exact Hall|].
  split; [intros res0; rewrite app_nil_r; apply Hh|].
  intros Hnever. specialize (Hnf Hnever). split; [exact Hnf|].
  destruct added as [|a added]; [cbn in Hnf; lia|].
  replace (Z.of_nat (length (a :: added)) =? 0) with false
    by (symmetry; apply Z.eqb_neq; cbn [length]; lia).
  reflexivity.
Qed.

(** X17.  ns_clientmgr_accepttcp appends to the manager the clients it
    registered and counts them; each is a valid TCP client attached to
    the listener, listening, or idle when its accept failed.  No resource
    is held beyond those of the registered clients, and when no library
    call fails exactly n listening clients are registered. *)
Theorem accepttcp_registers_ready_clients s n socket cnt :
  VALID_MANAGER (manager s) = true ->
  0 < n ->
  in_range s ->
  exists res s' added,
    outcome_of (ns_clientmgr_accepttcp env s socket n cnt) = Ok (res, s')
    /\ objects s' = objects s ++ added
    /\ clients (manager s') = clients (manager s) ++ map self added
    /\ nclients (manager s')
       = (nclients (manager s) + Z.of_nat (length added)) mod UINT_MAX1
    /\ exiting (manager s') = exiting (manager s)
    /\ VALID_MANAGER (manager s') = true
    /\ Forall (tcp_ready socket) added
    /\ (forall res,
          held res (events_of (ns_clientmgr_accepttcp env s socket n cnt))
          = Z.of_nat (length added))
    /\ (never_fails env ->
        length added = Z.to_nat n /\ res = ISC_R_SUCCESS
        /\ Forall (fun c => state c = ns_clientstate_listening) added).
Proof.
  intros Hvalid Hn Hin.
  assert (Htodo : Z.to_nat n <> O) by lia.
  apply Z.ltb_lt in Hn.
  unfold ns_clientmgr_accepttcp, bind, REQUIRE, ret.
  rewrite Hvalid, Hn.
  destruct (accepttcp_loop_registers socket (Z.to_nat n) ISC_R_SUCCESS
              0 s cnt)
    as (res & s' & added & Ho & Hobj & Hc & Hmod & Hrange & He & Hm & Hall
        & Hh & Hnf).
  destruct (accepttcp_loop env (Z.to_nat n) ISC_R_SUCCESS 0 socket s
              cnt) as [[o k] l].
  cbn in Ho. subst o. cbn in Hh. cbn.
  eexists _, s', added.
  split; [reflexivity|]. split; [exact Hobj|]. split; [exact Hc|].
  split.
  { exact (eq_trans (eq_sym (Z.mod_small _ _ (Hrange Hin))) Hmod). }
  split; [exact He|].
  split; [unfold VALID_MANAGER in *; rewrite Hm; exact Hvalid|].
  split; [exact Hall|].
  split; [intros res0; rewrite app_nil_r; apply Hh|].
  intros Hnever. destruct (Hnf Hnever) as [Hlen Hlist].
  split; [exact Hlen|]. split; [|exact Hlist].
  destruct added as [|a added]; [cbn in Hlen; lia|].
  replace (Z.of_nat (length (a :: added)) =? 0) with false
    by (symmetry; apply Z.eqb_neq; cbn [length]; lia).
  reflexivity.
Qed.

End Registration.

Section Lifecycle.
Variable env : Env.


End Lifecycle.

(** ** dnssec-signkey *)

Section SignkeyFacts.

Import Signkey.

Variable keyfromrdata : dns_rdata -> option dst_key.
Variable mem_get : nat -> bool.
Variable tostruct : dns_rdata -> option dns_rdata_rrsig.
Variable verify : dst_key -> dns_rdata -> bool.
Variable strtotime : nat -> Z -> Z -> Z.

Lemma same_key_name n sig :
  same_key n sig = true <-> key_name (key n) = sig_name sig.
Proof.
  unfold same_key, key_name, sig_name.
  rewrite andb_true_iff, !Z.eqb_eq. split.
  - intros [-> ->]. reflexivity.
  - intros [= -> ->]. split; reflexivity.
Qed.

Lemma findkey_loop_finds_named keylist sig :
  match findkey_loop keylist sig with
  | Some (k, keylist') =>
      exists n, In n keylist /\ k = key n /\ key_name k = sig_name sig
  | None => True
  end.
Proof.
  induction keylist as [|n rest IH]; cbn; [trivial|].
  destruct (same_key n sig) eqn:Hsame.
  - exists n. repeat split; auto. now apply same_key_name.
  - destruct (findkey_loop rest sig) as [[k rest']|]; [|trivial].
    destruct IH as (m & Hin & -> & Hk). exists m. repeat split; auto.
Qed.

(** X19.  findkey returns the key of the first node of the key list
    whose key tag and algorithm are those of the signature, and marks that
    node and no other as verified; it exits with 'missing key' exactly
    when no node of the list carries that name. *)
Theorem findkey_marks_first_match keylist sig :
  match findkey keylist sig with
  | Done (k, keylist') =>
      exists before n after,
        keylist = before ++ n :: after
        /\ keylist' = before ++ mk_keynode (key n) true :: after
        /\ k = key n
        /\ key_name k = sig_name sig
        /\ Forall (fun m => key_name (key m) <> sig_name sig) before
  | Exit why =>
      why = Fatal_missing_key
      /\ Forall (fun m => key_name (key m) <> sig_name sig) keylist
  end.
Proof.
  unfold findkey.
  induction keylist as [|n rest IH]; cbn.
  - split; [reflexivity|constructor].
  - destruct (same_key n sig) eqn:Hsame.
    + exists [], n, rest. repeat split; auto.
      now apply same_key_name.
    + assert (Hn : key_name (key n) <> sig_name sig).
      { intros H. apply same_key_name in H. congruence. }
      destruct (findkey_loop rest sig) as [[k rest']|].
      * destruct IH as (before & m & after & -> & -> & -> & Hk & Hb).
        exists (n :: before), m, after. repeat split; auto.
      * destruct IH as [_ IH]. split; [reflexivity|]. now constructor.
Qed.

Lemma loadkeys_loop_result todo nomore :
  forall got keylist,
  let zone := zone_keys keyfromrdata todo in
  match loadkeys_loop keyfromrdata mem_get todo nomore got keylist with
  | Done keylist' =>
      nomore = true
      /\ keylist' = keylist ++ map unverified zone
      /\ (forall i, (i < length zone)%nat -> mem_get (got + i)%nat = true)
  | Exit why =>
      (why = Fatal_out_of_memory
       /\ exists i, (i < length zone)%nat /\ mem_get (got + i)%nat = false)
      \/ (why = Fatal_traversing_key_list /\ nomore = false
          /\ forall i, (i < length zone)%nat ->
                       mem_get (got + i)%nat = true)
  end.
Proof.
  induction todo as [|rdata rest IH]; intros got keylist; cbn.
  - destruct nomore; cbn.
    + rewrite app_nil_r. repeat split. intros i Hi. lia.
    + right. repeat split. intros i Hi. lia.
  - destruct (keyfromrdata rdata) as [k|]; [|apply IH].
    destruct (dst_key_iszonekey k); cbn; [|apply IH].
    destruct (mem_get got) eqn:Hgot; cbn.
    + specialize (IH (S got) (keylist ++ [mk_keynode k false])).
      cbn in IH.
      destruct (loadkeys_loop keyfromrdata mem_get rest nomore (S got)
                  (keylist ++ [mk_keynode k false])) as [keylist'|why].
      * destruct IH as (Hn & -> & Hmem). rewrite <- app_assoc.
        repeat split; auto.
        intros [|i] Hi; [now rewrite Nat.add_0_r|].
        replace (got + S i)%nat with (S got + i)%nat by lia.
        apply Hmem. lia.
      * destruct IH as [(-> & i & Hi & Hmem)|(-> & Hn & Hmem)].
        -- left. split; [reflexivity|]. exists (S i). split; [lia|].
           replace (got + S i)%nat with (S got + i)%nat by lia. exact Hmem.
        -- right. repeat split; auto.
           intros [|i] Hi; [now rewrite Nat.add_0_r|].
           replace (got + S i)%nat with (S got + i)%nat by lia.
           apply Hmem. lia.
    + left. split; [reflexivity|]. exists O. split; [lia|].
      now rewrite Nat.add_0_r.
Qed.

Lemma loadkeys_done rdataset keylist :
  loadkeys keyfromrdata mem_get rdataset = Done keylist ->
  map key keylist = zone_keys keyfromrdata (rdatas rdataset)
  /\ Forall (fun n => verified n = false) keylist.
Proof.
  unfold loadkeys.
  destruct (rdatas rdataset) as [|rdata rest]; [discriminate|].
  assert (H := loadkeys_loop_result (rdata :: rest) (ends_nomore rdataset)
                 O []).
  cbv zeta in H. intros Hdone. rewrite Hdone in H.
  destruct H as (_ & -> & _). cbn [app]. split.
  - rewrite map_map. cbn. apply map_id.
  - apply Forall_map. apply Forall_forall. reflexivity.
Qed.

(** X20.  loadkeys returns the zone keys of the key set, in order and
    all unverified, skipping rdata that are not keys and keys that are not
    zone keys; it exits on an empty set, on the first failed allocation,
    and when the traversal ends with anything but ISC_R_NOMORE. *)
Theorem loadkeys_keeps_zone_keys rdataset :
  let zone := zone_keys keyfromrdata (rdatas rdataset) in
  match loadkeys keyfromrdata mem_get rdataset with
  | Done keylist =>
      rdatas rdataset <> [] /\ ends_nomore rdataset = true
      /\ map key keylist = zone
      /\ Forall (fun n => verified n = false) keylist
      /\ (forall i, (i < length zone)%nat -> mem_get i = true)
  | Exit why =>
      (why = Fatal_rdataset_first /\ rdatas rdataset = [])
      \/ (why = Fatal_out_of_memory /\ rdatas rdataset <> []
          /\ exists i, (i < length zone)%nat /\ mem_get i = false)
      \/ (why = Fatal_traversing_key_list /\ rdatas rdataset <> []
          /\ ends_nomore rdataset = false
          /\ forall i, (i < length zone)%nat -> mem_get i = true)
  end.
Proof.
  unfold loadkeys.
  destruct (rdatas rdataset) as [|rdata rest] eqn:Hr.
  - left. split; reflexivity.
  - assert (H := loadkeys_loop_result (rdata :: rest) (ends_nomore rdataset)
                   O []).
    cbv zeta in *.
    destruct (loadkeys_loop keyfromrdata mem_get (rdata :: rest)
                (ends_nomore rdataset) 0 []) as [keylist|why].
    + destruct H as (Hn & -> & Hmem). cbn [app].
      split; [discriminate|]. split; [exact Hn|]. split; [|split].
      * rewrite map_map. cbn. apply map_id.
      * apply Forall_map. apply Forall_forall. reflexivity.
      * exact Hmem.
    + right. destruct H as [(-> & H)|(-> & Hn & Hmem)].
      * left. repeat split; [discriminate|exact H].
      * right. repeat split; [discriminate|exact Hn|exact Hmem].
Qed.

Lemma self_signed_more sigs sigs' k :
  incl sigs sigs' ->
  self_signed tostruct verify sigs k -> self_signed tostruct verify sigs' k.
Proof.
  intros Hincl (sd & sig & Hin & H). exists sd, sig.
  split; [now apply Hincl|exact H].
Qed.

Lemma marks_sound_more sigs sigs' keylist :
  incl sigs sigs' ->
  forall seen, marks_sound tostruct verify sigs seen keylist ->
               marks_sound tostruct verify sigs' seen keylist.
Proof.
  intros Hincl. induction keylist as [|n rest IH]; cbn; [trivial|].
  intros seen [Hn Hrest]. split; [|now apply IH].
  intros Hv. destruct (Hn Hv) as [Hs Hsig].
  split; [exact Hs|]. now apply self_signed_more with sigs.
Qed.

Lemma marks_sound_unverified keylist :
  Forall (fun n => verified n = false) keylist ->
  forall seen, marks_sound tostruct verify [] seen keylist.
Proof.
  induction 1 as [|n rest Hn _ IH]; cbn; [trivial|].
  intros seen. split; [congruence|apply IH].
Qed.

Lemma findkey_loop_sound sigs sigrdata sig keylist :
  tostruct sigrdata = Some sig ->
  forall seen k keylist',
    marks_sound tostruct verify sigs seen keylist ->
    ~ In (sig_name sig) seen ->
    findkey_loop keylist sig = Some (k, keylist') ->
    verify k sigrdata = true ->
    marks_sound tostruct verify (sigrdata :: sigs) seen keylist'
    /\ map key keylist' = map key keylist.
Proof.
  intros Hsig.
  induction keylist as [|n rest IH]; cbn; [discriminate|].
  intros seen k keylist' [Hn Hrest] Hseen.
  destruct (same_key n sig) eqn:Hsame.
  - intros [= <- <-] Hv. apply same_key_name in Hsame. cbn.
    split; [|reflexivity]. split.
    + intros _. rewrite Hsame. split; [exact Hseen|].
      exists sigrdata, sig. repeat split; auto. now left.
    + apply marks_sound_more with sigs; [|exact Hrest].
      intros x Hx. now right.
  - destruct (findkey_loop rest sig) as [[k' rest']|] eqn:Hfind;
      [|discriminate].
    intros [= <- <-] Hv.
    assert (Hne : key_name (key n) <> sig_name sig).
    { intros H. apply same_key_name in H. congruence. }
    destruct (IH (key_name (key n) :: seen) k' rest' Hrest) as [Hs Hk]; auto.
    { intros [H|H]; [now apply Hne|now apply Hseen]. }
    cbn. split; [|now rewrite Hk]. split; [|exact Hs].
    intros Hver. destruct (Hn Hver) as [Hnot Hself].
    split; [exact Hnot|].
    apply self_signed_more with sigs; [|exact Hself].
    intros x Hx. now right.
Qed.

Lemma verify_sigs_sound sigs :
  forall done keylist t keylist' t',
    marks_sound tostruct verify done [] keylist ->
    verify_sigs tostruct verify sigs keylist t = Done (keylist', t') ->
    marks_sound tostruct verify (rev sigs ++ done) [] keylist'
    /\ map key keylist' = map key keylist
    /\ Forall (fun sigrdata =>
                 exists sig n,
                   tostruct sigrdata = Some sig /\ In n keylist
                   /\ key_name (key n) = sig_name sig
                   /\ verify (key n) sigrdata = true) sigs.
Proof.
  induction sigs as [|sigrdata rest IH]; cbn;
    intros done keylist t keylist' t' Hsound.
  - intros [= <- <-]. repeat split; auto.
  - destruct (tostruct sigrdata) as [sig|] eqn:Hsig; [|discriminate].
    unfold findkey.
    assert (Hfirst := findkey_loop_finds_named keylist sig).
    destruct (findkey_loop keylist sig) as [[k kl]|] eqn:Hfind;
      [|discriminate].
    destruct (verify k sigrdata) eqn:Hv; cbn; [|discriminate].
    intros Hrest.
    destruct (findkey_loop_sound done sigrdata sig keylist Hsig [] k kl
                Hsound (fun H => H) Hfind Hv) as [Hs Hk].
    destruct (IH _ _ _ _ _ Hs Hrest) as (Hs' & Hk' & Hall).
    rewrite <- app_assoc. cbn. split; [exact Hs'|].
    split; [congruence|].
    constructor.
    + destruct Hfirst as (n & Hin & -> & Hname).
      exists sig, n. repeat split; auto.
    + eapply Forall_impl; [|exact Hall].
      intros sd (sig' & n & H1 & H2 & H3 & H4).
      exists sig'.
      assert (Hin : In (key n) (map key kl)) by now apply in_map.
      rewrite Hk in Hin. apply in_map_iff in Hin.
      destruct Hin as (n' & Hkey & Hin). exists n'.
      rewrite Hkey. repeat split; auto.
Qed.

Lemma marks_sound_all_verified sigs keylist :
  forall seen,
    marks_sound tostruct verify sigs seen keylist ->
    forallb verified keylist = true ->
    NoDup (map key_name (map key keylist))
    /\ (forall x, In x (map key_name (map key keylist)) -> ~ In x seen)
    /\ Forall (self_signed tostruct verify sigs) (map key keylist).
Proof.
  induction keylist as [|n rest IH]; cbn; intros seen.
  - intros _ _. repeat split; [constructor|tauto|constructor].
  - intros [Hn Hrest] Hall. apply andb_true_iff in Hall.
    destruct Hall as [Hv Hall].
    destruct (Hn Hv) as [Hnot Hself].
    destruct (IH _ Hrest Hall) as (Hnd & Hfresh & Hsigned).
    split; [|split].
    + constructor; [|exact Hnd].
      intros Hin. apply (Hfresh _ Hin). now left.
    + intros x [<-|Hin]; [exact Hnot|].
      intros Hx. apply (Hfresh _ Hin). now right.
    + now constructor.
Qed.

(** X21.  When the checks of main on the key set pass, every signature
    of the set was verified with a zone key it names, every zone key is
    named by a signature it verifies, and no two zone keys share key tag
    and algorithm: of two such keys findkey can only ever mark the
    first. *)
Theorem passing_keyset_is_self_signed rdataset sigrdataset t keylist t' :
  check_keyset keyfromrdata mem_get tostruct verify rdataset sigrdataset t
  = Done (keylist, t') ->
  let zone := zone_keys keyfromrdata (rdatas rdataset) in
  exists sigs,
    sigrdataset = Some sigs /\ sigs <> []
    /\ map key keylist = zone
    /\ Forall (fun n => verified n = true) keylist
    /\ NoDup (map key_name zone)
    /\ Forall (self_signed tostruct verify sigs) zone
    /\ Forall (fun sigrdata =>
                 exists sig k,
                   tostruct sigrdata = Some sig /\ In k zone
                   /\ key_name k = sig_name sig
                   /\ verify k sigrdata = true) sigs.
Proof.
  unfold check_keyset.
  assert (Hload := loadkeys_done rdataset).
  destruct (loadkeys keyfromrdata mem_get rdataset) as [loaded|];
    [|discriminate].
  destruct (Hload loaded eq_refl) as [Hzone Hunv]. clear Hload.
  destruct sigrdataset as [[|sigrdata rest]|]; try discriminate.
  destruct (verify_sigs tostruct verify (sigrdata :: rest) loaded t)
    as [[kl t1]|] eqn:Hrun; [|discriminate].
  destruct (forallb verified kl) eqn:Hall; [|discriminate].
  intros [= <- <-]. cbv zeta.
  destruct (verify_sigs_sound (sigrdata :: rest) [] loaded t kl t1
              (marks_sound_unverified loaded Hunv []) Hrun)
    as (Hsound & Hkeys & Hsigs).
  rewrite app_nil_r in Hsound.
  destruct (marks_sound_all_verified _ _ _ Hsound Hall)
    as (Hnd & _ & Hsigned).
  rewrite Hkeys, Hzone in Hnd, Hsigned.
  exists (sigrdata :: rest).
  split; [reflexivity|]. split; [discriminate|].
  split; [now rewrite Hkeys|].
  split; [apply Forall_forall; exact (proj1 (forallb_forall _ _) Hall)|].
  split; [exact Hnd|].
  split.
  - eapply Forall_impl; [|exact Hsigned].
    intros k. apply self_signed_more.
    intros x Hx. now apply in_rev.
  - eapply Forall_impl; [|exact Hsigs].
    intros sd (sig & n & H1 & H2 & H3 & H4).
    exists sig, (key n). repeat split; auto.
    rewrite <- Hzone. now apply in_map.
Qed.

Lemma verify_sigs_keeps_times sigs :
  forall keylist t keylist' t',
    settime t = true ->
    verify_sigs tostruct verify sigs keylist t = Done (keylist', t') ->
    t' = t.
Proof.
  induction sigs as [|sigrdata rest IH]; cbn; intros keylist t keylist' t' Hset.
  - now intros [= _ <-].
  - destruct (tostruct sigrdata) as [sig|]; [|discriminate].
    destruct (findkey keylist sig) as [[k kl]|]; [|discriminate].
    destruct (verify k sigrdata); cbn; [|discriminate].
    rewrite Hset. cbn. now apply IH.
Qed.


End SignkeyFacts.

(** ** The further properties on concrete runs *)

Lemma next_returns_iff_witness :
  (exists c',
      outcome_of (ns_client_next Scenario.env_ok 2 F_handler
                    Runs.iquery_at_work ISC_R_SUCCESS no_calls) = Ok c')
  /\ ns_client_next Scenario.env_ok 2 F_handler Scenario.tcp_client
       ISC_R_SUCCESS no_calls
     = (Assertion_failed, no_calls, [Call_next F_handler ISC_R_SUCCESS]).
Proof.
  split.
  - destruct (next_returns_iff Scenario.env_ok 2 F_handler
                Runs.iquery_at_work ISC_R_SUCCESS no_calls (le_n 2))
      as [[_ H] _].
    apply H. split; reflexivity.
  - destruct (next_returns_iff Scenario.env_ok 2 F_handler
                Scenario.tcp_client ISC_R_SUCCESS no_calls (le_n 2))
      as [_ H].
    apply H. right. reflexivity.
Defined.

Lemma next_releases_request_witness :
  exists c',
    outcome_of (ns_client_next Scenario.env_ok 2 F_handler
                  Runs.iquery_at_work ISC_R_SUCCESS no_calls) = Ok c'
    /\ view c' = None /\ dispevent c' = None
    /\ kept Runs.iquery_at_work c'.
Proof.
  eexists. split; [vm_compute; reflexivity|].
  destruct (next_releases_request Scenario.env_ok 2 F_handler
              Runs.iquery_at_work ISC_R_SUCCESS no_calls (le_n 2))
    as [H _].
  destruct (H _ eq_refl) as (H1 & _ & H3 & _ & H5).
  split; [exact H1|]. split; [exact H3|exact H5].
Defined.

Lemma next_udp_listens_witness :
  exists c',
    outcome_of (ns_client_next Scenario.env_ok 2 F_handler
                  Runs.iquery_at_work ISC_R_SUCCESS no_calls) = Ok c'
    /\ state c' = ns_clientstate_listening.
Proof.
  destruct (next_udp_listens Scenario.env_ok 2 F_handler
              Runs.iquery_at_work ISC_R_SUCCESS no_calls
              Scenario.iquery_datagram (le_n 2) eq_refl eq_refl eq_refl)
    as (c' & H1 & H2 & _).
  exists c'. split; [exact H1|exact H2].
Defined.

Lemma next_tcp_rearms_witness :
  exists c',
    outcome_of (ns_client_next Runs.env_noread 2 F_handler
                  Cases.tcp_at_work ISC_R_SUCCESS no_calls) = Ok c'
    /\ state c' = ns_clientstate_reading
    /\ tcpsocket c' = None.
Proof.
  destruct (next_tcp_rearms Runs.env_noread 2 F_handler Cases.tcp_at_work
              ISC_R_SUCCESS no_calls (le_n 2) eq_refl eq_refl eq_refl
              eq_refl)
    as (c' & H1 & _ & _ & H3 & _).
  exists c'. split; [exact H1|].
  destruct (H3 eq_refl) as (H4 & H5 & _); [discriminate|].
  split; [exact H4|exact H5].
Defined.



Lemma error_reply_has_mapped_rcode_witness :
  rendered_rcodes
    (events_of (ns_client_error Scenario.env_ok 2 F_handler
                  Runs.iquery_at_work DNS_R_REFUSED no_calls)) = []
  \/ rendered_rcodes
       (events_of (ns_client_error Scenario.env_ok 2 F_handler
                     Runs.iquery_at_work DNS_R_REFUSED no_calls))
     = [dns_result_torcode Scenario.env_ok DNS_R_REFUSED].
Proof.
  exact (error_reply_has_mapped_rcode Scenario.env_ok 2 F_handler
           Runs.iquery_at_work DNS_R_REFUSED no_calls (le_n 2)).
Defined.

Lemma senddone_completes_deferred_send_witness :
  exists c',
    outcome_of (client_senddone Scenario.env_nobuf 2 Cases.parked_client
                  no_calls) = Ok c'
    /\ state c' <> ns_clientstate_waiting
    /\ In (Call_next F_send ISC_R_NOMEMORY)
         (events_of (client_senddone Scenario.env_nobuf 2
                       Cases.parked_client no_calls)).
Proof.
  destruct (senddone_completes_deferred_send Scenario.env_nobuf 2
              Cases.parked_client no_calls (le_n 2) eq_refl eq_refl eq_refl)
    as (c' & H1 & _ & _ & H4).
  exists c'. split; [exact H1|].
  apply H4; reflexivity.
Defined.

Lemma udp_request_settles_witness :
  exists c',
    outcome_of (client_request Scenario.env_ok 2
                  (DNS_EVENT_DISPATCH Cases.status_datagram)
                  Scenario.udp_client no_calls) = Ok c'
    /\ udp_settled Cases.status_datagram c'.
Proof.
  apply (udp_request_settles Scenario.env_ok 2 Cases.status_datagram
           Scenario.udp_client no_calls (le_n 2) eq_refl).
  - discriminate.
  - reflexivity.
  - intros _. split; [reflexivity|]. intros v _. reflexivity.
Defined.

Lemma udp_transport_error_shuts_task_down_witness :
  exists c',
    outcome_of (client_request Scenario.env_ok 2
                  (DNS_EVENT_DISPATCH Cases.failed_datagram)
                  Scenario.udp_client no_calls) = Ok c'
    /\ In (Ev_task_shutdown (self Scenario.udp_client))
         (events_of (client_request Scenario.env_ok 2
                       (DNS_EVENT_DISPATCH Cases.failed_datagram)
                       Scenario.udp_client no_calls)).
Proof.
  destruct (udp_transport_error_shuts_task_down Scenario.env_ok 2
              Cases.failed_datagram Scenario.udp_client no_calls eq_refl)
    as (c' & H1 & _ & _ & H4 & _); try discriminate; try reflexivity.
  exists c'. split; [exact H1|exact H4].
Defined.

Lemma tcp_transport_error_drops_connection_witness :
  exists c',
    outcome_of (client_request Scenario.env_ok 2 DNS_EVENT_TCPMSG
                  Cases.tcp_failed no_calls) = Ok c'
    /\ tcpsocket c' = None.
Proof.
  destruct (tcp_transport_error_drops_connection Scenario.env_ok 2
              Cases.tcp_failed no_calls (le_n 2) eq_refl eq_refl eq_refl)
    as (c' & H1 & H2 & _); [discriminate|].
  exists c'. split; [exact H1|exact H2].
Defined.

Lemma reply_as_request_fails_insist_witness :
  outcome_of (client_request Scenario.env_ok 2
                (DNS_EVENT_DISPATCH Cases.response_datagram)
                Scenario.udp_client no_calls) = Assertion_failed.
Proof.
  apply (reply_as_request_fails_insist Scenario.env_ok 2
           (DNS_EVENT_DISPATCH Cases.response_datagram) Scenario.udp_client
           no_calls eq_refl).
  - intros d [= <-]. split; [discriminate|reflexivity].
  - discriminate.
  - reflexivity.
  - vm_compute. discriminate.
Defined.

Lemma unanswerable_request_gets_one_error_witness :
  filter (is_finalize_from F_request)
    (events_of (client_request Scenario.env_ok 2
                  (DNS_EVENT_DISPATCH Cases.chaos_datagram)
                  Scenario.udp_client no_calls))
  = [Call_error F_request DNS_R_REFUSED].
Proof.
  destruct (unanswerable_request_gets_one_error Scenario.env_ok 2
              (DNS_EVENT_DISPATCH Cases.chaos_datagram) Scenario.udp_client
              no_calls (le_n 2) eq_refl) as [_ H].
  - intros d [= <-]. split; [discriminate|reflexivity].
  - discriminate.
  - exact (proj1 (H eq_refl eq_refl eq_refl)).
Defined.

Lemma addtodispatch_registers_ready_clients_witness :
  exists res s' added,
    outcome_of (ns_clientmgr_addtodispatch Scenario.env_ok
                  Runs.empty_server 2 1%nat no_calls) = Ok (res, s')
    /\ objects s' = added
    /\ length added = 2%nat
    /\ Forall (udp_ready 1%nat) added.
Proof.
  assert (Hnever : never_fails Scenario.env_ok)
    by (split; intros x k; reflexivity).
  assert (Hrange : in_range Runs.empty_server)
    by (unfold in_range; vm_compute; split; [discriminate|reflexivity]).
  destruct (addtodispatch_registers_ready_clients Scenario.env_ok
              Runs.empty_server 2 1%nat no_calls eq_refl eq_refl Hrange)
    as (res & s' & added & H1 & H2 & _ & _ & _ & _ & H7 & _ & H9).
  exists res, s', added.
  split; [exact H1|]. split; [exact H2|].
  split; [exact (proj1 (H9 Hnever))|exact H7].
Defined.

Lemma accepttcp_registers_ready_clients_witness :
  exists res s' added,
    outcome_of (ns_clientmgr_accepttcp Scenario.env_ok
                  Runs.empty_server 2%nat 2 no_calls) = Ok (res, s')
    /\ objects s' = added
    /\ length added = 2%nat
    /\ Forall (tcp_ready 2%nat) added.
Proof.
  assert (Hnever : never_fails Scenario.env_ok)
    by (split; intros x k; reflexivity).
  assert (Hrange : in_range Runs.empty_server)
    by (unfold in_range; vm_compute; split; [discriminate|reflexivity]).
  destruct (accepttcp_registers_ready_clients Scenario.env_ok
              Runs.empty_server 2 2%nat no_calls eq_refl eq_refl Hrange)
    as (res & s' & added & H1 & H2 & _ & _ & _ & _ & H7 & _ & H9).
  exists res, s', added.
  split; [exact H1|]. split; [exact H2|].
  split; [exact (proj1 (H9 Hnever))|exact H7].
Defined.

Lemma passing_keyset_is_self_signed_witness :
  Signkey.check_keyset Cases.keyfromrdata (fun _ => true) Cases.tostruct
    (fun _ _ => true) Cases.keyset Cases.sigset (Signkey.mk_times false 0 0)
  = Signkey.Done (Cases.signed_keylist, Signkey.mk_times true 100 200)
  /\ NoDup (map Signkey.key_name
              (Signkey.zone_keys Cases.keyfromrdata
                 (Signkey.rdatas Cases.keyset))).
Proof.
  assert (Hrun :
    Signkey.check_keyset Cases.keyfromrdata (fun _ => true) Cases.tostruct
      (fun _ _ => true) Cases.keyset Cases.sigset
      (Signkey.mk_times false 0 0)
    = Signkey.Done (Cases.signed_keylist, Signkey.mk_times true 100 200))
    by (vm_compute; reflexivity).
  split; [exact Hrun|].
  destruct (passing_keyset_is_self_signed Cases.keyfromrdata (fun _ => true)
              Cases.tostruct (fun _ _ => true) Cases.keyset Cases.sigset
              (Signkey.mk_times false 0 0) Cases.signed_keylist
              (Signkey.mk_times true 100 200) Hrun)
    as (sigs & _ & _ & _ & _ & H & _).
  exact H.
Defined.


Lemma timeout_finalizes_once_witness :
  (exists c',
      outcome_of (client_timeout Scenario.env_ok 2 Cases.tcp_at_work
                    no_calls) = Ok c'
      /\ filter is_finalize
           (events_of (client_timeout Scenario.env_ok 2 Cases.tcp_at_work
                         no_calls))
         = [Call_next F_timeout ISC_R_TIMEDOUT])
  /\ client_timeout Scenario.env_ok 2 Scenario.tcp_client no_calls
     = (Assertion_failed, no_calls, [Call_next F_timeout ISC_R_TIMEDOUT]).
Proof.
  split.
  - destruct (timeout_finalizes_once Scenario.env_ok 2 Cases.tcp_at_work
                no_calls (le_n 2) eq_refl) as [H _].
    destruct (H eq_refl) as (c' & H1 & H2 & _).
    exists c'. split; [exact H1|exact H2].
  - destruct (timeout_finalizes_once Scenario.env_ok 2 Scenario.tcp_client
                no_calls (le_n 2) eq_refl) as [_ H].
    exact (H eq_refl).
Defined.

Lemma newconn_reads_or_goes_idle_witness :
  exists c',
    outcome_of (client_newconn Scenario.env_ok 2 ISC_R_SUCCESS 9
                  Runs.tcp_listening no_calls) = Ok c'
    /\ state c' = ns_clientstate_reading
    /\ tcpsocket c' = Some 9%nat.
Proof.
  destruct (newconn_reads_or_goes_idle Scenario.env_ok 2 ISC_R_SUCCESS 9
              Runs.tcp_listening no_calls (le_n 2) eq_refl)
    as (_ & H & _).
  destruct (H eq_refl eq_refl) as (c' & H1 & H2 & H3 & _).
  exists c'. split; [exact H1|]. split; [exact H2|exact H3].
Defined.

Lemma second_failed_read_aborts_witness :
  outcome_of (run_events Runs.env_noread 2
                [On_newconn ISC_R_SUCCESS 9; On_newconn ISC_R_SUCCESS 10]
                Runs.tcp_listening no_calls) = Assertion_failed.
Proof.
  apply (second_failed_read_aborts Runs.env_noread 2 9 10 Runs.tcp_listening
           no_calls (le_n 2) eq_refl eq_refl eq_refl eq_refl);
    discriminate.
Defined.
